(** * Attendance ledger (script.js): a shallow embedding and its properties

    The development follows [script.js]: the platform functions the script
    calls ([btoa], [unescape], [encodeURIComponent], [JSON.stringify],
    [JSON.parse], [localStorage], [String.prototype.trim], [toFixed]) are
    written out first, then [Block] and [Blockchain], then the summary and
    rendering functions and the three click handlers.  The properties come
    last.

    Conventions.
    - A JavaScript string is the list of its UTF-16 code units, each a
      number below 2^16.
    - [index] and [timestamp] are integers.  A JavaScript number is read,
      kept and printed as the integer it is as long as that integer is at
      most 2^53 - 1 in magnitude ([isSafeInteger]); the properties that
      depend on how a number of a block is read or printed say so.  The
      sum of two numbers is rounded as binary64 rounds it ([numberAdd]).
    - The payload [data] of a block is the three-field object every block
      of the script is built with.
    - The clock ([Date.now()], and the ISO day [new Date().toISOString()
      .slice(0, 10)]) and the text of the input field are inputs of the
      operations that read them. *)

From Stdlib Require Import List ZArith NArith Lia Bool Ascii String Floats.
From Stdlib Require Import DecimalN DecimalFacts Permutation.
Import ListNotations.

Set Warnings "-register-all".
Local Open Scope N_scope.

(** ** Strings *)

Definition jsstring := list N.

(** A source literal (ASCII) as a JavaScript string. *)
Definition lit (s : string) : jsstring :=
  map N_of_ascii (list_ascii_of_string s).

(** [a === b] on strings. *)
Fixpoint streq (a b : jsstring) : bool :=
  match a, b with
  | [], [] => true
  | x :: a', y :: b' => (x =? y) && streq a' b'
  | _, _ => false
  end.

(** [!s] on a string. *)
Definition isEmpty (s : jsstring) : bool :=
  match s with
  | [] => true
  | _ :: _ => false
  end.

(** [s.substring(a, b)]: the arguments are swapped when [a > b] and clamped
    to the length. *)
Definition substring (a b : nat) (s : jsstring) : jsstring :=
  firstn (Nat.max a b - Nat.min a b) (skipn (Nat.min a b) s).

(** WhiteSpace and LineTerminator code units, as [trim] removes them. *)
Definition isWhiteSpace (c : N) : bool :=
  existsb (N.eqb c)
    [9; 10; 11; 12; 13; 32; 160; 5760; 8232; 8233; 8239; 8287; 12288; 65279]
  || ((8192 <=? c) && (c <=? 8202)).

Fixpoint trimStart (s : jsstring) : jsstring :=
  match s with
  | [] => []
  | c :: r => if isWhiteSpace c then trimStart r else s
  end.

Definition trim (s : jsstring) : jsstring :=
  rev (trimStart (rev (trimStart s))).

(** ** Numbers *)

(** [Number.isSafeInteger]: an integer that a number holds exactly, and
    that [JSON.parse] reads and Number::toString prints digit for digit. *)
Definition isSafeInteger (z : Z) : bool :=
  (Z.abs z <=? 9007199254740991)%Z.

(** The integer a number holds in place of [z]: [z] itself up to 2^53 in
    magnitude; beyond, [z] rounded to 53 significant bits, to the nearest
    and to the even one of two nearest (below 2^1024). *)
Definition roundBinary64 (z : Z) : Z :=
  let a := Z.abs z in
  if (a <? 2 ^ 53)%Z then z
  else
    let s := (Z.log2 a - 52)%Z in
    let q := Z.shiftr a s in
    let r := (a - Z.shiftl q s)%Z in
    let half := Z.shiftl 1 (s - 1) in
    let q' := if (half <? r)%Z || ((r =? half)%Z && Z.odd q)
              then (q + 1)%Z else q in
    (Z.sgn z * Z.shiftl q' s)%Z.

(** [a + b] on two numbers that are integers. *)
Definition numberAdd (a b : Z) : Z := roundBinary64 (a + b).

(** Number::toString on an integer up to 2^53 - 1 in magnitude: plain
    decimal, with a sign. *)
Fixpoint uint_chars (d : Decimal.uint) : jsstring :=
  match d with
  | Decimal.Nil => []
  | Decimal.D0 d => 48 :: uint_chars d
  | Decimal.D1 d => 49 :: uint_chars d
  | Decimal.D2 d => 50 :: uint_chars d
  | Decimal.D3 d => 51 :: uint_chars d
  | Decimal.D4 d => 52 :: uint_chars d
  | Decimal.D5 d => 53 :: uint_chars d
  | Decimal.D6 d => 54 :: uint_chars d
  | Decimal.D7 d => 55 :: uint_chars d
  | Decimal.D8 d => 56 :: uint_chars d
  | Decimal.D9 d => 57 :: uint_chars d
  end.

Definition natToString (n : N) : jsstring := uint_chars (N.to_uint n).

Definition numberToString (z : Z) : jsstring :=
  if (z <? 0)%Z then 45 :: natToString (Z.to_N (- z))
  else natToString (Z.to_N z).

(** ** Completions

    A call completes normally, or throws; the state it changed before it
    threw stays changed.  [OutOfModel] marks the one place where the script
    goes on with values the typed records below cannot hold (a stored chain
    whose entries are not block records). *)

Inductive exn : Set :=
| TypeError
| RangeError
| SyntaxError
| URIError
| InvalidCharacterError.

Inductive outcome (A : Type) : Type :=
| Ok (a : A)
| Throw (e : exn)
| OutOfModel.

Arguments Ok {A} a.
Arguments Throw {A} e.
Arguments OutOfModel {A}.

Definition obind {A B} (c : outcome A) (k : A -> outcome B) : outcome B :=
  match c with
  | Ok a => k a
  | Throw e => Throw e
  | OutOfModel => OutOfModel
  end.

Declare Scope outcome_scope.
Delimit Scope outcome_scope with outcome.
Notation "'let*' x := c 'in' k" := (obind c (fun x => k))
  (at level 10, x name, c at level 100, k at level 200) : outcome_scope.
Local Open Scope outcome_scope.

(** [l.map(f)] with a callback that may throw. *)
Fixpoint omap {A B} (f : A -> outcome B) (l : list A) : outcome (list B) :=
  match l with
  | [] => Ok []
  | x :: r =>
      let* y := f x in
      let* ys := omap f r in
      Ok (y :: ys)
  end.

(** ** encodeURIComponent, unescape, btoa *)

Definition isHighSurrogate (u : N) : bool := (0xD800 <=? u) && (u <=? 0xDBFF).
Definition isLowSurrogate (u : N) : bool := (0xDC00 <=? u) && (u <=? 0xDFFF).

(** The UTF-8 octets of a code point. *)
Definition utf8 (cp : N) : list N :=
  if cp <? 0x80 then [cp]
  else if cp <? 0x800 then
    [N.lor 0xC0 (N.shiftr cp 6); N.lor 0x80 (N.land cp 0x3F)]
  else if cp <? 0x10000 then
    [N.lor 0xE0 (N.shiftr cp 12);
     N.lor 0x80 (N.land (N.shiftr cp 6) 0x3F);
     N.lor 0x80 (N.land cp 0x3F)]
  else
    [N.lor 0xF0 (N.shiftr cp 18);
     N.lor 0x80 (N.land (N.shiftr cp 12) 0x3F);
     N.lor 0x80 (N.land (N.shiftr cp 6) 0x3F);
     N.lor 0x80 (N.land cp 0x3F)].

(** uriUnescaped: letters, digits and the marks [-_.!~*'()]. *)
Definition uriUnescaped (c : N) : bool :=
  ((65 <=? c) && (c <=? 90)) || ((97 <=? c) && (c <=? 122))
  || ((48 <=? c) && (c <=? 57))
  || existsb (N.eqb c) (lit "-_.!~*'()").

Definition hexUpper (n : N) : N := if n <? 10 then 48 + n else 55 + n.
Definition hexLower (n : N) : N := if n <? 10 then 48 + n else 87 + n.

Definition percentOctet (b : N) : jsstring :=
  [37; hexUpper (N.shiftr b 4); hexUpper (N.land b 15)].

Definition surrogatePair (hi lo : N) : N :=
  (hi - 0xD800) * 0x400 + (lo - 0xDC00) + 0x10000.

Fixpoint encodeURIComponent (s : jsstring) : outcome jsstring :=
  match s with
  | [] => Ok []
  | u :: rest =>
      if uriUnescaped u then
        let* r := encodeURIComponent rest in
        Ok (u :: r)
      else if isLowSurrogate u then Throw URIError
      else if isHighSurrogate u then
        match rest with
        | [] => Throw URIError
        | v :: rest' =>
            if isLowSurrogate v then
              let* r := encodeURIComponent rest' in
              Ok (flat_map percentOctet (utf8 (surrogatePair u v)) ++ r)
            else Throw URIError
        end
      else
        let* r := encodeURIComponent rest in
        Ok (flat_map percentOctet (utf8 u) ++ r)
  end.

Definition hexValue (c : N) : option N :=
  if (48 <=? c) && (c <=? 57) then Some (c - 48)
  else if (65 <=? c) && (c <=? 70) then Some (c - 55)
  else if (97 <=? c) && (c <=? 102) then Some (c - 87)
  else None.

Fixpoint hexNumber (acc : N) (ds : jsstring) : option N :=
  match ds with
  | [] => Some acc
  | d :: r =>
      match hexValue d with
      | Some v => hexNumber (16 * acc + v) r
      | None => None
      end
  end.

(** [n] hexadecimal digits at the start of [s], as a number. *)
Definition hexAt (n : nat) (s : jsstring) : option N :=
  if (n <=? List.length s)%nat then hexNumber 0 (firstn n s) else None.

(** What [unescape] reads after a [%]: the unit decoded and how many of the
    units after the [%] it took.  [%uXXXX] is tried first, then [%XX]; as
    [u] is no hexadecimal digit, the second never applies after a [u]. *)
Definition unescapeAt (rest : jsstring) : option (N * nat) :=
  match rest with
  | [] => None
  | c :: r =>
      if c =? 117 then
        match hexAt 4 r with
        | Some v => Some (v, 5%nat)
        | None => None
        end
      else
        match hexAt 2 rest with
        | Some v => Some (v, 2%nat)
        | None => None
        end
  end.

Fixpoint unescapeFrom (skip : nat) (s : jsstring) : jsstring :=
  match s with
  | [] => []
  | c :: rest =>
      match skip with
      | S k => unescapeFrom k rest
      | O =>
          if c =? 37 then
            match unescapeAt rest with
            | Some (v, n) => v :: unescapeFrom n rest
            | None => c :: unescapeFrom 0 rest
            end
          else c :: unescapeFrom 0 rest
      end
  end.

Definition unescape (s : jsstring) : jsstring := unescapeFrom 0 s.

Definition base64Char (n : N) : N :=
  if n <? 26 then 65 + n
  else if n <? 52 then 71 + n
  else if n <? 62 then n - 4
  else if n =? 62 then 43
  else 47.

Fixpoint base64 (s : list N) : jsstring :=
  match s with
  | [] => []
  | [a] =>
      [base64Char (N.shiftr a 2);
       base64Char (N.shiftl (N.land a 3) 4); 61; 61]
  | [a; b] =>
      [base64Char (N.shiftr a 2);
       base64Char (N.lor (N.shiftl (N.land a 3) 4) (N.shiftr b 4));
       base64Char (N.shiftl (N.land b 15) 2); 61]
  | a :: b :: c :: rest =>
      base64Char (N.shiftr a 2)
      :: base64Char (N.lor (N.shiftl (N.land a 3) 4) (N.shiftr b 4))
      :: base64Char (N.lor (N.shiftl (N.land b 15) 2) (N.shiftr c 6))
      :: base64Char (N.land c 63)
      :: base64 rest
  end.

Definition btoa (s : jsstring) : outcome jsstring :=
  if forallb (fun c => c <=? 255) s then Ok (base64 s)
  else Throw InvalidCharacterError.

(** ** JSON

    [JSON.stringify] is written at the types the script calls it on (a
    payload, a block, the chain); [JSON.parse] is the whole grammar. *)

Definition ch (a : ascii) : N := N_of_ascii a.
Definition dquote : N := 34.
Definition backslash : N := 92.

Definition unicodeEscape (u : N) : jsstring :=
  [backslash; ch "u";
   hexLower (N.land (N.shiftr u 12) 15); hexLower (N.land (N.shiftr u 8) 15);
   hexLower (N.land (N.shiftr u 4) 15); hexLower (N.land u 15)].

(** QuoteJSONString on one code unit that is not a surrogate. *)
Definition quoteUnit (u : N) : jsstring :=
  if u =? 8 then [backslash; ch "b"]
  else if u =? 9 then [backslash; ch "t"]
  else if u =? 10 then [backslash; ch "n"]
  else if u =? 12 then [backslash; ch "f"]
  else if u =? 13 then [backslash; ch "r"]
  else if u =? dquote then [backslash; dquote]
  else if u =? backslash then [backslash; backslash]
  else if u <? 32 then unicodeEscape u
  else [u].

(** A surrogate pair is copied; a lone surrogate is escaped. *)
Fixpoint quoteChars (s : jsstring) : jsstring :=
  match s with
  | [] => []
  | u :: rest =>
      if isHighSurrogate u then
        match rest with
        | v :: rest' =>
            if isLowSurrogate v then u :: v :: quoteChars rest'
            else unicodeEscape u ++ quoteChars rest
        | [] => unicodeEscape u
        end
      else if isLowSurrogate u then unicodeEscape u ++ quoteChars rest
      else quoteUnit u ++ quoteChars rest
  end.

Definition quoteJSONString (s : jsstring) : jsstring :=
  dquote :: quoteChars s ++ [dquote].

(** One [key:value] member of a serialized object. *)
Definition member (key : string) (value : jsstring) : jsstring :=
  quoteJSONString (lit key) ++ ch ":" :: value.

Fixpoint joinComma (l : list jsstring) : jsstring :=
  match l with
  | [] => []
  | [x] => x
  | x :: r => x ++ ch "," :: joinComma r
  end.

Definition serializeObject (members : list jsstring) : jsstring :=
  ch "{" :: joinComma members ++ [ch "}"].

Definition serializeArray (elements : list jsstring) : jsstring :=
  ch "[" :: joinComma elements ++ [ch "]"].

Inductive json : Type :=
| JNull
| JBool (b : bool)
| JNum (z : Z)               (* a number written as a plain integer *)
| JFrac (literal : jsstring) (* a number with a fraction or an exponent *)
| JStr (s : jsstring)
| JArr (elements : list json)
| JObj (members : list (jsstring * json)).

Definition isJSONSpace (c : N) : bool :=
  (c =? 9) || (c =? 10) || (c =? 13) || (c =? 32).

Fixpoint skipSpace (s : jsstring) : jsstring :=
  match s with
  | [] => []
  | c :: r => if isJSONSpace c then skipSpace r else s
  end.

Definition simpleEscape (e : N) : option N :=
  if e =? dquote then Some dquote
  else if e =? backslash then Some backslash
  else if e =? ch "/" then Some (ch "/")
  else if e =? ch "b" then Some 8
  else if e =? ch "f" then Some 12
  else if e =? ch "n" then Some 10
  else if e =? ch "r" then Some 13
  else if e =? ch "t" then Some 9
  else None.

Definition consFst (c : N) (r : option (jsstring * jsstring))
  : option (jsstring * jsstring) :=
  match r with
  | Some (str, rest) => Some (c :: str, rest)
  | None => None
  end.

(** The characters of a string literal after its opening quote, up to and
    including the closing quote. *)
Fixpoint parseStringBody (s : jsstring) : option (jsstring * jsstring) :=
  match s with
  | [] => None
  | c :: r =>
      if c =? dquote then Some ([], r)
      else if c =? backslash then
        match r with
        | [] => None
        | e :: r1 =>
            if e =? ch "u" then
              match r1 with
              | a :: b :: c' :: d :: r2 =>
                  match hexNumber 0 [a; b; c'; d] with
                  | Some v => consFst v (parseStringBody r2)
                  | None => None
                  end
              | _ => None
              end
            else
              match simpleEscape e with
              | Some v => consFst v (parseStringBody r1)
              | None => None
              end
        end
      else if c <? 32 then None
      else consFst c (parseStringBody r)
  end.

Definition isDigit (c : N) : bool := (48 <=? c) && (c <=? 57).

Fixpoint takeDigits (s : jsstring) : jsstring * jsstring :=
  match s with
  | [] => ([], [])
  | c :: r =>
      if isDigit c then let (ds, rest) := takeDigits r in (c :: ds, rest)
      else ([], s)
  end.

(** A run of digits read as a decimal numeral. *)
Fixpoint digitsOf (ds : jsstring) : Decimal.uint :=
  match ds with
  | [] => Decimal.Nil
  | c :: r =>
      (if c =? 48 then Decimal.D0 else if c =? 49 then Decimal.D1
       else if c =? 50 then Decimal.D2 else if c =? 51 then Decimal.D3
       else if c =? 52 then Decimal.D4 else if c =? 53 then Decimal.D5
       else if c =? 54 then Decimal.D6 else if c =? 55 then Decimal.D7
       else if c =? 56 then Decimal.D8 else Decimal.D9) (digitsOf r)
  end.

Definition digitsValue (ds : jsstring) : N := N.of_uint (digitsOf ds).

Definition startsWith (p : N -> bool) (s : jsstring) : bool :=
  match s with
  | [] => false
  | c :: _ => p c
  end.

(** [. digits], when present. *)
Definition parseFraction (s : jsstring) : option (jsstring * jsstring) :=
  if startsWith (N.eqb 46) s then
    match takeDigits (tl s) with
    | ([], _) => None
    | (ds, rest) => Some (46 :: ds, rest)
    end
  else Some ([], s).

(** [e] or [E], an optional sign, digits, when present. *)
Definition parseExponent (s : jsstring) : option (jsstring * jsstring) :=
  if startsWith (fun c => (c =? ch "e") || (c =? ch "E")) s then
    let r := tl s in
    let signed := startsWith (fun g => (g =? ch "+") || (g =? ch "-")) r in
    match takeDigits (if signed then tl r else r) with
    | ([], _) => None
    | (ds, rest) =>
        Some (firstn 1 s ++ (if signed then firstn 1 r else []) ++ ds, rest)
    end
  else Some ([], s).

(** A number after its sign.  A literal of digits alone is read as the
    integer it writes: the number [JSON.parse] gives when that integer is
    [isSafeInteger]. *)
Definition parseUnsigned (neg : bool) (s : jsstring)
  : option (json * jsstring) :=
  match takeDigits s with
  | ([], _) => None
  | (d :: ds, s2) =>
      if (d =? 48) && negb (isEmpty ds) then None
      else
        match parseFraction s2 with
        | None => None
        | Some (frac, s3) =>
            match parseExponent s3 with
            | None => None
            | Some (expo, s4) =>
                if isEmpty frac && isEmpty expo then
                  let n := Z.of_N (digitsValue (d :: ds)) in
                  Some (JNum (if neg then (- n)%Z else n), s4)
                else
                  Some (JFrac ((if neg then [45] else [])
                               ++ d :: ds ++ frac ++ expo), s4)
            end
        end
  end.

Definition parseNumber (s : jsstring) : option (json * jsstring) :=
  if startsWith (N.eqb 45) s then parseUnsigned true (tl s)
  else parseUnsigned false s.

(** [s] starts with the units of [w]; what follows them. *)
Fixpoint stripPrefix (w s : jsstring) : option jsstring :=
  match w, s with
  | [], _ => Some s
  | x :: w', y :: s' => if x =? y then stripPrefix w' s' else None
  | _ :: _, [] => None
  end.

Definition parseLiteral (s : jsstring) : option (json * jsstring) :=
  match stripPrefix (lit "true") s with
  | Some r => Some (JBool true, r)
  | None =>
  match stripPrefix (lit "false") s with
  | Some r => Some (JBool false, r)
  | None =>
  match stripPrefix (lit "null") s with
  | Some r => Some (JNull, r)
  | None => parseNumber s
  end end end.

(** [s] starts with the unit [c]. *)
Definition headIs (c : N) (s : jsstring) : bool := startsWith (N.eqb c) s.

(** Recursive descent; every call spends one unit of [fuel]. *)
Fixpoint parseValue (fuel : nat) (s : jsstring) : option (json * jsstring) :=
  match fuel with
  | O => None
  | S fuel' =>
      let t := skipSpace s in
      if headIs dquote t then
        match parseStringBody (tl t) with
        | Some (str, r) => Some (JStr str, r)
        | None => None
        end
      else if headIs (ch "[") t then
        if headIs (ch "]") (skipSpace (tl t))
        then Some (JArr [], tl (skipSpace (tl t)))
        else
          match parseElements fuel' (tl t) with
          | Some (vs, r) => Some (JArr vs, r)
          | None => None
          end
      else if headIs (ch "{") t then
        if headIs (ch "}") (skipSpace (tl t))
        then Some (JObj [], tl (skipSpace (tl t)))
        else
          match parseMembers fuel' (tl t) with
          | Some (ms, r) => Some (JObj ms, r)
          | None => None
          end
      else parseLiteral t
  end

with parseElements (fuel : nat) (s : jsstring)
  : option (list json * jsstring) :=
  match fuel with
  | O => None
  | S fuel' =>
      match parseValue fuel' s with
      | None => None
      | Some (v, r) =>
          let t := skipSpace r in
          if headIs (ch ",") t then
            match parseElements fuel' (tl t) with
            | Some (vs, r') => Some (v :: vs, r')
            | None => None
            end
          else if headIs (ch "]") t then Some ([v], tl t)
          else None
      end
  end

with parseMembers (fuel : nat) (s : jsstring)
  : option (list (jsstring * json) * jsstring) :=
  match fuel with
  | O => None
  | S fuel' =>
      let t := skipSpace s in
      if headIs dquote t then
        match parseStringBody (tl t) with
        | None => None
        | Some (key, r1) =>
            let t1 := skipSpace r1 in
            if headIs (ch ":") t1 then
              match parseValue fuel' (tl t1) with
              | None => None
              | Some (v, r3) =>
                  let t3 := skipSpace r3 in
                  if headIs (ch ",") t3 then
                    match parseMembers fuel' (tl t3) with
                    | Some (ms, r5) => Some ((key, v) :: ms, r5)
                    | None => None
                    end
                  else if headIs (ch "}") t3 then Some ([(key, v)], tl t3)
                  else None
              end
            else None
        end
      else None
  end.

(** [JSON.parse(text)]; [None] is the SyntaxError.  A text of [n] units
    never needs more than [2 * n + 2] nested calls ([parseValue_adequate]
    below). *)
Definition JSON_parse (text : jsstring) : option json :=
  match parseValue (2 * List.length text + 2) text with
  | Some (v, rest) =>
      match skipSpace rest with
      | [] => Some v
      | _ :: _ => None
      end
  | None => None
  end.

(** [o.k] on a parsed object: the last member written with that key. *)
Fixpoint getProp (k : jsstring) (members : list (jsstring * json))
  : option json :=
  match members with
  | [] => None
  | (k', v) :: r =>
      match getProp k r with
      | Some v' => Some v'
      | None => if streq k k' then Some v else None
      end
  end.

(** ** Block *)

(** [{ studentId: ..., status: ..., date: ... }] *)
Record AttendanceData : Type := {
  studentId : jsstring;
  status : jsstring;
  date : jsstring
}.

Record Block : Type := {
  index : Z;
  timestamp : Z;
  data : AttendanceData;
  previousHash : jsstring;
  hash : jsstring
}.

(** [JSON.stringify(this.data)] *)
Definition stringifyData (d : AttendanceData) : jsstring :=
  serializeObject
    [member "studentId" (quoteJSONString (studentId d));
     member "status" (quoteJSONString (status d));
     member "date" (quoteJSONString (date d))].

(** A block serializes its own properties in the order the constructor
    assigned them. *)
Definition stringifyBlock (b : Block) : jsstring :=
  serializeObject
    [member "index" (numberToString (index b));
     member "timestamp" (numberToString (timestamp b));
     member "data" (stringifyData (data b));
     member "previousHash" (quoteJSONString (previousHash b));
     member "hash" (quoteJSONString (hash b))].

(** [JSON.stringify(this.chain)] *)
Definition stringifyChain (c : list Block) : jsstring :=
  serializeArray (map stringifyBlock c).

(** [calculateHash()] on the four fields it reads. *)
Definition calculateHashOf (i : Z) (prev : jsstring) (ts : Z)
    (d : AttendanceData) : outcome jsstring :=
  let* escaped :=
    encodeURIComponent
      (numberToString i ++ prev ++ numberToString ts ++ stringifyData d) in
  let* encoded := btoa (unescape escaped) in
  Ok (substring 0 64 encoded).

Definition calculateHash (b : Block) : outcome jsstring :=
  calculateHashOf (index b) (previousHash b) (timestamp b) (data b).

(** [new Block(index, timestamp, data, previousHash)] *)
Definition newBlock (i : Z) (ts : Z) (d : AttendanceData) (prev : jsstring)
  : outcome Block :=
  let* h := calculateHashOf i prev ts d in
  Ok {| index := i; timestamp := ts; data := d;
        previousHash := prev; hash := h |}.

(** [block.hash = h] *)
Definition setHash (b : Block) (h : jsstring) : Block :=
  {| index := index b; timestamp := timestamp b; data := data b;
     previousHash := previousHash b; hash := h |}.

(** [block.data = d], an assignment the script never makes; the tamper
    properties speak of it. *)
Definition setData (b : Block) (d : AttendanceData) : Block :=
  {| index := index b; timestamp := timestamp b; data := d;
     previousHash := previousHash b; hash := hash b |}.

Definition setTimestamp (b : Block) (ts : Z) : Block :=
  {| index := index b; timestamp := ts; data := data b;
     previousHash := previousHash b; hash := hash b |}.

(** ** The page: the ledger object, the store and the elements written to *)

Inductive MessageKind : Set := success | error | info.

Record Message : Type := {
  messageText : jsstring;
  messageKind : MessageKind
}.

(** The text of the five summary elements. *)
Record Summary : Type := {
  totalDaysText : jsstring;
  presentDaysText : jsstring;
  absentDaysText : jsstring;
  attendancePercentageText : jsstring;
  eligibilityStatusText : jsstring
}.

(** One card of the chain display: the block shown and whether its hash
    still matches. *)
Record Card : Type := {
  cardBlock : Block;
  cardValid : bool
}.

Record World : Type := {
  chain : list Block;                (* attendanceBlockchain.chain *)
  localStorage : option jsstring;    (* the item 'attendanceBlockchain' *)
  console : list jsstring;           (* console.error lines, oldest first *)
  messageBox : option Message;       (* None while nothing was shown *)
  summary : option Summary;          (* None before the first update *)
  blockchainDisplay : list Card;    (* the cards appended to the display *)
  noBlocksMessageAttached : bool     (* 'noBlocksMessage' is in the document *)
}.

Definition setChain (c : list Block) (w : World) : World :=
  {| chain := c; localStorage := localStorage w; console := console w;
     messageBox := messageBox w; summary := summary w;
     blockchainDisplay := blockchainDisplay w;
     noBlocksMessageAttached := noBlocksMessageAttached w |}.

Definition setLocalStorage (s : option jsstring) (w : World) : World :=
  {| chain := chain w; localStorage := s; console := console w;
     messageBox := messageBox w; summary := summary w;
     blockchainDisplay := blockchainDisplay w;
     noBlocksMessageAttached := noBlocksMessageAttached w |}.

Definition logError (line : jsstring) (w : World) : World :=
  {| chain := chain w; localStorage := localStorage w;
     console := console w ++ [line];
     messageBox := messageBox w; summary := summary w;
     blockchainDisplay := blockchainDisplay w;
     noBlocksMessageAttached := noBlocksMessageAttached w |}.

Definition setMessageBox (m : Message) (w : World) : World :=
  {| chain := chain w; localStorage := localStorage w; console := console w;
     messageBox := Some m; summary := summary w;
     blockchainDisplay := blockchainDisplay w;
     noBlocksMessageAttached := noBlocksMessageAttached w |}.

Definition setSummary (s : Summary) (w : World) : World :=
  {| chain := chain w; localStorage := localStorage w; console := console w;
     messageBox := messageBox w; summary := Some s;
     blockchainDisplay := blockchainDisplay w;
     noBlocksMessageAttached := noBlocksMessageAttached w |}.

(** [blockchainDisplay.innerHTML = '']: the cards go, and so does the
    'noBlocksMessage' paragraph, a child of the display, with whatever
    else the cards had brought into the document. *)
Definition clearDisplay (w : World) : World :=
  {| chain := chain w; localStorage := localStorage w; console := console w;
     messageBox := messageBox w; summary := summary w;
     blockchainDisplay := [];
     noBlocksMessageAttached := false |}.

(** No [<] in the string: written into [innerHTML] where text stands, it
    is text and makes no element. *)
Definition markupFree (s : jsstring) : bool :=
  forallb (fun u => negb (u =? 60)) s.

(** The strings of a block that the card template takes as they are
    ([studentId], [status] in upper case, the first 20 characters of the
    two hashes) hold no [<].  The index and the day of the timestamp are
    written as a number and a date. *)
Definition drawnAsText (b : Block) : bool :=
  markupFree (studentId (data b)) && markupFree (status (data b))
  && markupFree (substring 0 20 (previousHash b))
  && markupFree (substring 0 20 (hash b)).

(** [blockchainDisplay.appendChild(blockCard)].  The card of a block that
    is [drawnAsText] brings the elements of the template and no other, so
    what [getElementById('noBlocksMessage')] finds is as before.  A string
    with markup in it could bring an element of that name; the properties
    that speak of the element after a card was drawn are stated for
    blocks that are [drawnAsText]. *)
Definition appendCard (c : Card) (w : World) : World :=
  {| chain := chain w; localStorage := localStorage w; console := console w;
     messageBox := messageBox w; summary := summary w;
     blockchainDisplay := blockchainDisplay w ++ [c];
     noBlocksMessageAttached := noBlocksMessageAttached w |}.

(** A computation on the page: its completion and the page it leaves. *)
Definition M (A : Type) : Type := World -> outcome A * World.

Definition ret {A} (a : A) : M A := fun w => (Ok a, w).

Definition bind {A B} (c : M A) (k : A -> M B) : M B :=
  fun w =>
    match c w with
    | (Ok a, w') => k a w'
    | (Throw e, w') => (Throw e, w')
    | (OutOfModel, w') => (OutOfModel, w')
    end.

Definition lift {A} (o : outcome A) : M A := fun w => (o, w).
Definition gets {A} (f : World -> A) : M A := fun w => (Ok (f w), w).
Definition modify (f : World -> World) : M unit := fun w => (Ok tt, f w).

Declare Scope page_scope.
Delimit Scope page_scope with page.
Notation "x <- c ;; k" := (bind c (fun x => k))
  (at level 61, c at next level, right associativity) : page_scope.
Notation "c ;; k" := (bind c (fun _ => k))
  (at level 61, right associativity) : page_scope.

Local Open Scope page_scope.

(** ** Blockchain *)

(** [createGenesisBlock()] when the clock reads [now]. *)
Definition genesisData : AttendanceData :=
  {| studentId := lit "N/A"; status := lit "Genesis Block";
     date := lit "N/A" |}.

Definition createGenesisBlock (now : Z) : outcome Block :=
  newBlock 0 now genesisData (lit "0").

(** [this.chain[this.chain.length - 1]]; [None] is [undefined]. *)
Definition getLatestBlock (c : list Block) : option Block :=
  nth_error c (List.length c - 1).

(** [saveChain()]; the store takes the write. *)
Definition saveChain : M unit :=
  fun w => (Ok tt, setLocalStorage (Some (stringifyChain (chain w))) w).

(** The length no array goes beyond: 2^32 - 1. *)
Definition arrayMaxLength : Z := 4294967295.

(** [this.chain.push(block)]; on an array of 2^32 - 1 elements it throws
    a RangeError and the array keeps its length. *)
Definition push (block : Block) : M unit :=
  fun w =>
    if (arrayMaxLength <=? Z.of_nat (List.length (chain w)))%Z
    then (Throw RangeError, w)
    else (Ok tt, setChain (chain w ++ [block]) w).

(** [addBlock(data)] when the clock reads [now]. *)
Definition addBlock (now : Z) (d : AttendanceData) : M unit :=
  latest <- gets (fun w => getLatestBlock (chain w)) ;;
  match latest with
  | None => lift (Throw TypeError)
  | Some latestBlock =>
      newBlock' <-
        lift (newBlock (numberAdd (index latestBlock) 1) now d
                (hash latestBlock)) ;;
      push newBlock' ;;
      saveChain
  end.

Definition hashMismatchLine (i : nat) : jsstring :=
  lit "Block " ++ numberToString (Z.of_nat i)
  ++ lit " has been tampered with! Hash mismatch.".

Definition linkMismatchLine (i : nat) : jsstring :=
  lit "Block " ++ numberToString (Z.of_nat i)
  ++ lit " does not point to the correct previous block's hash.".

(** The loop of [isChainValid] from index [i] on: [previousBlock] is
    [chain[i - 1]] and [rest] the blocks from [chain[i]] on. *)
Fixpoint isChainValidFrom (i : nat) (previousBlock : Block)
    (rest : list Block) : M bool :=
  match rest with
  | [] => ret true
  | currentBlock :: rest' =>
      h <- lift (calculateHash currentBlock) ;;
      if negb (streq (hash currentBlock) h) then
        modify (logError (hashMismatchLine i)) ;; ret false
      else if negb (streq (previousHash currentBlock) (hash previousBlock))
      then
        modify (logError (linkMismatchLine i)) ;; ret false
      else isChainValidFrom (S i) currentBlock rest'
  end.

Definition isChainValid : M bool :=
  fun w =>
    match chain w with
    | [] => (Ok true, w)
    | genesis :: rest => isChainValidFrom 1 genesis rest w
    end.

(** [blockData.data] when it is a payload as the script writes them. *)
Definition dataOfJSON (v : json) : option AttendanceData :=
  match v with
  | JObj [(k1, JStr a); (k2, JStr b); (k3, JStr c)] =>
      if streq k1 (lit "studentId") && streq k2 (lit "status")
         && streq k3 (lit "date")
      then Some {| studentId := a; status := b; date := c |}
      else None
  | _ => None
  end.

(** [blockData.previousHash] as the constructor takes it: the default
    [''] stands in for a property that is not there. *)
Definition previousHashOf (ms : list (jsstring * json)) : option jsstring :=
  match getProp (lit "previousHash") ms with
  | None => Some []
  | Some (JStr prev) => Some prev
  | Some _ => None
  end.

(** The callback of [parsedChain.map].  Reading a property of [null]
    throws; an entry that is not a record of an integer index, an integer
    timestamp, a payload and two strings is left to [OutOfModel]. *)
Definition rebuildBlock (blockData : json) : outcome Block :=
  match blockData with
  | JNull => Throw TypeError
  | JObj ms =>
      match getProp (lit "index") ms, getProp (lit "timestamp") ms,
            getProp (lit "data") ms, previousHashOf ms,
            getProp (lit "hash") ms with
      | Some (JNum i), Some (JNum ts), Some d, Some prev, Some (JStr h) =>
          match dataOfJSON d with
          | Some d' =>
              let* block := newBlock i ts d' prev in
              Ok (setHash block h)
          | None => OutOfModel
          end
      | _, _, _, _, _ => OutOfModel
      end
  | _ => OutOfModel
  end.

(** What [JSON.parse] makes of a serialized payload and block. *)
Definition dataJSON (d : AttendanceData) : json :=
  JObj [(lit "studentId", JStr (studentId d));
        (lit "status", JStr (status d));
        (lit "date", JStr (date d))].

Definition blockJSON (b : Block) : json :=
  JObj [(lit "index", JNum (index b));
        (lit "timestamp", JNum (timestamp b));
        (lit "data", dataJSON (data b));
        (lit "previousHash", JStr (previousHash b));
        (lit "hash", JStr (hash b))].

(** [loadChain()] on the content of the store: [Ok None] is [null]. *)
Definition loadChain (storedChain : option jsstring)
  : outcome (option (list Block)) :=
  match storedChain with
  | None => Ok None
  | Some text =>
      if isEmpty text then Ok None
      else
        match JSON_parse text with
        | None => Throw SyntaxError
        | Some (JArr parsedChain) =>
            let* c := omap rebuildBlock parsedChain in
            Ok (Some c)
        | Some _ => Throw TypeError
        end
  end.

(** [new Blockchain()]: [this.chain = this.loadChain() ||
    [this.createGenesisBlock()]]; an array, even an empty one, is truthy. *)
Definition newBlockchain (now : Z) (storedChain : option jsstring)
  : outcome (list Block) :=
  let* loaded := loadChain storedChain in
  match loaded with
  | Some c => Ok c
  | None =>
      let* g := createGenesisBlock now in
      Ok [g]
  end.

(** A page that shows nothing yet: the elements are as the document has
    them. *)
Definition blankPage (c : list Block) (stored : option jsstring) : World :=
  {| chain := c; localStorage := stored; console := [];
     messageBox := None; summary := None;
     blockchainDisplay := []; noBlocksMessageAttached := true |}.

(** The page once the script has run to its end: the ledger is built and
    nothing is displayed yet.  When the constructor throws the script stops
    there and no handler is ever attached. *)
Definition boot (now : Z) (storedChain : option jsstring) : outcome World :=
  let* c := newBlockchain now storedChain in
  Ok (blankPage c storedChain).

(** [clearChain()] when the clock reads [now]. *)
Definition clearChain (now : Z) : M unit :=
  modify (setLocalStorage None) ;;
  g <- lift (createGenesisBlock now) ;;
  modify (setChain [g]) ;;
  saveChain.

(** ** The summary *)

(** A count as a JavaScript number (exact below 2^53). *)
Definition numberOfNat (n : nat) : float :=
  PrimFloat.of_uint63 (Uint63.of_Z (Z.of_nat n)).

(** The decimal digits of [n] with a point before the last [digits] of
    them, zero-padded to at least one digit before the point. *)
Definition fixedDigits (digits : nat) (n : N) : jsstring :=
  let m := natToString n in
  let m' := repeat 48 (S digits - List.length m) ++ m in
  match digits with
  | O => m'
  | S _ =>
      firstn (List.length m' - digits) m'
      ++ ch "." :: skipn (List.length m' - digits) m'
  end.

(** The integer nearest to [m * 2^e * 10^digits], the larger of two. *)
Definition roundScaled (digits : nat) (m : positive) (e : Z) : N :=
  let scaled := (Z.pos m * 10 ^ Z.of_nat digits)%Z in
  Z.to_N (if (0 <=? e)%Z then scaled * 2 ^ e
          else (2 * scaled + 2 ^ (- e)) / 2 ^ (1 - e))%Z.

(** [m * 2^e >= 10^21] *)
Definition atLeast1e21 (m : positive) (e : Z) : bool :=
  (if 0 <=? e then 10 ^ 21 <=? Z.pos m * 2 ^ e
   else 10 ^ 21 * 2 ^ (- e) <=? Z.pos m)%Z.

(** [x.toFixed(digits)]; [None] from 10^21 on, where the result is
    Number::toString of a number that is not printed in plain decimal. *)
Definition toFixed (digits : nat) (x : float) : option jsstring :=
  match Prim2SF x with
  | S754_nan => Some (lit "NaN")
  | S754_infinity false => Some (lit "Infinity")
  | S754_infinity true => Some (lit "-Infinity")
  | S754_zero _ => Some (fixedDigits digits 0)
  | S754_finite s m e =>
      if atLeast1e21 m e then None
      else Some ((if s then [ch "-"] else [])
                 ++ fixedDigits digits (roundScaled digits m e))
  end.

(** The counter of the [forEach] loop. *)
Definition countPresent (blocks : list Block) : nat :=
  fold_left
    (fun presentDays block =>
       if streq (status (data block)) (lit "present") then S presentDays
       else presentDays)
    blocks 0%nat.

Definition attendancePercentageOf (presentDays totalDays : nat) : float :=
  if (0 <? totalDays)%nat
  then (numberOfNat presentDays / numberOfNat totalDays * 100)%float
  else 0%float.

Definition eligibilityText (totalDays : nat) (isEligible : bool) : jsstring :=
  if (totalDays =? 0)%nat then lit "N/A"
  else if isEligible then lit "Eligible!"
  else lit "Not Eligible".

(** [updateAttendanceSummary()] *)
Definition updateAttendanceSummary : M unit :=
  fun w =>
    let blocks := skipn 1 (chain w) in
    let totalDays := List.length blocks in
    let presentDays := countPresent blocks in
    let absentDays := (totalDays - presentDays)%nat in
    let attendancePercentage :=
      attendancePercentageOf presentDays totalDays in
    let isEligible := (85 <=? attendancePercentage)%float in
    match toFixed 2 attendancePercentage with
    | None => (OutOfModel, w)
    | Some shown =>
        (Ok tt,
         setSummary
           {| totalDaysText := numberToString (Z.of_nat totalDays);
              presentDaysText := numberToString (Z.of_nat presentDays);
              absentDaysText := numberToString (Z.of_nat absentDays);
              attendancePercentageText := shown ++ lit "%";
              eligibilityStatusText := eligibilityText totalDays isEligible |}
           w)
    end.

(** ** Messages and the chain display *)

(** [showMessage(message, type)]; the box hides itself three seconds
    later, which changes none of the fields kept here. *)
Definition showMessage (message type : jsstring) : M unit :=
  modify (setMessageBox
            {| messageText := message;
               messageKind :=
                 if streq type (lit "success") then success
                 else if streq type (lit "error") then error
                 else info |}).

Fixpoint renderCards (blocks : list Block) : M unit :=
  match blocks with
  | [] => ret tt
  | block :: rest =>
      h <- lift (calculateHash block) ;;
      modify (appendCard {| cardBlock := block;
                            cardValid := streq (hash block) h |}) ;;
      renderCards rest
  end.

(** [renderBlockchain()] *)
Definition renderBlockchain : M unit :=
  attached <- gets noBlocksMessageAttached ;;
  if negb attached then
    modify (logError (lit "DOM elements not found: blockchainDisplay or noBlocksMessage. Skipping render."))
  else
    modify clearDisplay ;;
    blocks <- gets (fun w => skipn 1 (chain w)) ;;
    renderCards blocks ;;
    valid <- isChainValid ;;
    if negb valid then
      showMessage
        (lit "Warning: The blockchain has been tampered with! Data integrity compromised.")
        (lit "error")
    else ret tt.

(** ** The click handlers *)

(** The handler of a mark button from the duplicate check on: [sid] is the
    trimmed, non-empty input, [today] the ISO day, [now] the clock at the
    append.  [statusValue] is ['present'] or ['absent'] and [label] the word
    of the success message. *)
Definition recordAttendance (statusValue label : string)
    (sid today : jsstring) (now : Z) : M unit :=
  existing <-
    gets (fun w =>
            find (fun block =>
                    streq (date (data block)) today
                    && streq (studentId (data block)) sid)
                 (chain w)) ;;
  match existing with
  | Some existingAttendance =>
      showMessage
        (lit "Attendance for Student ID " ++ sid ++ lit " on today ("
         ++ today ++ lit ") has already been marked as "
         ++ status (data existingAttendance) ++ lit ".")
        (lit "info")
  | None =>
      addBlock now {| studentId := sid; status := lit statusValue;
                      date := today |} ;;
      updateAttendanceSummary ;;
      renderBlockchain ;;
      showMessage
        (lit "Attendance marked as " ++ lit label ++ lit " for Student ID: "
         ++ sid ++ lit "!")
        (lit "success")
  end.

Definition markButtonClick (statusValue label : string)
    (input today : jsstring) (now : Z) : M unit :=
  let sid := trim input in
  if isEmpty sid then
    showMessage (lit "Please enter a Student ID to mark attendance.")
                (lit "error")
  else recordAttendance statusValue label sid today now.

Definition markPresentBtnClick : jsstring -> jsstring -> Z -> M unit :=
  markButtonClick "present" "Present".

Definition markAbsentBtnClick : jsstring -> jsstring -> Z -> M unit :=
  markButtonClick "absent" "Absent".

(** The script's own [confirm] returns a promise, a truthy value: the
    handler clears the data without waiting for the answer. *)
Definition clearDataBtnClick (now : Z) : M unit :=
  clearChain now ;;
  updateAttendanceSummary ;;
  renderBlockchain ;;
  showMessage (lit "All attendance data cleared!") (lit "success").

(** [window.onload] *)
Definition windowOnload : M unit :=
  updateAttendanceSummary ;;
  renderBlockchain.

(** What the user can do to the page. *)
Inductive Event : Type :=
| MarkPresent (input today : jsstring) (now : Z)
| MarkAbsent (input today : jsstring) (now : Z)
| ClearData (now : Z).

Definition handle (e : Event) : M unit :=
  match e with
  | MarkPresent input today now => markPresentBtnClick input today now
  | MarkAbsent input today now => markAbsentBtnClick input today now
  | ClearData now => clearDataBtnClick now
  end.

(** The pages a user can reach from a store that holds no chain. *)
Inductive reachable : World -> Prop :=
| reachable_boot : forall now w,
    boot now None = Ok w -> reachable w
| reachable_load : forall w,
    reachable w -> reachable (snd (windowOnload w))
| reachable_event : forall w e,
    reachable w -> reachable (snd (handle e w)).

(** The ledgers made by appends and resets alone, from a fresh one. *)
Inductive produced : World -> Prop :=
| produced_fresh : forall now w,
    boot now None = Ok w -> produced w
| produced_append : forall w now d,
    produced w -> produced (snd (addBlock now d w))
| produced_reset : forall w now,
    produced w -> produced (snd (clearChain now w)).

(** ** Notions the properties are stated with *)

(** Every unit is below 2^16. *)
Definition codeUnits (s : jsstring) : bool :=
  forallb (fun u => u <? 0x10000) s.

Definition isAscii (s : jsstring) : bool :=
  forallb (fun u => u <? 0x80) s.

(** Well-formed UTF-16: code units, every surrogate in a pair. *)
Fixpoint wellFormed (s : jsstring) : bool :=
  match s with
  | [] => true
  | u :: rest =>
      if isLowSurrogate u then false
      else if isHighSurrogate u then
        match rest with
        | [] => false
        | v :: rest' => isLowSurrogate v && wellFormed rest'
        end
      else (u <? 0x10000) && wellFormed rest
  end.

(** The UTF-8 octets of a well-formed string. *)
Fixpoint utf8String (s : jsstring) : list N :=
  match s with
  | [] => []
  | u :: rest =>
      if isHighSurrogate u then
        match rest with
        | [] => utf8 u
        | v :: rest' =>
            if isLowSurrogate v
            then utf8 (surrogatePair u v) ++ utf8String rest'
            else utf8 u ++ utf8String rest
        end
      else utf8 u ++ utf8String rest
  end.

Definition codeUnitsData (d : AttendanceData) : bool :=
  codeUnits (studentId d) && codeUnits (status d) && codeUnits (date d).

(** Every block carries the hash its fields give. *)
Definition sealed (b : Block) : Prop := calculateHash b = Ok (hash b).

(** [chain[k] = f(chain[k])], an assignment made from outside the script:
    the record at [k] is changed and no hash is recomputed. *)
Fixpoint tamper (k : nat) (f : Block -> Block) (c : list Block)
  : list Block :=
  match c, k with
  | [], _ => []
  | b :: rest, O => f b :: rest
  | b :: rest, S k' => b :: tamper k' f rest
  end.

(** The subject and the day of a record. *)
Definition keyOf (b : Block) : jsstring * jsstring :=
  (studentId (data b), date (data b)).

(** At most one entry per subject per day among the records after the
    genesis record. *)
Definition uniquePerDay (c : list Block) : Prop :=
  forall i j bi bj,
    (1 <= i)%nat -> (1 <= j)%nat -> i <> j ->
    nth_error c i = Some bi -> nth_error c j = Some bj ->
    ~ (studentId (data bi) = studentId (data bj)
       /\ date (data bi) = date (data bj)).

(** Computations that leave the ledger and the store alone. *)
Definition readOnly {A} (c : M A) : Prop :=
  forall w, chain (snd (c w)) = chain w
            /\ localStorage (snd (c w)) = localStorage w.

(** ** Sample ledgers *)

Definition sampleGenesis : Block :=
  {| index := 0; timestamp := 1700000000000; data := genesisData;
     previousHash := lit "0";
     hash := lit "MDAxNzAwMDAwMDAwMDAweyJzdHVkZW50SWQiOiJOL0EiLCJzdGF0dXMiOiJHZW5l" |}.

Definition samplePresent : AttendanceData :=
  {| studentId := lit "S1"; status := lit "present";
     date := lit "2024-01-01" |}.

Definition sampleAbsent : AttendanceData :=
  {| studentId := lit "S1"; status := lit "absent";
     date := lit "2024-01-01" |}.

Definition sampleOther : AttendanceData :=
  {| studentId := lit "S2"; status := lit "absent";
     date := lit "2024-01-01" |}.

Definition sampleFirst : Block :=
  {| index := 1; timestamp := 1700000000001; data := samplePresent;
     previousHash := hash sampleGenesis;
     hash := lit "MU1EQXhOekF3TURBd01EQXdNREF3ZXlKemRIVmtaVzUwU1dRaU9pSk9MMEVpTENK" |}.

Definition sampleSecond : Block :=
  {| index := 2; timestamp := 1700000000002; data := sampleOther;
     previousHash := hash sampleFirst;
     hash := lit "Mk1VMUVRWGhPZWtGM1RVUkJkMDFFUVhkTlJFRjNaWGxLZW1SSVZtdGFWelV3VTFk" |}.

Definition sampleChain : list Block :=
  [sampleGenesis; sampleFirst; sampleSecond].

Definition samplePage : World :=
  blankPage sampleChain (Some (stringifyChain sampleChain)).

(** A session: S1 marked present, S2 marked absent, then S1 marked absent
    on the same day, which the guard rejects. *)
Definition sampleSession : list Event :=
  [MarkPresent (lit " S1 ") (lit "2024-01-01") 1700000000001;
   MarkAbsent (lit "S2") (lit "2024-01-01") 1700000000002;
   MarkAbsent (lit "S1") (lit "2024-01-01") 1700000000003].

Definition sampleReached : World :=
  fold_left (fun w e => snd (handle e w)) sampleSession
    (blankPage [sampleGenesis] None).



(** Each block of [rest] is sealed and points to the hash of the block
    before it, [p] being the block before the first. *)
Fixpoint linkedFrom (p : Block) (rest : list Block) : Prop :=
  match rest with
  | [] => True
  | b :: r => previousHash b = hash p /\ sealed b /\ linkedFrom b r
  end.

(** Two blocks [isChainValid] cannot tell apart. *)
Definition sameSeal (b b' : Block) : Prop :=
  hash b = hash b' /\ previousHash b = previousHash b'
  /\ calculateHash b = calculateHash b'.

(** A hash of full length: 64 base64 characters. *)
Definition fullHash (h : jsstring) : Prop :=
  isAscii h = true /\ List.length h = 64%nat.

(** ** Sessions and what else the properties are stated with *)

(** The page after the clicks [es], oldest first. *)
Definition session (es : list Event) (w : World) : World :=
  fold_left (fun w e => snd (handle e w)) es w.

(** [block.previousHash = p], an assignment made from outside the
    script. *)
Definition setPreviousHash (b : Block) (p : jsstring) : Block :=
  {| index := index b; timestamp := timestamp b; data := data b;
     previousHash := p; hash := hash b |}.

(** Computations that keep a property of the page, whether they complete or
    throw. *)
Definition preserves (P : World -> Prop) {A} (c : M A) : Prop :=
  forall w, P w -> P (snd (c w)).

(** The 'noBlocksMessage' paragraph has left the document and the display
    holds the cards [cards]. *)
Definition frozenAt (cards : list Card) (w : World) : Prop :=
  noBlocksMessageAttached w = false /\ blockchainDisplay w = cards.

(** The line [renderBlockchain] logs when it finds an element missing. *)
Definition skippingRenderLine : jsstring :=
  lit "DOM elements not found: blockchainDisplay or noBlocksMessage. Skipping render.".

(** The card of a block whose hash matches. *)
Definition validCard (b : Block) : Card :=
  {| cardBlock := b; cardValid := true |}.

(** The page with [cards] appended to the display, in order. *)
Definition appendCards (cards : list Card) (w : World) : World :=
  fold_left (fun w c => appendCard c w) cards w.

(** The eligibility rule in exact arithmetic: at least 85 days present in
    100. *)
Definition meetsThreshold (presentDays totalDays : nat) : bool :=
  85 * N.of_nat totalDays <=? 100 * N.of_nat presentDays.

(** [n] hundredths are within half a hundredth of the exact percentage
    [100 * presentDays / totalDays]. *)
Definition nearestHundredth (presentDays totalDays : nat) (n : N) : bool :=
  let p := N.of_nat presentDays in
  let t := N.of_nat totalDays in
  (20000 * p <=? 2 * t * n + t) && (2 * t * n <=? 20000 * p + t).

(** The hundredths [toFixed(2)] prints for a number that is zero or
    positive with a mantissa below 10^21 and no positive exponent:
    [m * 2^e * 100] rounded to the nearest integer, the larger of two,
    computed with shifts. *)
Definition shownHundredths (x : float) : option N :=
  match Prim2SF x with
  | S754_zero _ => Some 0
  | S754_finite false m e =>
      if ((e <=? 0) && (Z.pos m <? 1000000000000000000000))%Z
      then Some (Z.to_N (Z.shiftr (200 * Z.pos m + Z.shiftl 1 (- e))
                           (1 - e)))
      else None
  | _ => None
  end.

(** The computation in floating point gives the exact verdict and a
    percentage as near to the exact one as two decimals get. *)
Definition summaryChecked (presentDays totalDays : nat) : bool :=
  Bool.eqb (85 <=? attendancePercentageOf presentDays totalDays)%float
           (meetsThreshold presentDays totalDays)
  && match shownHundredths
             (attendancePercentageOf presentDays totalDays) with
     | Some n => nearestHundredth presentDays totalDays n
     | None => false
     end.

(** The counts the summary is checked for: up to [summaryBound] records. *)
Definition summaryBound : nat := 366.

(** Nothing but white space, as [trim] sees it. *)
Definition blank (s : jsstring) : bool := forallb isWhiteSpace s.



(** The pages a user can reach over any number of visits: a first visit
    on an empty store, [window.onload], clicks, and further visits, each
    of which runs the script again on what the store then holds. *)
Inductive visited : World -> Prop :=
| visited_first : forall now w,
    boot now None = Ok w -> visited w
| visited_load : forall w,
    visited w -> visited (snd (windowOnload w))
| visited_event : forall w e,
    visited w -> visited (snd (handle e w))
| visited_again : forall w now w',
    visited w -> boot now (localStorage w) = Ok w' -> visited w'.

(** The strings a click reads are made of code units. *)
Definition codeUnitsEvent (e : Event) : bool :=
  match e with
  | MarkPresent input today _ => codeUnits input && codeUnits today
  | MarkAbsent input today _ => codeUnits input && codeUnits today
  | ClearData _ => true
  end.

(** The index and the timestamp of the block are safe integers, so that
    they are read and printed digit for digit. *)
Definition safeNumbers (b : Block) : bool :=
  isSafeInteger (index b) && isSafeInteger (timestamp b).

(** [block.index = i], an assignment made from outside the script. *)
Definition setIndex (b : Block) (i : Z) : Block :=
  {| index := i; timestamp := timestamp b; data := data b;
     previousHash := previousHash b; hash := hash b |}.

(** A character of an integer printed in plain decimal: a digit or the
    sign. *)
Definition isNumeric (c : N) : bool := isDigit c || (c =? 45).

(** The number a base64 character stands for. *)
Definition base64Value (c : N) : N :=
  if (65 <=? c) && (c <=? 90) then c - 65
  else if (97 <=? c) && (c <=? 122) then c - 71
  else if (48 <=? c) && (c <=? 57) then c + 4
  else if c =? 43 then 62
  else 63.

(** The two middle sextets of three octets, as [base64] forms them. *)
Definition sextet2 (a b : N) : N :=
  N.lor (N.shiftl (N.land a 3) 4) (N.shiftr b 4).

Definition sextet3 (b c : N) : N :=
  N.lor (N.shiftl (N.land b 15) 2) (N.shiftr c 6).

(** The sextets formed from two neighbouring octets are below 64 and give
    the octets back. *)
Definition sextetsChecked (x y : N) : bool :=
  (N.shiftr x 2 <? 64) && (sextet2 x y <? 64) && (sextet3 x y <? 64)
  && (N.land y 63 <? 64)
  && (4 * N.shiftr x 2 + sextet2 x y / 16 =? x)
  && (sextet2 x y mod 16 =? N.shiftr y 4)
  && (16 * N.shiftr x 4 + sextet3 x y / 4 =? x)
  && (64 * (sextet3 x y mod 4) + N.land y 63 =? y).

(** * Properties *)

(** ** Strings and completions *)

Lemma streq_eq (a b : jsstring) : streq a b = true <-> a = b.
Proof.
  revert b; induction a as [|x a IH]; intros [|y b]; simpl;
    try (split; (discriminate || reflexivity)).
  rewrite andb_true_iff, N.eqb_eq, IH.
  split; [intros [-> ->]; reflexivity | intros H; inversion H; auto].
Qed.

Lemma streq_refl (a : jsstring) : streq a a = true.
Proof. apply streq_eq; reflexivity. Qed.

Lemma streq_neq (a b : jsstring) : streq a b = false <-> a <> b.
Proof.
  destruct (streq a b) eqn:E.
  - apply streq_eq in E. split; [discriminate | intros H; contradiction].
  - split; [intros _ H; apply streq_eq in H; congruence | reflexivity].
Qed.

(** Induction that follows the two-unit steps of the string functions. *)
Lemma jsstring_pair_ind (P : jsstring -> Prop) :
  P [] ->
  (forall u, P [u]) ->
  (forall u v r, P r -> P (v :: r) -> P (u :: v :: r)) ->
  forall s, P s.
Proof.
  intros H0 H1 H2 s.
  assert (G : P s /\ forall u, P (u :: s)).
  { induction s as [|v r [IHa IHb]]; split; auto. }
  apply G.
Qed.

Lemma isAscii_app (a b : jsstring) :
  isAscii (a ++ b) = isAscii a && isAscii b.
Proof. apply forallb_app. Qed.

Lemma ascii_not_surrogate (u : N) :
  u < 0x80 -> isLowSurrogate u = false /\ isHighSurrogate u = false.
Proof.
  intros H. unfold isLowSurrogate, isHighSurrogate.
  split; apply andb_false_iff; left; apply N.leb_gt; lia.
Qed.

Lemma isAscii_wellFormed (s : jsstring) :
  isAscii s = true -> wellFormed s = true.
Proof.
  induction s as [|u r IH]; simpl; auto.
  rewrite andb_true_iff, N.ltb_lt. intros [Hu Hr].
  destruct (ascii_not_surrogate u Hu) as [-> ->].
  rewrite (IH Hr), andb_true_r. apply N.ltb_lt. lia.
Qed.

Lemma wellFormed_app (a b : jsstring) :
  wellFormed a = true -> wellFormed b = true -> wellFormed (a ++ b) = true.
Proof.
  intros Ha Hb. revert Ha.
  induction a as [| u | u v r IHr IHv] using jsstring_pair_ind;
    simpl; auto.
  - destruct (isLowSurrogate u); [discriminate|].
    destruct (isHighSurrogate u); [discriminate|].
    rewrite andb_true_r. intros ->. exact Hb.
  - destruct (isLowSurrogate u); [discriminate|].
    destruct (isHighSurrogate u).
    + rewrite !andb_true_iff. intros [-> Hr]. auto.
    + rewrite !andb_true_iff. intros [-> Hr]. split; auto.
Qed.

(** ** encodeURIComponent, unescape and btoa on well-formed strings *)

(** A check run on every number below [n]. *)
Lemma forall_below (n : nat) (p : N -> bool) :
  forallb p (map N.of_nat (seq 0 n)) = true ->
  forall b, b < N.of_nat n -> p b = true.
Proof.
  intros H b Hb. rewrite forallb_forall in H. apply H.
  rewrite <- (N2Nat.id b). apply in_map, in_seq. lia.
Qed.

Lemma percentOctet_hex (b : N) (r : jsstring) :
  b < 256 ->
  unescapeAt (hexUpper (N.shiftr b 4) :: hexUpper (N.land b 15) :: r)
  = Some (b, 2%nat).
Proof.
  intros Hb. unfold unescapeAt, hexAt. simpl firstn. simpl Nat.leb.
  pose proof (forall_below 256
    (fun b => negb (hexUpper (N.shiftr b 4) =? 117)
              && match hexNumber 0 [hexUpper (N.shiftr b 4);
                                    hexUpper (N.land b 15)] with
                 | Some v => v =? b
                 | None => false
                 end) eq_refl b Hb) as H.
  apply andb_true_iff in H. destruct H as [H1 H2].
  apply negb_true_iff in H1. rewrite H1.
  destruct (hexNumber 0 _) as [v|]; [|discriminate].
  apply N.eqb_eq in H2. subst v. reflexivity.
Qed.

Lemma unescapeFrom_percentOctet (b : N) (r : jsstring) :
  b < 256 ->
  unescapeFrom 0 (percentOctet b ++ r) = b :: unescapeFrom 0 r.
Proof.
  intros Hb. unfold percentOctet.
  change (unescapeFrom 0 ([37; hexUpper (N.shiftr b 4);
                           hexUpper (N.land b 15)] ++ r))
    with (match unescapeAt (hexUpper (N.shiftr b 4)
                            :: hexUpper (N.land b 15) :: r) with
          | Some (v, n) =>
              v :: unescapeFrom n (hexUpper (N.shiftr b 4)
                                   :: hexUpper (N.land b 15) :: r)
          | None =>
              37 :: unescapeFrom 0 (hexUpper (N.shiftr b 4)
                                    :: hexUpper (N.land b 15) :: r)
          end).
  rewrite (percentOctet_hex b r Hb). reflexivity.
Qed.

Lemma unescapeFrom_octets (bs : list N) (r : jsstring) :
  Forall (fun b => b < 256) bs ->
  unescapeFrom 0 (flat_map percentOctet bs ++ r) = bs ++ unescapeFrom 0 r.
Proof.
  induction 1 as [|b bs Hb _ IH]; [reflexivity|].
  change (flat_map percentOctet (b :: bs))
    with (percentOctet b ++ flat_map percentOctet bs).
  rewrite <- List.app_assoc, (unescapeFrom_percentOctet b _ Hb), IH.
  reflexivity.
Qed.

Lemma uriUnescaped_ascii (u : N) :
  uriUnescaped u = true -> u < 0x80 /\ u <> 37.
Proof.
  unfold uriUnescaped.
  rewrite !orb_true_iff, !andb_true_iff, !N.leb_le, existsb_exists.
  intros [[[H|H]|H]|[x [Hin Hx]]]; try lia.
  apply N.eqb_eq in Hx. subst x.
  vm_compute in Hin.
  repeat (destruct Hin as [Hin|Hin]; [subst u; split; [reflexivity|discriminate]|]).
  contradiction.
Qed.

Lemma lor_below (n a b : N) :
  a < 2 ^ n -> b < 2 ^ n -> N.lor a b < 2 ^ n.
Proof.
  intros Ha Hb.
  destruct (N.eq_dec (N.lor a b) 0) as [E|E].
  - rewrite E. apply N.neq_0_lt_0, N.pow_nonzero. discriminate.
  - destruct (N.eq_dec a 0) as [->|Ea]; [rewrite N.lor_0_l; exact Hb|].
    destruct (N.eq_dec b 0) as [->|Eb]; [rewrite N.lor_0_r; exact Ha|].
    apply N.log2_lt_pow2; [lia|].
    rewrite N.log2_lor.
    apply N.log2_lt_pow2 in Ha; [|lia].
    apply N.log2_lt_pow2 in Hb; [|lia].
    lia.
Qed.

Lemma land_63_below (a : N) : N.land a 0x3F < 64.
Proof.
  change 0x3F with (N.ones 6). rewrite N.land_ones.
  apply N.mod_lt. discriminate.
Qed.

Lemma shiftr_below (a k n : N) : a < 2 ^ (k + n) -> N.shiftr a k < 2 ^ n.
Proof.
  intros H. rewrite N.shiftr_div_pow2.
  apply N.Div0.div_lt_upper_bound.
  rewrite <- N.pow_add_r. exact H.
Qed.

Lemma continuation_octet (a : N) : N.lor 0x80 (N.land a 0x3F) < 256.
Proof.
  apply (lor_below 8); [reflexivity|].
  pose proof (land_63_below a). change (2 ^ 8) with 256. lia.
Qed.

Lemma utf8_octets (cp : N) :
  cp < 0x110000 -> Forall (fun b => b < 256) (utf8 cp).
Proof.
  intros H. unfold utf8.
  destruct (N.ltb_spec cp 0x80); [repeat constructor; lia|].
  destruct (N.ltb_spec cp 0x800).
  { repeat constructor; [|apply continuation_octet].
    apply (lor_below 8); [reflexivity|].
    apply N.lt_trans with (2 ^ 5); [|reflexivity].
    apply shiftr_below. simpl. lia. }
  destruct (N.ltb_spec cp 0x10000).
  { repeat constructor; try apply continuation_octet.
    apply (lor_below 8); [reflexivity|].
    apply N.lt_trans with (2 ^ 4); [|reflexivity].
    apply shiftr_below. simpl. lia. }
  repeat constructor; try apply continuation_octet.
  apply (lor_below 8); [reflexivity|].
  apply N.lt_trans with (2 ^ 3); [|reflexivity].
  apply shiftr_below. simpl. lia.
Qed.

Lemma surrogatePair_below (u v : N) :
  isHighSurrogate u = true -> isLowSurrogate v = true ->
  surrogatePair u v < 0x110000.
Proof.
  unfold isHighSurrogate, isLowSurrogate, surrogatePair.
  rewrite !andb_true_iff, !N.leb_le. intros [? ?] [? ?]. lia.
Qed.

Lemma utf8String_octets (s : jsstring) :
  wellFormed s = true -> Forall (fun b => b < 256) (utf8String s).
Proof.
  induction s as [| u | u v r IHr IHv] using jsstring_pair_ind; simpl.
  - constructor.
  - destruct (isLowSurrogate u); [discriminate|].
    destruct (isHighSurrogate u); [discriminate|].
    rewrite andb_true_r, N.ltb_lt. intros H.
    rewrite List.app_nil_r. apply utf8_octets. lia.
  - destruct (isLowSurrogate u); [discriminate|].
    destruct (isHighSurrogate u) eqn:Hu.
    + rewrite andb_true_iff. intros [Hv Hr]. rewrite Hv.
      apply Forall_app. split; [|auto].
      apply utf8_octets, surrogatePair_below; assumption.
    + rewrite andb_true_iff, N.ltb_lt. intros [Hlt Hr].
      apply Forall_app. split; [apply utf8_octets; lia|].
      apply IHv, Hr.
Qed.

(** On a well-formed string [unescape(encodeURIComponent(s))] is the
    string of the UTF-8 octets of [s]. *)
Lemma unescape_encodeURIComponent (s : jsstring) :
  wellFormed s = true ->
  exists e, encodeURIComponent s = Ok e /\ unescape e = utf8String s.
Proof.
  unfold unescape.
  induction s as [| u | u v r IHr IHv] using jsstring_pair_ind.
  - intros _. exists []. split; reflexivity.
  - simpl. destruct (uriUnescaped u) eqn:Hun.
    + destruct (uriUnescaped_ascii u Hun) as [Hlt Hne].
      destruct (ascii_not_surrogate u Hlt) as [-> ->].
      intros _. exists [u]. split; [reflexivity|].
      simpl. apply N.eqb_neq in Hne. rewrite Hne.
      unfold utf8. apply N.ltb_lt in Hlt. rewrite Hlt. reflexivity.
    + destruct (isLowSurrogate u); [discriminate|].
      destruct (isHighSurrogate u); [discriminate|].
      rewrite andb_true_r, N.ltb_lt. intros Hlt.
      eexists. split; [reflexivity|].
      rewrite unescapeFrom_octets by (apply utf8_octets; lia).
      reflexivity.
  - intros Hwf.
    assert (Hwf' := Hwf). simpl in Hwf.
    destruct (uriUnescaped u) eqn:Hun.
    + destruct (uriUnescaped_ascii u Hun) as [Hlt Hne].
      destruct (ascii_not_surrogate u Hlt) as [Hlo Hhi].
      rewrite Hlo, Hhi in Hwf. apply andb_true_iff in Hwf.
      destruct Hwf as [_ Hvr].
      destruct (IHv Hvr) as [e [He1 He2]].
      exists (u :: e). split.
      * change (encodeURIComponent (u :: v :: r))
          with (if uriUnescaped u
                then obind (encodeURIComponent (v :: r))
                           (fun r0 => Ok (u :: r0))
                else if isLowSurrogate u then Throw URIError
                else if isHighSurrogate u then
                  if isLowSurrogate v then
                    obind (encodeURIComponent r) (fun r0 =>
                      Ok (flat_map percentOctet (utf8 (surrogatePair u v))
                          ++ r0))
                  else Throw URIError
                else obind (encodeURIComponent (v :: r)) (fun r0 =>
                       Ok (flat_map percentOctet (utf8 u) ++ r0))).
        rewrite Hun, He1. reflexivity.
      * change (utf8String (u :: v :: r))
          with (if isHighSurrogate u then
                  if isLowSurrogate v
                  then utf8 (surrogatePair u v) ++ utf8String r
                  else utf8 u ++ utf8String (v :: r)
                else utf8 u ++ utf8String (v :: r)).
        rewrite Hhi. simpl unescapeFrom.
        apply N.eqb_neq in Hne. rewrite Hne.
        unfold utf8 at 1. apply N.ltb_lt in Hlt. rewrite Hlt.
        simpl. f_equal. exact He2.
    + change (encodeURIComponent (u :: v :: r))
        with (if uriUnescaped u
              then obind (encodeURIComponent (v :: r))
                         (fun r0 => Ok (u :: r0))
              else if isLowSurrogate u then Throw URIError
              else if isHighSurrogate u then
                if isLowSurrogate v then
                  obind (encodeURIComponent r) (fun r0 =>
                    Ok (flat_map percentOctet (utf8 (surrogatePair u v))
                        ++ r0))
                else Throw URIError
              else obind (encodeURIComponent (v :: r)) (fun r0 =>
                     Ok (flat_map percentOctet (utf8 u) ++ r0))).
      change (utf8String (u :: v :: r))
        with (if isHighSurrogate u then
                if isLowSurrogate v
                then utf8 (surrogatePair u v) ++ utf8String r
                else utf8 u ++ utf8String (v :: r)
              else utf8 u ++ utf8String (v :: r)).
      rewrite Hun.
      destruct (isLowSurrogate u); [discriminate|].
      destruct (isHighSurrogate u) eqn:Hhi.
      * apply andb_true_iff in Hwf. destruct Hwf as [Hv Hr].
        rewrite Hv. destruct (IHr Hr) as [e [He1 He2]].
        eexists. split; [rewrite He1; reflexivity|].
        rewrite unescapeFrom_octets
          by (apply utf8_octets, surrogatePair_below; assumption).
        rewrite He2. reflexivity.
      * apply andb_true_iff in Hwf. destruct Hwf as [Hlt Hvr].
        apply N.ltb_lt in Hlt.
        destruct (IHv Hvr) as [e [He1 He2]].
        eexists. split; [rewrite He1; reflexivity|].
        rewrite unescapeFrom_octets by (apply utf8_octets; lia).
        rewrite He2. reflexivity.
Qed.

(** Induction that follows the three-octet groups of [base64]. *)
Lemma list_triple_ind {A} (P : list A -> Prop) :
  P [] ->
  (forall a, P [a]) ->
  (forall a b, P [a; b]) ->
  (forall a b c r, P r -> P (a :: b :: c :: r)) ->
  forall s, P s.
Proof.
  intros H0 H1 H2 H3 s.
  assert (G : P s /\ (forall a, P (a :: s)) /\ forall a b, P (a :: b :: s)).
  { induction s as [|c r [IHa [IHb IHc]]]; repeat split; auto. }
  apply G.
Qed.

Lemma base64Char_ascii (n : N) : base64Char n < 0x80.
Proof.
  unfold base64Char.
  destruct (N.ltb_spec n 26); [lia|].
  destruct (N.ltb_spec n 52); [lia|].
  destruct (N.ltb_spec n 62); [lia|].
  destruct (n =? 62); lia.
Qed.

Lemma base64_ascii (s : list N) : isAscii (base64 s) = true.
Proof.
  induction s as [| a | a b | a b c r IH] using list_triple_ind;
    simpl; rewrite ?andb_true_iff, ?N.ltb_lt;
    repeat split; try apply base64Char_ascii; try reflexivity.
  exact IH.
Qed.

Lemma isAscii_firstn (n : nat) (s : jsstring) :
  isAscii s = true -> isAscii (firstn n s) = true.
Proof.
  revert s; induction n as [|n IH]; intros [|u s]; simpl; auto.
  rewrite !andb_true_iff. intros [Hu Hs]. split; [exact Hu|].
  apply IH, Hs.
Qed.

Lemma btoa_octets (s : jsstring) :
  Forall (fun b => b < 256) s -> btoa s = Ok (base64 s).
Proof.
  intros H. unfold btoa.
  replace (forallb (fun c => c <=? 255) s) with true; [reflexivity|].
  symmetry. apply forallb_forall. rewrite Forall_forall in H.
  intros x Hx. apply N.leb_le. specialize (H x Hx). lia.
Qed.

(** The string [calculateHash] encodes. *)
Lemma calculateHashOf_wellFormed (i : Z) (prev : jsstring) (ts : Z)
    (d : AttendanceData) :
  wellFormed (numberToString i ++ prev ++ numberToString ts
              ++ stringifyData d) = true ->
  calculateHashOf i prev ts d
  = Ok (firstn 64 (base64 (utf8String
          (numberToString i ++ prev ++ numberToString ts
           ++ stringifyData d)))).
Proof.
  intros Hwf. unfold calculateHashOf.
  destruct (unescape_encodeURIComponent _ Hwf) as [e [-> He]].
  simpl obind. rewrite He.
  rewrite btoa_octets by (apply utf8String_octets, Hwf).
  reflexivity.
Qed.

Lemma uint_chars_ascii (d : Decimal.uint) : isAscii (uint_chars d) = true.
Proof. induction d; simpl; auto. Qed.

Lemma numberToString_ascii (z : Z) : isAscii (numberToString z) = true.
Proof.
  unfold numberToString, natToString.
  destruct (z <? 0)%Z; simpl; apply uint_chars_ascii.
Qed.

Lemma hexLower_ascii (a : N) : hexLower (N.land a 15) < 0x80.
Proof.
  assert (N.land a 15 < 16).
  { change 15 with (N.ones 4). rewrite N.land_ones.
    apply N.mod_lt. discriminate. }
  unfold hexLower. destruct (N.ltb_spec (N.land a 15) 10); lia.
Qed.

Lemma unicodeEscape_ascii (u : N) : isAscii (unicodeEscape u) = true.
Proof.
  unfold unicodeEscape. simpl.
  rewrite !andb_true_iff, !N.ltb_lt.
  repeat split; try apply hexLower_ascii; reflexivity.
Qed.

Lemma wellFormed_ascii_app (a b : jsstring) :
  isAscii a = true -> wellFormed b = true -> wellFormed (a ++ b) = true.
Proof.
  intros Ha Hb. apply wellFormed_app; [apply isAscii_wellFormed, Ha|exact Hb].
Qed.

Lemma surrogates_disjoint (u : N) :
  isHighSurrogate u = true -> isLowSurrogate u = false.
Proof.
  unfold isHighSurrogate, isLowSurrogate.
  rewrite andb_true_iff, !N.leb_le. intros [? ?].
  apply andb_false_iff. left. apply N.leb_gt. lia.
Qed.

Lemma quoteUnit_wellFormed (u : N) (r : jsstring) :
  isLowSurrogate u = false -> isHighSurrogate u = false ->
  u < 0x10000 -> wellFormed r = true ->
  wellFormed (quoteUnit u ++ r) = true.
Proof.
  intros Hl Hh Hu Hr. unfold quoteUnit.
  repeat match goal with
         | |- context [if ?c then _ else _] =>
             destruct c eqn:?;
             [apply wellFormed_ascii_app;
              [first [reflexivity | apply unicodeEscape_ascii] | exact Hr]|]
         end.
  simpl. rewrite Hl, Hh, Hr.
  apply N.ltb_lt in Hu. rewrite Hu. reflexivity.
Qed.

(** A quoted string is well formed whatever the string: lone surrogates
    leave as escapes. *)
Lemma quoteChars_wellFormed (s r : jsstring) :
  codeUnits s = true -> wellFormed r = true ->
  wellFormed (quoteChars s ++ r) = true.
Proof.
  intros Hs Hr. revert Hs.
  induction s as [| u | u v t IHt IHv] using jsstring_pair_ind.
  - intros _. exact Hr.
  - cbn [quoteChars codeUnits forallb].
    rewrite andb_true_r, N.ltb_lt. intros Hu.
    destruct (isHighSurrogate u) eqn:Hh.
    + apply wellFormed_ascii_app; [apply unicodeEscape_ascii|exact Hr].
    + destruct (isLowSurrogate u) eqn:Hl.
      * rewrite <- List.app_assoc.
        apply wellFormed_ascii_app; [apply unicodeEscape_ascii|exact Hr].
      * rewrite <- List.app_assoc. apply quoteUnit_wellFormed; auto.
  - intros Hs.
    assert (Hvt : codeUnits (v :: t) = true).
    { simpl in Hs. apply andb_true_iff in Hs. apply Hs. }
    assert (Ht : codeUnits t = true).
    { simpl in Hvt. apply andb_true_iff in Hvt. apply Hvt. }
    assert (Hu : u < 0x10000).
    { simpl in Hs. apply andb_true_iff in Hs. apply N.ltb_lt, Hs. }
    change (quoteChars (u :: v :: t))
      with (if isHighSurrogate u then
              if isLowSurrogate v then u :: v :: quoteChars t
              else unicodeEscape u ++ quoteChars (v :: t)
            else if isLowSurrogate u
                 then unicodeEscape u ++ quoteChars (v :: t)
                 else quoteUnit u ++ quoteChars (v :: t)).
    destruct (isHighSurrogate u) eqn:Hh.
    + destruct (isLowSurrogate v) eqn:Hv.
      * simpl. rewrite (surrogates_disjoint u Hh), Hh, Hv. simpl.
        apply IHt, Ht.
      * rewrite <- List.app_assoc.
        apply wellFormed_ascii_app; [apply unicodeEscape_ascii|].
        apply IHv, Hvt.
    + destruct (isLowSurrogate u) eqn:Hl.
      * rewrite <- List.app_assoc.
        apply wellFormed_ascii_app; [apply unicodeEscape_ascii|].
        apply IHv, Hvt.
      * rewrite <- List.app_assoc. apply quoteUnit_wellFormed; auto.
Qed.

Lemma quoteJSONString_wellFormed (s r : jsstring) :
  codeUnits s = true -> wellFormed r = true ->
  wellFormed (quoteJSONString s ++ r) = true.
Proof.
  intros Hs Hr. unfold quoteJSONString.
  change ((dquote :: quoteChars s ++ [dquote]) ++ r)
    with ([dquote] ++ (quoteChars s ++ [dquote]) ++ r).
  apply wellFormed_ascii_app; [reflexivity|].
  rewrite <- List.app_assoc.
  apply quoteChars_wellFormed; [exact Hs|].
  apply wellFormed_ascii_app; [reflexivity|exact Hr].
Qed.

Lemma stringifyData_wellFormed (d : AttendanceData) (r : jsstring) :
  codeUnitsData d = true -> wellFormed r = true ->
  wellFormed (stringifyData d ++ r) = true.
Proof.
  unfold codeUnitsData. rewrite !andb_true_iff. intros [[Ha Hb] Hc] Hr.
  unfold stringifyData, serializeObject, joinComma, member.
  repeat first
    [ rewrite <- List.app_assoc
    | rewrite <- List.app_comm_cons
    | match goal with
      | |- wellFormed (quoteJSONString _ ++ _) = true =>
          apply quoteJSONString_wellFormed; [first [assumption|reflexivity]|]
      | |- wellFormed (?c :: ?t) = true =>
          change (wellFormed ([c] ++ t) = true);
          apply wellFormed_ascii_app; [reflexivity|]
      end ].
  exact Hr.
Qed.

(** [calculateHash] completes when the previous hash is well formed; the
    payload cannot make it throw. *)
Lemma calculateHashOf_total (i : Z) (prev : jsstring) (ts : Z)
    (d : AttendanceData) :
  wellFormed prev = true -> codeUnitsData d = true ->
  exists h, calculateHashOf i prev ts d = Ok h /\ isAscii h = true.
Proof.
  intros Hp Hd. eexists. split.
  - apply calculateHashOf_wellFormed.
    apply wellFormed_ascii_app; [apply numberToString_ascii|].
    apply wellFormed_app; [exact Hp|].
    apply wellFormed_ascii_app; [apply numberToString_ascii|].
    rewrite <- (List.app_nil_r (stringifyData d)).
    apply stringifyData_wellFormed; [exact Hd|reflexivity].
  - apply isAscii_firstn, base64_ascii.
Qed.

(** ** The sample ledger is one the script builds *)

Lemma sampleGenesis_created :
  boot 1700000000000 None = Ok (blankPage [sampleGenesis] None).
Proof. vm_compute. reflexivity. Qed.

Lemma samplePage_built :
  snd (addBlock 1700000000002 sampleOther
         (snd (addBlock 1700000000001 samplePresent
                 (blankPage [sampleGenesis] None))))
  = samplePage.
Proof. vm_compute. reflexivity. Qed.

Lemma produced_samplePage : produced samplePage.
Proof.
  rewrite <- samplePage_built.
  do 2 apply produced_append.
  apply (produced_fresh 1700000000000). exact sampleGenesis_created.
Qed.

(** ** Running a computation *)

Lemma readOnly_ret {A} (a : A) : readOnly (ret a).
Proof. intros w. split; reflexivity. Qed.

Lemma readOnly_lift {A} (o : outcome A) : readOnly (lift o).
Proof. intros w. split; reflexivity. Qed.

Lemma readOnly_gets {A} (f : World -> A) : readOnly (gets f).
Proof. intros w. split; reflexivity. Qed.

Lemma readOnly_modify (f : World -> World) :
  (forall w, chain (f w) = chain w /\ localStorage (f w) = localStorage w) ->
  readOnly (modify f).
Proof. intros H w. apply H. Qed.

Lemma readOnly_bind {A B} (c : M A) (k : A -> M B) :
  readOnly c -> (forall a, readOnly (k a)) -> readOnly (bind c k).
Proof.
  intros Hc Hk w. unfold bind.
  specialize (Hc w). destruct (c w) as [[a|e|] w']; simpl in *; auto.
  destruct (Hk a w') as [H1 H2]. destruct Hc as [H3 H4].
  split; congruence.
Qed.

Lemma readOnly_if {A} (b : bool) (c1 c2 : M A) :
  readOnly c1 -> readOnly c2 -> readOnly (if b then c1 else c2).
Proof. destruct b; auto. Qed.

Create HintDb page discriminated.
#[local] Hint Resolve readOnly_ret readOnly_lift readOnly_gets
  readOnly_bind readOnly_if : page.

Lemma readOnly_logError (line : jsstring) : readOnly (modify (logError line)).
Proof. apply readOnly_modify. intros w. split; reflexivity. Qed.

Lemma readOnly_showMessage (m t : jsstring) : readOnly (showMessage m t).
Proof. apply readOnly_modify. intros w. split; reflexivity. Qed.

#[local] Hint Resolve readOnly_logError readOnly_showMessage : page.

Lemma readOnly_isChainValidFrom (rest : list Block) :
  forall i previousBlock, readOnly (isChainValidFrom i previousBlock rest).
Proof.
  induction rest as [|b rest IH]; intros i p; simpl; auto 10 with page.
Qed.

Lemma readOnly_isChainValid : readOnly isChainValid.
Proof.
  intros w. unfold isChainValid.
  destruct (chain w) as [|g rest] eqn:E; [simpl; auto|].
  rewrite <- E. apply readOnly_isChainValidFrom.
Qed.

Lemma readOnly_renderCards (blocks : list Block) : readOnly (renderCards blocks).
Proof.
  induction blocks as [|b rest IH]; simpl; auto with page.
  apply readOnly_bind; auto with page. intros h.
  apply readOnly_bind; auto.
  apply readOnly_modify. intros w. split; reflexivity.
Qed.

Lemma readOnly_renderBlockchain : readOnly renderBlockchain.
Proof.
  unfold renderBlockchain.
  apply readOnly_bind; auto with page. intros attached.
  apply readOnly_if; auto with page.
  apply readOnly_bind.
  { apply readOnly_modify. intros w. split; reflexivity. }
  intros _. apply readOnly_bind; auto with page. intros blocks.
  apply readOnly_bind; [apply readOnly_renderCards|].
  intros _. apply readOnly_bind; [apply readOnly_isChainValid|].
  intros valid. auto with page.
Qed.

Lemma readOnly_updateAttendanceSummary : readOnly updateAttendanceSummary.
Proof.
  intros w. unfold updateAttendanceSummary.
  destruct (toFixed 2 _); split; reflexivity.
Qed.

#[local] Hint Resolve readOnly_renderBlockchain
  readOnly_updateAttendanceSummary : page.

Lemma readOnly_windowOnload : readOnly windowOnload.
Proof. unfold windowOnload. auto with page. Qed.

(** ** Block construction *)

Lemma newBlock_fields (i ts : Z) (d : AttendanceData) (prev : jsstring)
    (b : Block) :
  newBlock i ts d prev = Ok b ->
  index b = i /\ timestamp b = ts /\ data b = d /\ previousHash b = prev
  /\ sealed b.
Proof.
  unfold newBlock, sealed, calculateHash.
  destruct (calculateHashOf i prev ts d) as [h|e|] eqn:E; simpl;
    try discriminate.
  intros H. inversion H; subst; simpl. auto.
Qed.

Lemma sealed_ascii (b : Block) : sealed b -> isAscii (hash b) = true.
Proof.
  unfold sealed, calculateHash, calculateHashOf.
  destruct (encodeURIComponent _) as [e| |]; simpl; try discriminate.
  unfold btoa. destruct (forallb _ _); simpl; try discriminate.
  intros H. inversion H as [H']. apply isAscii_firstn, base64_ascii.
Qed.

Lemma newBlock_total (i ts : Z) (d : AttendanceData) (prev : jsstring) :
  wellFormed prev = true -> codeUnitsData d = true ->
  exists b, newBlock i ts d prev = Ok b.
Proof.
  intros Hp Hd. unfold newBlock.
  destruct (calculateHashOf_total i prev ts d Hp Hd) as [h [-> _]].
  eexists. reflexivity.
Qed.

Lemma createGenesisBlock_total (now : Z) :
  exists g, createGenesisBlock now = Ok g.
Proof. apply newBlock_total; reflexivity. Qed.


(** ** Numbers *)

(** Up to 2^53 in magnitude every integer is a number. *)
Lemma roundBinary64_exact (z : Z) :
  (Z.abs z <= 2 ^ 53)%Z -> roundBinary64 z = z.
Proof.
  intros H. unfold roundBinary64.
  destruct (Z.ltb_spec (Z.abs z) (2 ^ 53)) as [_|Hge]; [reflexivity|].
  assert (E : z = (2 ^ 53)%Z \/ z = (- 2 ^ 53)%Z) by lia.
  destruct E as [-> | ->]; reflexivity.
Qed.

Lemma numberAdd_succ (i : Z) :
  (Z.abs i < 2 ^ 53)%Z -> numberAdd i 1 = (i + 1)%Z.
Proof. intros H. apply roundBinary64_exact. lia. Qed.

(** The position after the last of an array is the sum as written. *)
Lemma numberAdd_position (n : nat) :
  (Z.of_nat n < arrayMaxLength)%Z ->
  numberAdd (Z.of_nat n) 1 = Z.of_nat (S n).
Proof.
  unfold arrayMaxLength. intros H. rewrite numberAdd_succ; lia.
Qed.

(** What [addBlock] does once the new block is built. *)
Lemma addBlock_run (now : Z) (d : AttendanceData) (w : World)
    (latestBlock b : Block) :
  getLatestBlock (chain w) = Some latestBlock ->
  newBlock (numberAdd (index latestBlock) 1) now d (hash latestBlock)
  = Ok b ->
  (Z.of_nat (List.length (chain w)) < arrayMaxLength)%Z ->
  addBlock now d w
  = (Ok tt,
     setLocalStorage (Some (stringifyChain (chain w ++ [b])))
       (setChain (chain w ++ [b]) w)).
Proof.
  intros Hl Hb Hn. unfold addBlock, bind, gets, lift, push, saveChain.
  rewrite Hl, Hb.
  replace (arrayMaxLength <=? Z.of_nat (List.length (chain w)))%Z
    with false by (symmetry; apply Z.leb_gt; exact Hn).
  reflexivity.
Qed.

(** [addBlock] appends and stores, or it leaves the page as it was. *)
Lemma addBlock_outcome (now : Z) (d : AttendanceData) (w : World) :
  (fst (addBlock now d w) <> Ok tt /\ snd (addBlock now d w) = w)
  \/ (exists latestBlock b,
         getLatestBlock (chain w) = Some latestBlock
         /\ newBlock (numberAdd (index latestBlock) 1) now d
              (hash latestBlock) = Ok b
         /\ (Z.of_nat (List.length (chain w)) < arrayMaxLength)%Z
         /\ addBlock now d w
            = (Ok tt,
               setLocalStorage (Some (stringifyChain (chain w ++ [b])))
                 (setChain (chain w ++ [b]) w))).
Proof.
  destruct (getLatestBlock (chain w)) as [l|] eqn:Hl.
  - destruct (newBlock (numberAdd (index l) 1) now d (hash l))
      as [b|e|] eqn:Hb.
    + destruct (Z.leb_spec arrayMaxLength (Z.of_nat (List.length (chain w))))
        as [Hn|Hn].
      * left. unfold addBlock, bind, gets, lift, push. rewrite Hl, Hb.
        replace (arrayMaxLength <=? Z.of_nat (List.length (chain w)))%Z
          with true by (symmetry; apply Z.leb_le; exact Hn).
        split; [discriminate|reflexivity].
      * right. exists l, b. split; [reflexivity|]. split; [exact Hb|].
        split; [exact Hn|]. apply (addBlock_run now d w l b Hl Hb Hn).
    + left. unfold addBlock, bind, gets, lift. rewrite Hl, Hb.
      split; [discriminate|reflexivity].
    + left. unfold addBlock, bind, gets, lift. rewrite Hl, Hb.
      split; [discriminate|reflexivity].
  - left. unfold addBlock, bind, gets, lift. rewrite Hl.
    split; [discriminate|reflexivity].
Qed.

(** When it does not complete, [addBlock] changes nothing. *)
Lemma addBlock_fails (now : Z) (d : AttendanceData) (w : World) :
  fst (addBlock now d w) <> Ok tt -> snd (addBlock now d w) = w.
Proof.
  intros H.
  destruct (addBlock_outcome now d w) as [[_ E]|[l [b [_ [_ [_ E]]]]]];
    [exact E|].
  rewrite E in H. exfalso. apply H. reflexivity.
Qed.

(** ** Append *)





(** ** Validation *)

(** The verdict of the loop depends on the previous block through its
    [hash] alone, and not on the rest of the page. *)
Lemma isChainValidFrom_verdict (rest : list Block) :
  forall i p p' w w',
    hash p = hash p' ->
    fst (isChainValidFrom i p rest w) = fst (isChainValidFrom i p' rest w').
Proof.
  induction rest as [|b rest IH]; intros i p p' w w' Hh; [reflexivity|].
  simpl. unfold bind, lift, modify, ret.
  destruct (calculateHash b) as [h|e|]; try reflexivity.
  destruct (negb (streq (hash b) h)); [reflexivity|].
  rewrite Hh.
  destruct (negb (streq (previousHash b) (hash p'))); [reflexivity|].
  apply IH. reflexivity.
Qed.

Lemma isChainValid_genesis_blind (w : World) (f : Block -> Block) :
  (forall g, hash (f g) = hash g) ->
  fst (isChainValid (setChain (tamper 0 f (chain w)) w))
  = fst (isChainValid w).
Proof.
  intros Hf. unfold isChainValid. simpl chain.
  destruct (chain w) as [|g rest]; [reflexivity|]. simpl tamper. cbv iota.
  apply isChainValidFrom_verdict, Hf.
Qed.

(** C10. Changing the genesis block's [data] and [timestamp], its [hash]
    and all other blocks left as they are, does not change what
    [isChainValid] returns: a ledger that was valid is still reported
    valid. *)
Theorem genesis_tampering_undetected (w : World) (d' : AttendanceData)
    (ts' : Z) :
  let w' := setChain
              (tamper 0 (fun g => setTimestamp (setData g d') ts') (chain w))
              w in
  fst (isChainValid w') = fst (isChainValid w)
  /\ (fst (isChainValid w) = Ok true -> fst (isChainValid w') = Ok true).
Proof.
  intros w'.
  assert (E : fst (isChainValid w') = fst (isChainValid w)).
  { apply isChainValid_genesis_blind. reflexivity. }
  split; [exact E|]. intros H. rewrite E. exact H.
Qed.

Lemma genesis_tampering_undetected_witness :
  fst (isChainValid samplePage) = Ok true
  /\ fst (isChainValid
            (setChain
               (tamper 0 (fun g => setTimestamp (setData g sampleAbsent) 7)
                  (chain samplePage))
               samplePage)) = Ok true.
Proof.
  split; [reflexivity|].
  apply (genesis_tampering_undetected samplePage sampleAbsent 7).
  reflexivity.
Defined.

(** ** The duplicate guard *)

Lemma find_duplicate (sid today : jsstring) (c : list Block) :
  (exists b, In b c /\ studentId (data b) = sid /\ date (data b) = today) ->
  exists existing,
    find (fun block =>
            streq (date (data block)) today
            && streq (studentId (data block)) sid) c = Some existing
    /\ In existing c
    /\ studentId (data existing) = sid /\ date (data existing) = today.
Proof.
  intros [b [Hin [Hs Hd]]].
  destruct (find _ c) as [existing|] eqn:Hf.
  - exists existing. split; [reflexivity|].
    apply find_some in Hf. destruct Hf as [Hin' Hp].
    apply andb_true_iff in Hp. destruct Hp as [Hp1 Hp2].
    apply streq_eq in Hp1, Hp2. auto.
  - exfalso. pose proof (find_none _ _ Hf b Hin) as Hp. simpl in Hp.
    rewrite Hs, Hd, !streq_refl in Hp. discriminate.
Qed.

Lemma recordAttendance_found (statusValue label : string)
    (sid today : jsstring) (now : Z) (w : World) (existing : Block) :
  find (fun block =>
          streq (date (data block)) today
          && streq (studentId (data block)) sid) (chain w) = Some existing ->
  recordAttendance statusValue label sid today now w
  = (Ok tt,
     setMessageBox
       {| messageText :=
            lit "Attendance for Student ID " ++ sid
            ++ lit " on today (" ++ today
            ++ lit ") has already been marked as "
            ++ status (data existing) ++ lit ".";
          messageKind := info |} w).
Proof.
  intros Hf. unfold recordAttendance, bind, gets. rewrite Hf. reflexivity.
Qed.

Lemma markButtonClick_trimmed (statusValue label : string)
    (input today : jsstring) (now : Z) (w : World) :
  trim input <> [] ->
  markButtonClick statusValue label input today now w
  = recordAttendance statusValue label (trim input) today now w.
Proof.
  intros Hne. unfold markButtonClick.
  destruct (trim input); [contradiction|reflexivity].
Qed.

(** C4. When some record of the ledger already has the subject and the
    day, marking present or absent appends nothing: the call completes,
    the ledger and the store are as before, and the one thing that changes
    on the page is the message box, which then shows a note naming the
    status of the record found (the first such record).  So it is for the
    part of the handlers from the duplicate check on, and for both handlers
    on an input whose trimmed text is the subject. *)
Theorem recordAttendance_duplicate (statusValue label : string)
    (sid today : jsstring) (now : Z) (w : World) :
  (exists b, In b (chain w)
             /\ studentId (data b) = sid /\ date (data b) = today) ->
  exists existing,
    In existing (chain w)
    /\ studentId (data existing) = sid /\ date (data existing) = today
    /\ fst (recordAttendance statusValue label sid today now w) = Ok tt
    /\ messageBox (snd (recordAttendance statusValue label sid today now w))
       = Some {| messageText :=
                   lit "Attendance for Student ID " ++ sid
                   ++ lit " on today (" ++ today
                   ++ lit ") has already been marked as "
                   ++ status (data existing) ++ lit ".";
                 messageKind := info |}
    /\ chain (snd (recordAttendance statusValue label sid today now w))
       = chain w
    /\ List.length
         (chain (snd (recordAttendance statusValue label sid today now w)))
       = List.length (chain w)
    /\ localStorage (snd (recordAttendance statusValue label sid today now w))
       = localStorage w
    /\ summary (snd (recordAttendance statusValue label sid today now w))
       = summary w
    /\ blockchainDisplay
         (snd (recordAttendance statusValue label sid today now w))
       = blockchainDisplay w
    /\ console (snd (recordAttendance statusValue label sid today now w))
       = console w
    /\ (forall input,
          trim input = sid -> sid <> [] ->
          markPresentBtnClick input today now w
          = recordAttendance "present" "Present" sid today now w
          /\ markAbsentBtnClick input today now w
             = recordAttendance "absent" "Absent" sid today now w).
Proof.
  intros H.
  destruct (find_duplicate sid today (chain w) H)
    as [existing [Hf [Hin [Hs Hd]]]].
  exists existing.
  rewrite (recordAttendance_found statusValue label sid today now w
             existing Hf).
  repeat split; auto.
  - unfold markPresentBtnClick. rewrite markButtonClick_trimmed; congruence.
  - unfold markAbsentBtnClick. rewrite markButtonClick_trimmed; congruence.
Qed.

Lemma recordAttendance_duplicate_witness :
  (exists b, In b (chain samplePage)
             /\ studentId (data b) = lit "S1"
             /\ date (data b) = lit "2024-01-01")
  /\ messageBox samplePage = None
  /\ messageBox (snd (recordAttendance "absent" "Absent" (lit "S1")
                        (lit "2024-01-01") 1700000000003 samplePage))
     = Some {| messageText :=
                 lit "Attendance for Student ID S1 on today (2024-01-01) has already been marked as present.";
               messageKind := info |}
  /\ chain (snd (recordAttendance "absent" "Absent" (lit "S1")
                   (lit "2024-01-01") 1700000000003 samplePage))
     = chain samplePage
  /\ localStorage (snd (recordAttendance "absent" "Absent" (lit "S1")
                          (lit "2024-01-01") 1700000000003 samplePage))
     = localStorage samplePage.
Proof.
  assert (H : exists b, In b (chain samplePage)
                        /\ studentId (data b) = lit "S1"
                        /\ date (data b) = lit "2024-01-01").
  { exists sampleFirst. split; [right; left; reflexivity|].
    split; reflexivity. }
  split; [exact H|]. split; [reflexivity|].
  destruct (recordAttendance_duplicate "absent" "Absent" (lit "S1")
              (lit "2024-01-01") 1700000000003 samplePage H)
    as [existing [Hin [Hs [Hd [_ [Hm [Hc [_ [Hl _]]]]]]]]].
  assert (E : existing = sampleFirst).
  { destruct Hin as [<-|[<-|[<-|[]]]];
      [discriminate Hs|reflexivity|discriminate Hs]. }
  subst existing.
  split; [exact Hm|]. split; [exact Hc|exact Hl].
Defined.

(** ** One entry per subject per day *)

Lemma NoDup_snoc {A} (l : list A) (x : A) :
  NoDup l -> ~ In x l -> NoDup (l ++ [x]).
Proof.
  induction 1 as [|y l Hy Hl IH]; intros Hx; simpl.
  - constructor; [intros []|constructor].
  - constructor.
    + rewrite in_app_iff. intros [H|[H|[]]]; [contradiction|].
      apply Hx. left. symmetry. exact H.
    + apply IH. intros H. apply Hx. right. exact H.
Qed.

Lemma distinct_keys_uniquePerDay (c : list Block) :
  NoDup (map keyOf c) -> uniquePerDay c.
Proof.
  intros Hnd i j bi bj _ _ Hij Hi Hj [Hs Hd].
  apply Hij.
  rewrite NoDup_nth_error in Hnd. apply Hnd.
  - rewrite length_map. apply nth_error_Some. rewrite Hi. discriminate.
  - rewrite !nth_error_map, Hi, Hj. simpl. unfold keyOf.
    rewrite Hs, Hd. reflexivity.
Qed.

Lemma bind_chain {A B} (c : M A) (k : A -> M B) (w : World) :
  (forall a, readOnly (k a)) ->
  chain (snd (bind c k w)) = chain (snd (c w)).
Proof.
  intros Hk. unfold bind.
  destruct (c w) as [[a|e|] w']; simpl; auto. apply Hk.
Qed.

Lemma addBlock_chain (now : Z) (d : AttendanceData) (w : World) :
  chain (snd (addBlock now d w)) = chain w
  \/ exists b, data b = d /\ sealed b
               /\ chain (snd (addBlock now d w)) = chain w ++ [b].
Proof.
  destruct (addBlock_outcome now d w) as [[_ E]|[l [b [_ [Hb [_ E]]]]]].
  - left. rewrite E. reflexivity.
  - right. exists b. rewrite E. simpl.
    destruct (newBlock_fields _ _ _ _ _ Hb) as [_ [_ [Hd [_ Hs]]]]. auto.
Qed.

Lemma clearChain_run (now : Z) (w : World) :
  exists g, createGenesisBlock now = Ok g
            /\ clearChain now w
               = (Ok tt, setLocalStorage (Some (stringifyChain [g]))
                           (setChain [g] (setLocalStorage None w))).
Proof.
  destruct (createGenesisBlock_total now) as [g Hg]. exists g.
  split; [exact Hg|].
  unfold clearChain, bind, modify, lift, saveChain. rewrite Hg. reflexivity.
Qed.

Lemma boot_fresh (now : Z) (w : World) :
  boot now None = Ok w ->
  exists g, createGenesisBlock now = Ok g /\ w = blankPage [g] None.
Proof.
  unfold boot, newBlockchain. simpl.
  destruct (createGenesisBlock now) as [g|e|]; simpl; try discriminate.
  intros H. inversion H. exists g. split; reflexivity.
Qed.

Lemma recordAttendance_keys (statusValue label : string)
    (sid today : jsstring) (now : Z) (w : World) :
  NoDup (map keyOf (chain w)) ->
  NoDup (map keyOf
           (chain (snd (recordAttendance statusValue label sid today now w)))).
Proof.
  intros Hnd. unfold recordAttendance.
  unfold bind at 1. unfold gets at 1.
  destruct (find _ (chain w)) as [existing|] eqn:Hf.
  - exact Hnd.
  - rewrite bind_chain by auto 10 with page.
    destruct (addBlock_chain now
                {| studentId := sid; status := lit statusValue;
                   date := today |} w) as [->|[b [Hd [_ ->]]]];
      [exact Hnd|].
    rewrite map_app. simpl. apply NoDup_snoc; [exact Hnd|].
    rewrite in_map_iff. intros [x [Hk Hin]].
    pose proof (find_none _ _ Hf x Hin) as Hp. simpl in Hp.
    unfold keyOf in Hk. rewrite Hd in Hk. simpl in Hk.
    inversion Hk as [[Hs Ht]].
    rewrite Hs, Ht, !streq_refl in Hp. discriminate.
Qed.

Lemma handle_keys (e : Event) (w : World) :
  NoDup (map keyOf (chain w)) ->
  NoDup (map keyOf (chain (snd (handle e w)))).
Proof.
  intros Hnd.
  destruct e as [input today now|input today now|now]; simpl.
  - unfold markPresentBtnClick, markButtonClick.
    destruct (isEmpty (trim input)); [exact Hnd|].
    apply recordAttendance_keys, Hnd.
  - unfold markAbsentBtnClick, markButtonClick.
    destruct (isEmpty (trim input)); [exact Hnd|].
    apply recordAttendance_keys, Hnd.
  - unfold clearDataBtnClick.
    rewrite bind_chain by auto 10 with page.
    destruct (clearChain_run now w) as [g [_ ->]]. simpl.
    constructor; [intros []|constructor].
Qed.

Lemma reachable_keys (w : World) :
  reachable w -> NoDup (map keyOf (chain w)).
Proof.
  induction 1 as [now w Hb|w _ IH|w e _ IH].
  - destruct (boot_fresh now w Hb) as [g [_ ->]]. simpl.
    constructor; [intros []|constructor].
  - destruct (readOnly_windowOnload w) as [-> _]. exact IH.
  - apply handle_keys, IH.
Qed.

(** C5. On every page reached from a fresh ledger by marking present,
    marking absent and clearing, no two distinct records after the
    genesis record have the same [studentId] and the same [date]. *)
Theorem reachable_uniquePerDay (w : World) :
  reachable w -> uniquePerDay (chain w).
Proof.
  intros H. apply distinct_keys_uniquePerDay, reachable_keys, H.
Qed.

Lemma sampleReached_chain : chain sampleReached = sampleChain.
Proof. vm_compute. reflexivity. Qed.

Lemma reachable_uniquePerDay_witness :
  reachable sampleReached /\ uniquePerDay (chain sampleReached).
Proof.
  assert (R : reachable sampleReached).
  { cbv [sampleReached sampleSession fold_left].
    do 3 apply reachable_event.
    apply (reachable_boot 1700000000000). reflexivity. }
  split; [exact R|]. exact (reachable_uniquePerDay sampleReached R).
Defined.

(** ** The summary *)

Lemma updateAttendanceSummary_counts (w : World) (total present : nat)
    (shown : jsstring) :
  List.length (skipn 1 (chain w)) = total ->
  countPresent (skipn 1 (chain w)) = present ->
  toFixed 2 (attendancePercentageOf present total) = Some shown ->
  updateAttendanceSummary w
  = (Ok tt,
     setSummary
       {| totalDaysText := numberToString (Z.of_nat total);
          presentDaysText := numberToString (Z.of_nat present);
          absentDaysText := numberToString (Z.of_nat (total - present));
          attendancePercentageText := shown ++ lit "%";
          eligibilityStatusText :=
            eligibilityText total
              (85 <=? attendancePercentageOf present total)%float |}
       w).
Proof.
  intros Ht Hp Hs. unfold updateAttendanceSummary.
  rewrite Ht, Hp, Hs. reflexivity.
Qed.

(** The counter of the loop counts the records whose status is
    [present], in whatever order they come. *)
Lemma countPresent_statuses (blocks : list Block) :
  countPresent blocks
  = List.length
      (filter (fun st => streq st (lit "present"))
         (map (fun b => status (data b)) blocks)).
Proof.
  unfold countPresent.
  assert (G : forall n,
             fold_left
               (fun presentDays block =>
                  if streq (status (data block)) (lit "present")
                  then S presentDays else presentDays) blocks n
             = (n + List.length
                      (filter (fun st => streq st (lit "present"))
                         (map (fun b => status (data b)) blocks)))%nat).
  { induction blocks as [|b r IH]; intros n; [simpl; lia|].
    cbn [fold_left map filter]. rewrite IH.
    destruct (streq (status (data b)) (lit "present")); simpl; lia. }
  apply (G 0%nat).
Qed.

Lemma filter_length_Permutation {A} (f : A -> bool) (l l' : list A) :
  Permutation l l' ->
  List.length (filter f l) = List.length (filter f l').
Proof.
  induction 1 as [|x l l' _ IH|x y l|l l' l'' _ IH1 _ IH2]; simpl.
  - reflexivity.
  - destruct (f x); simpl; congruence.
  - destruct (f x), (f y); reflexivity.
  - congruence.
Qed.

(** A ledger whose records after the genesis block are [present] ones
    marked present and [absent] ones marked absent, in any order. *)
Lemma countPresent_Permutation (blocks : list Block) (present absent : nat) :
  Permutation (map (fun b => status (data b)) blocks)
    (repeat (lit "present") present ++ repeat (lit "absent") absent) ->
  List.length blocks = (present + absent)%nat
  /\ countPresent blocks = present.
Proof.
  intros H. split.
  - rewrite <- (length_map (fun b => status (data b)) blocks).
    rewrite (Permutation_length H), length_app, !repeat_length.
    reflexivity.
  - rewrite countPresent_statuses.
    rewrite (filter_length_Permutation _ _ _ H), filter_app, length_app.
    assert (P : forall n,
               List.length (filter (fun st => streq st (lit "present"))
                              (repeat (lit "present") n)) = n).
    { induction n as [|n IH]; [reflexivity|].
      cbn [repeat filter]. rewrite streq_refl. simpl. rewrite IH.
      reflexivity. }
    assert (Q : forall n,
               List.length (filter (fun st => streq st (lit "present"))
                              (repeat (lit "absent") n)) = 0%nat).
    { induction n as [|n IH]; [reflexivity|]. exact IH. }
    rewrite P, Q. lia.
Qed.

(** C6. On a ledger whose records after the genesis block are 17 marked
    present and 3 marked absent, in any order, the summary update shows
    20, 17, 3, 85.00% and eligible; with 16 and 4 it shows 80.00% and not
    eligible; with no record after the genesis record it shows 0.00% and
    N/A.  The page shows eligible exactly when there is a record and the
    percentage is at least 85, and N/A exactly when there is none. *)
Theorem summary_boundaries :
  (forall w,
      Permutation (map (fun b => status (data b)) (skipn 1 (chain w)))
        (repeat (lit "present") 17 ++ repeat (lit "absent") 3) ->
      attendancePercentageOf 17 20 = 85%float
      /\ fst (updateAttendanceSummary w) = Ok tt
      /\ summary (snd (updateAttendanceSummary w))
         = Some {| totalDaysText := lit "20"; presentDaysText := lit "17";
                   absentDaysText := lit "3";
                   attendancePercentageText := lit "85.00%";
                   eligibilityStatusText := lit "Eligible!" |})
  /\ (forall w,
         Permutation (map (fun b => status (data b)) (skipn 1 (chain w)))
           (repeat (lit "present") 16 ++ repeat (lit "absent") 4) ->
         attendancePercentageOf 16 20 = 80%float
         /\ fst (updateAttendanceSummary w) = Ok tt
         /\ summary (snd (updateAttendanceSummary w))
            = Some {| totalDaysText := lit "20"; presentDaysText := lit "16";
                      absentDaysText := lit "4";
                      attendancePercentageText := lit "80.00%";
                      eligibilityStatusText := lit "Not Eligible" |})
  /\ (forall w,
         skipn 1 (chain w) = [] ->
         attendancePercentageOf 0 0 = 0%float
         /\ fst (updateAttendanceSummary w) = Ok tt
         /\ summary (snd (updateAttendanceSummary w))
            = Some {| totalDaysText := lit "0"; presentDaysText := lit "0";
                      absentDaysText := lit "0";
                      attendancePercentageText := lit "0.00%";
                      eligibilityStatusText := lit "N/A" |})
  /\ (forall totalDays isEligible,
         (eligibilityText totalDays isEligible = lit "Eligible!"
          <-> (0 < totalDays)%nat /\ isEligible = true)
         /\ (eligibilityText totalDays isEligible = lit "N/A"
             <-> totalDays = 0%nat)).
Proof.
  split; [|split; [|split]].
  - intros w H.
    destruct (countPresent_Permutation _ 17 3 H) as [Hl Hp].
    rewrite (updateAttendanceSummary_counts w 20 17 (lit "85.00"))
      by (assumption || reflexivity).
    repeat split.
  - intros w H.
    destruct (countPresent_Permutation _ 16 4 H) as [Hl Hp].
    rewrite (updateAttendanceSummary_counts w 20 16 (lit "80.00"))
      by (assumption || reflexivity).
    repeat split.
  - intros w H.
    rewrite (updateAttendanceSummary_counts w 0 0 (lit "0.00"))
      by (rewrite ?H; reflexivity).
    repeat split.
  - intros totalDays isEligible. split; split.
    + destruct totalDays; [discriminate|].
      destruct isEligible; [split; [lia|reflexivity]|discriminate].
    + destruct totalDays; simpl; [intros [H _]; lia|].
      intros [_ ->]. reflexivity.
    + destruct totalDays; [reflexivity|].
      destruct isEligible; discriminate.
    + intros ->. reflexivity.
Qed.

(** A ledger of 17 records marked present and 3 marked absent, the absent
    ones first. *)
Lemma summary_boundaries_witness :
  Permutation
    (map (fun b => status (data b))
       (skipn 1 (chain (blankPage
          (sampleGenesis :: repeat sampleSecond 3 ++ repeat sampleFirst 17)
          None))))
    (repeat (lit "present") 17 ++ repeat (lit "absent") 3)
  /\ summary (blankPage
       (sampleGenesis :: repeat sampleSecond 3 ++ repeat sampleFirst 17)
       None) = None
  /\ summary (snd (updateAttendanceSummary
       (blankPage
          (sampleGenesis :: repeat sampleSecond 3 ++ repeat sampleFirst 17)
          None)))
     = Some {| totalDaysText := lit "20"; presentDaysText := lit "17";
               absentDaysText := lit "3";
               attendancePercentageText := lit "85.00%";
               eligibilityStatusText := lit "Eligible!" |}.
Proof.
  assert (P : Permutation
                (map (fun b => status (data b))
                   (skipn 1 (chain (blankPage
                      (sampleGenesis
                       :: repeat sampleSecond 3 ++ repeat sampleFirst 17)
                      None))))
                (repeat (lit "present") 17 ++ repeat (lit "absent") 3)).
  { change (Permutation
              (repeat (lit "absent") 3 ++ repeat (lit "present") 17)
              (repeat (lit "present") 17 ++ repeat (lit "absent") 3)).
    apply Permutation_app_comm. }
  split; [exact P|]. split; [reflexivity|].
  exact (proj2 (proj2 (proj1 summary_boundaries _ P))).
Defined.

(** ** What the fingerprint covers *)

Lemma utf8String_ascii_app (a b : jsstring) :
  isAscii a = true -> utf8String (a ++ b) = a ++ utf8String b.
Proof.
  induction a as [|u a IH]; [reflexivity|].
  simpl isAscii. rewrite andb_true_iff, N.ltb_lt. intros [Hu Ha].
  change (utf8String ((u :: a) ++ b))
    with (if isHighSurrogate u then
            match a ++ b with
            | [] => utf8 u
            | v :: rest' =>
                if isLowSurrogate v
                then utf8 (surrogatePair u v) ++ utf8String rest'
                else utf8 u ++ utf8String (a ++ b)
            end
          else utf8 u ++ utf8String (a ++ b)).
  destruct (ascii_not_surrogate u Hu) as [_ ->].
  rewrite (IH Ha). unfold utf8. apply N.ltb_lt in Hu. rewrite Hu.
  reflexivity.
Qed.

Lemma base64_groups (k : nat) :
  forall x y, List.length x = (3 * k)%nat ->
              base64 (x ++ y) = base64 x ++ base64 y
              /\ List.length (base64 x) = (4 * k)%nat.
Proof.
  induction k as [|k IH]; intros x y Hx.
  - destruct x; [split; reflexivity|discriminate].
  - destruct x as [|a [|b [|c x]]]; try (simpl in Hx; lia).
    assert (Hx' : List.length x = (3 * k)%nat) by (simpl in Hx; lia).
    destruct (IH x y Hx') as [E L].
    change (base64 ((a :: b :: c :: x) ++ y))
      with (base64Char (N.shiftr a 2)
            :: base64Char (N.lor (N.shiftl (N.land a 3) 4) (N.shiftr b 4))
            :: base64Char (N.lor (N.shiftl (N.land b 15) 2) (N.shiftr c 6))
            :: base64Char (N.land c 63)
            :: base64 (x ++ y)).
    rewrite E. split; [reflexivity|].
    simpl List.length. rewrite L. lia.
Qed.

(** The hash is the base64 text of the first 48 octets of the string that
    is encoded.  From index 1 on those lie within the index and the
    previous hash: neither the timestamp nor the payload reaches the
    hash. *)
Lemma calculateHashOf_prefix (i : Z) (prev : jsstring) (ts : Z)
    (d : AttendanceData) :
  isAscii prev = true ->
  (48 <= List.length (numberToString i ++ prev))%nat ->
  codeUnitsData d = true ->
  calculateHashOf i prev ts d
  = Ok (base64 (firstn 48 (numberToString i ++ prev))).
Proof.
  intros Hp Hlen Hd.
  assert (Ha : isAscii (numberToString i ++ prev) = true).
  { rewrite isAscii_app, numberToString_ascii, Hp. reflexivity. }
  rewrite calculateHashOf_wellFormed.
  - f_equal.
    rewrite (List.app_assoc (numberToString i) prev).
    rewrite <- (firstn_skipn 48 (numberToString i ++ prev)) at 1.
    rewrite <- List.app_assoc.
    rewrite utf8String_ascii_app by (apply isAscii_firstn, Ha).
    assert (L : List.length (firstn 48 (numberToString i ++ prev))
                = (3 * 16)%nat).
    { rewrite firstn_length_le by exact Hlen. reflexivity. }
    destruct (base64_groups 16 _
                (utf8String (skipn 48 (numberToString i ++ prev)
                             ++ numberToString ts ++ stringifyData d)) L)
      as [E B].
    rewrite E. rewrite firstn_app.
    replace (64 - List.length (base64 (firstn 48 (numberToString i ++ prev))))%nat
      with 0%nat by (rewrite B; reflexivity).
    rewrite firstn_all2 by (rewrite B; simpl; lia).
    simpl. apply List.app_nil_r.
  - apply wellFormed_ascii_app; [apply numberToString_ascii|].
    apply wellFormed_ascii_app; [exact Hp|].
    apply wellFormed_ascii_app; [apply numberToString_ascii|].
    rewrite <- (List.app_nil_r (stringifyData d)).
    apply stringifyData_wellFormed; [exact Hd|reflexivity].
Qed.

Lemma calculateHashOf_blind (i : Z) (prev : jsstring) (ts ts' : Z)
    (d d' : AttendanceData) :
  isAscii prev = true ->
  (48 <= List.length (numberToString i ++ prev))%nat ->
  codeUnitsData d = true -> codeUnitsData d' = true ->
  calculateHashOf i prev ts d = calculateHashOf i prev ts' d'.
Proof.
  intros Hp Hl Hd Hd'.
  rewrite !calculateHashOf_prefix by assumption. reflexivity.
Qed.

(** C1. [calculateHash] is a function of the four fields and of nothing
    else: equal fields give equal hashes, whatever hash the block stores.
    Yet two inputs that differ in one field alone can
    have the same hash: at index 1, behind the 64-character hash of a
    genesis block, changing the payload's status from present to absent, or
    the timestamp, leaves the hash as it was. *)
Theorem calculateHash_collision :
  (forall b,
      calculateHash b
      = calculateHashOf (index b) (previousHash b) (timestamp b) (data b))
  /\ (forall b h, calculateHash (setHash b h) = calculateHash b)
  /\ samplePresent <> sampleAbsent
  /\ calculateHashOf 1 (hash sampleGenesis) 1700000000001 samplePresent
     = Ok (hash sampleFirst)
  /\ calculateHashOf 1 (hash sampleGenesis) 1700000000001 sampleAbsent
     = Ok (hash sampleFirst)
  /\ calculateHashOf 1 (hash sampleGenesis) 1700000000009 samplePresent
     = Ok (hash sampleFirst).
Proof.
  split; [reflexivity|]. split; [reflexivity|].
  split; [discriminate|].
  repeat split; vm_compute; reflexivity.
Qed.

(** ** Tampering with a payload *)

(** What a valid verdict says about the first block the loop looks at. *)
Lemma isChainValidFrom_valid_cons (i : nat) (p c : Block) (r : list Block)
    (w : World) :
  fst (isChainValidFrom i p (c :: r) w) = Ok true ->
  calculateHash c = Ok (hash c)
  /\ previousHash c = hash p
  /\ fst (isChainValidFrom (S i) c r w) = Ok true.
Proof.
  simpl. unfold bind, lift, modify, ret.
  destruct (calculateHash c) as [h|e|]; simpl; try discriminate.
  destruct (streq (hash c) h) eqn:E1; simpl; [|discriminate].
  destruct (streq (previousHash c) (hash p)) eqn:E2; simpl; [|discriminate].
  apply streq_eq in E1, E2. subst h. auto.
Qed.

(** C2.  The code does not do what C2 asks.  [samplePage] is a ledger
    of three blocks that the script built by two appends and that
    [isChainValid] accepts; its middle block records S1 as present.
    Changing that status to absent, no hash recomputed, is not noticed:
    [isChainValid] still returns true and logs nothing, the hash of the
    block being taken from its index and the previous hash alone (C1).
    The same change made to the genesis block is not noticed either, the
    loop starting at the block after it. *)
Lemma payload_tampering_undetected :
  produced samplePage
  /\ (2 <= List.length (chain samplePage))%nat
  /\ isChainValid samplePage = (Ok true, samplePage)
  /\ nth_error (chain samplePage) 1 = Some sampleFirst
  /\ data sampleFirst = samplePresent
  /\ status samplePresent <> status sampleAbsent
  /\ (let w' := setChain (tamper 1 (fun x => setData x sampleAbsent)
                            (chain samplePage)) samplePage in
      nth_error (chain w') 1 = Some (setData sampleFirst sampleAbsent)
      /\ fst (isChainValid w') = Ok true
      /\ console (snd (isChainValid w')) = [])
  /\ (let w' := setChain (tamper 0 (fun x => setData x sampleAbsent)
                            (chain samplePage)) samplePage in
      fst (isChainValid w') = Ok true
      /\ console (snd (isChainValid w')) = []).
Proof.
  split; [exact produced_samplePage|].
  split; [simpl; lia|].
  split; [vm_compute; reflexivity|].
  split; [reflexivity|]. split; [reflexivity|].
  split; [discriminate|].
  split; repeat split; vm_compute; reflexivity.
Qed.

(** ** Initialization *)

Lemma createGenesisBlock_fields (now : Z) (g : Block) :
  createGenesisBlock now = Ok g ->
  index g = 0%Z /\ timestamp g = now /\ data g = genesisData
  /\ previousHash g = lit "0" /\ sealed g.
Proof. apply newBlock_fields. Qed.

(** On a ledger of one sealed block an append completes, and what it
    leaves in the ledger and in the store depends on that block alone. *)
Lemma addBlock_after_genesis (g : Block) (w : World) (now : Z)
    (d : AttendanceData) :
  sealed g -> chain w = [g] -> codeUnitsData d = true ->
  exists b,
    newBlock (numberAdd (index g) 1) now d (hash g) = Ok b
    /\ fst (addBlock now d w) = Ok tt
    /\ chain (snd (addBlock now d w)) = [g; b]
    /\ localStorage (snd (addBlock now d w)) = Some (stringifyChain [g; b]).
Proof.
  intros Hs Hc Hd.
  assert (Hwf : wellFormed (hash g) = true)
    by (apply isAscii_wellFormed, sealed_ascii, Hs).
  destruct (newBlock_total (numberAdd (index g) 1) now d (hash g) Hwf Hd)
    as [b Hb].
  exists b. split; [exact Hb|].
  assert (Hl : getLatestBlock (chain w) = Some g) by (rewrite Hc; reflexivity).
  assert (Hn : (Z.of_nat (List.length (chain w)) < arrayMaxLength)%Z)
    by (rewrite Hc; reflexivity).
  rewrite (addBlock_run now d w g b Hl Hb Hn). simpl. rewrite Hc.
  repeat split; reflexivity.
Qed.

(** C3, as the script has it.  When the store holds no chain (the item is
    absent, or it is the empty string) the constructor completes with a
    ledger of exactly one genesis block and writes nothing: the store is
    as it was.  The store first gets a chain from the append or the reset
    that follows: the genesis block and the new block after an append, a
    new genesis block alone after a reset.  When the stored text does not
    parse, the constructor throws the parser's SyntaxError and builds no
    ledger. *)
Theorem boot_absent_or_unparseable (now : Z) :
  (forall stored,
      stored = None \/ stored = Some [] ->
      exists g,
        createGenesisBlock now = Ok g
        /\ index g = 0%Z /\ previousHash g = lit "0" /\ data g = genesisData
        /\ timestamp g = now
        /\ newBlockchain now stored = Ok [g]
        /\ boot now stored = Ok (blankPage [g] stored)
        /\ localStorage (blankPage [g] stored) = stored
        /\ loadChain (localStorage (blankPage [g] stored)) = Ok None
        /\ (forall now' d,
               codeUnitsData d = true ->
               exists b,
                 fst (addBlock now' d (blankPage [g] stored)) = Ok tt
                 /\ chain (snd (addBlock now' d (blankPage [g] stored)))
                    = [g; b]
                 /\ localStorage (snd (addBlock now' d (blankPage [g] stored)))
                    = Some (stringifyChain [g; b]))
        /\ (forall now',
               exists g',
                 createGenesisBlock now' = Ok g'
                 /\ fst (clearChain now' (blankPage [g] stored)) = Ok tt
                 /\ chain (snd (clearChain now' (blankPage [g] stored)))
                    = [g']
                 /\ localStorage (snd (clearChain now' (blankPage [g] stored)))
                    = Some (stringifyChain [g'])))
  /\ (forall text,
         text <> [] -> JSON_parse text = None ->
         newBlockchain now (Some text) = Throw SyntaxError
         /\ boot now (Some text) = Throw SyntaxError).
Proof.
  split.
  - intros stored Hs.
    destruct (createGenesisBlock_total now) as [g Hg]. exists g.
    destruct (createGenesisBlock_fields now g Hg) as [Hi [Ht [Hd [Hp Hse]]]].
    assert (E : newBlockchain now stored = Ok [g]).
    { unfold newBlockchain.
      destruct Hs as [-> | ->]; simpl; rewrite Hg; reflexivity. }
    split; [exact Hg|]. split; [exact Hi|]. split; [exact Hp|].
    split; [exact Hd|]. split; [exact Ht|]. split; [exact E|].
    split; [unfold boot; rewrite E; reflexivity|].
    split; [reflexivity|].
    split; [destruct Hs as [-> | ->]; reflexivity|]. split.
    + intros now' d Hcu.
      destruct (addBlock_after_genesis g (blankPage [g] stored) now' d Hse
                  eq_refl Hcu) as [b [_ H]].
      exists b. exact H.
    + intros now'.
      destruct (clearChain_run now' (blankPage [g] stored)) as [g' [Hg' ->]].
      exists g'. repeat split. exact Hg'.
  - intros text Hne Hp.
    assert (E : newBlockchain now (Some text) = Throw SyntaxError).
    { unfold newBlockchain, loadChain.
      destruct text as [|c r]; [contradiction|]. simpl isEmpty. cbv iota.
      rewrite Hp. reflexivity. }
    split; [exact E|]. unfold boot. rewrite E. reflexivity.
Qed.

Lemma boot_absent_or_unparseable_witness :
  ((None : option jsstring) = None \/ (None : option jsstring) = Some [])
  /\ (exists g,
         createGenesisBlock 1700000000000 = Ok g
         /\ boot 1700000000000 None = Ok (blankPage [g] None)
         /\ localStorage (blankPage [g] None) = None
         /\ exists b,
              localStorage (snd (addBlock 1700000000001 samplePresent
                                   (blankPage [g] None)))
              = Some (stringifyChain [g; b]))
  /\ lit "{" <> []
  /\ JSON_parse (lit "{") = None
  /\ newBlockchain 1700000000000 (Some (lit "{")) = Throw SyntaxError
  /\ boot 1700000000000 (Some (lit "{")) = Throw SyntaxError.
Proof.
  assert (H0 : (None : option jsstring) = None
               \/ (None : option jsstring) = Some []) by (left; reflexivity).
  assert (H1 : lit "{" <> []) by discriminate.
  assert (H2 : JSON_parse (lit "{") = None) by reflexivity.
  split; [exact H0|]. split.
  - destruct (proj1 (boot_absent_or_unparseable 1700000000000) None H0)
      as [g [Hg [_ [_ [_ [_ [_ [Hb [Hl [_ [Ha _]]]]]]]]]]].
    exists g. split; [exact Hg|]. split; [exact Hb|]. split; [exact Hl|].
    destruct (Ha 1700000000001%Z samplePresent eq_refl) as [b [_ [_ Hst]]].
    exists b. exact Hst.
  - split; [exact H1|]. split; [exact H2|].
    exact (proj2 (boot_absent_or_unparseable 1700000000000) (lit "{") H1 H2).
Defined.

(** C3 fails as stated on both counts: a stored text that does not parse
    makes the constructor throw, and with an absent item the one-block
    ledger is built and the store is left empty. *)
Lemma boot_neither_recovers_nor_persists :
  JSON_parse (lit "{") = None
  /\ boot 1700000000000 (Some (lit "{")) = Throw SyntaxError
  /\ boot 1700000000000 None = Ok (blankPage [sampleGenesis] None)
  /\ localStorage (blankPage [sampleGenesis] None) = None
  /\ loadChain (localStorage (blankPage [sampleGenesis] None)) = Ok None.
Proof.
  repeat split; vm_compute; reflexivity.
Qed.

(** ** JSON.parse after JSON.stringify *)

Lemma land_15_below (a : N) : N.land a 15 < 16.
Proof.
  change 15 with (N.ones 4). rewrite N.land_ones.
  apply N.mod_lt. discriminate.
Qed.

Lemma hexValue_hexLower (n : N) : n < 16 -> hexValue (hexLower n) = Some n.
Proof.
  intros Hn.
  pose proof (forall_below 16
    (fun n => match hexValue (hexLower n) with
              | Some v => v =? n
              | None => false
              end) eq_refl n Hn) as H.
  cbv beta in H.
  destruct (hexValue (hexLower n)) as [v|]; [|discriminate].
  apply N.eqb_eq in H. subst v. reflexivity.
Qed.

Lemma nibbles (u : N) :
  u < 0x10000 ->
  16 * (16 * (16 * (16 * 0 + N.land (N.shiftr u 12) 15)
              + N.land (N.shiftr u 8) 15)
        + N.land (N.shiftr u 4) 15)
  + N.land u 15 = u.
Proof.
  intros Hu.
  change 15 with (N.ones 4). rewrite !N.land_ones, !N.shiftr_div_pow2.
  change (2 ^ 12) with 4096. change (2 ^ 8) with 256.
  change (2 ^ 4) with 16.
  zify; Z.to_euclidean_division_equations; lia.
Qed.

Lemma unicodeEscape_hex (u : N) :
  u < 0x10000 ->
  hexNumber 0 [hexLower (N.land (N.shiftr u 12) 15);
               hexLower (N.land (N.shiftr u 8) 15);
               hexLower (N.land (N.shiftr u 4) 15);
               hexLower (N.land u 15)] = Some u.
Proof.
  intros Hu. cbn [hexNumber].
  rewrite !hexValue_hexLower by apply land_15_below.
  f_equal. apply nibbles, Hu.
Qed.

Lemma parse_unicodeEscape (u : N) (x : jsstring) :
  u < 0x10000 ->
  parseStringBody (unicodeEscape u ++ x) = consFst u (parseStringBody x).
Proof.
  intros Hu. unfold unicodeEscape.
  change (parseStringBody
            ([backslash; ch "u"; hexLower (N.land (N.shiftr u 12) 15);
              hexLower (N.land (N.shiftr u 8) 15);
              hexLower (N.land (N.shiftr u 4) 15);
              hexLower (N.land u 15)] ++ x))
    with (match hexNumber 0 [hexLower (N.land (N.shiftr u 12) 15);
                             hexLower (N.land (N.shiftr u 8) 15);
                             hexLower (N.land (N.shiftr u 4) 15);
                             hexLower (N.land u 15)] with
          | Some v => consFst v (parseStringBody x)
          | None => None
          end).
  rewrite (unicodeEscape_hex u Hu). reflexivity.
Qed.

Lemma parse_raw (u : N) (x : jsstring) :
  u <> dquote -> u <> backslash -> 32 <= u ->
  parseStringBody (u :: x) = consFst u (parseStringBody x).
Proof.
  intros H1 H2 H3. simpl.
  apply N.eqb_neq in H1, H2. rewrite H1, H2.
  replace (u <? 32) with false by (symmetry; apply N.ltb_ge; exact H3).
  reflexivity.
Qed.

Lemma parse_quoteUnit (u : N) (x : jsstring) :
  parseStringBody (quoteUnit u ++ x) = consFst u (parseStringBody x).
Proof.
  unfold quoteUnit.
  destruct (N.eqb_spec u 8) as [->|H8]; [reflexivity|].
  destruct (N.eqb_spec u 9) as [->|H9]; [reflexivity|].
  destruct (N.eqb_spec u 10) as [->|H10]; [reflexivity|].
  destruct (N.eqb_spec u 12) as [->|H12]; [reflexivity|].
  destruct (N.eqb_spec u 13) as [->|H13]; [reflexivity|].
  destruct (N.eqb_spec u dquote) as [->|Hq]; [reflexivity|].
  destruct (N.eqb_spec u backslash) as [->|Hb]; [reflexivity|].
  destruct (N.ltb_spec u 32) as [Hlt|Hge].
  - apply parse_unicodeEscape. lia.
  - apply parse_raw; assumption.
Qed.

Lemma surrogate_raw (u : N) :
  isHighSurrogate u = true \/ isLowSurrogate u = true ->
  u <> dquote /\ u <> backslash /\ 32 <= u /\ u < 0x10000.
Proof.
  unfold isHighSurrogate, isLowSurrogate, dquote, backslash.
  rewrite !andb_true_iff, !N.leb_le. intros [[? ?]|[? ?]]; lia.
Qed.

(** The parser reads a quoted string back, whatever follows the closing
    quote. *)
Lemma parse_quoteChars (s rest : jsstring) :
  parseStringBody (quoteChars s ++ dquote :: rest) = Some (s, rest).
Proof.
  induction s as [| u | u v t IHt IHv] using jsstring_pair_ind.
  - reflexivity.
  - cbn [quoteChars].
    destruct (isHighSurrogate u) eqn:Hh.
    + destruct (surrogate_raw u (or_introl Hh)) as [_ [_ [_ Hu]]].
      rewrite (parse_unicodeEscape u _ Hu). reflexivity.
    + destruct (isLowSurrogate u) eqn:Hl.
      * destruct (surrogate_raw u (or_intror Hl)) as [_ [_ [_ Hu]]].
        rewrite <- List.app_assoc, (parse_unicodeEscape u _ Hu).
        reflexivity.
      * rewrite <- List.app_assoc, parse_quoteUnit. reflexivity.
  - change (quoteChars (u :: v :: t))
      with (if isHighSurrogate u then
              if isLowSurrogate v then u :: v :: quoteChars t
              else unicodeEscape u ++ quoteChars (v :: t)
            else if isLowSurrogate u
                 then unicodeEscape u ++ quoteChars (v :: t)
                 else quoteUnit u ++ quoteChars (v :: t)).
    destruct (isHighSurrogate u) eqn:Hh.
    + destruct (surrogate_raw u (or_introl Hh)) as [Hq [Hb [Hge Hu]]].
      destruct (isLowSurrogate v) eqn:Hv.
      * destruct (surrogate_raw v (or_intror Hv)) as [Hq' [Hb' [Hge' _]]].
        rewrite <- !List.app_comm_cons.
        rewrite (parse_raw u _ Hq Hb Hge), (parse_raw v _ Hq' Hb' Hge'), IHt.
        reflexivity.
      * rewrite <- List.app_assoc, (parse_unicodeEscape u _ Hu), IHv.
        reflexivity.
    + destruct (isLowSurrogate u) eqn:Hl.
      * destruct (surrogate_raw u (or_intror Hl)) as [_ [_ [_ Hu]]].
        rewrite <- List.app_assoc, (parse_unicodeEscape u _ Hu), IHv.
        reflexivity.
      * rewrite <- List.app_assoc, parse_quoteUnit, IHv. reflexivity.
Qed.

Lemma quoteJSONString_app (s rest : jsstring) :
  quoteJSONString s ++ rest = dquote :: quoteChars s ++ dquote :: rest.
Proof.
  unfold quoteJSONString. simpl. rewrite <- List.app_assoc. reflexivity.
Qed.

Lemma skipSpace_plain (c : N) (r : jsstring) :
  isJSONSpace c = false -> skipSpace (c :: r) = c :: r.
Proof. intros H. cbn [skipSpace]. rewrite H. reflexivity. Qed.

Lemma parseValue_step (fuel : nat) (s : jsstring) :
  parseValue (S fuel) s
  = let t := skipSpace s in
    if headIs dquote t then
      match parseStringBody (tl t) with
      | Some (str, r) => Some (JStr str, r)
      | None => None
      end
    else if headIs (ch "[") t then
      if headIs (ch "]") (skipSpace (tl t))
      then Some (JArr [], tl (skipSpace (tl t)))
      else
        match parseElements fuel (tl t) with
        | Some (vs, r) => Some (JArr vs, r)
        | None => None
        end
    else if headIs (ch "{") t then
      if headIs (ch "}") (skipSpace (tl t))
      then Some (JObj [], tl (skipSpace (tl t)))
      else
        match parseMembers fuel (tl t) with
        | Some (ms, r) => Some (JObj ms, r)
        | None => None
        end
    else parseLiteral t.
Proof. reflexivity. Qed.

Lemma parseElements_step (fuel : nat) (s : jsstring) :
  parseElements (S fuel) s
  = match parseValue fuel s with
    | None => None
    | Some (v, r) =>
        let t := skipSpace r in
        if headIs (ch ",") t then
          match parseElements fuel (tl t) with
          | Some (vs, r') => Some (v :: vs, r')
          | None => None
          end
        else if headIs (ch "]") t then Some ([v], tl t)
        else None
    end.
Proof. reflexivity. Qed.

Lemma parseMembers_step (fuel : nat) (s : jsstring) :
  parseMembers (S fuel) s
  = let t := skipSpace s in
    if headIs dquote t then
      match parseStringBody (tl t) with
      | None => None
      | Some (key, r1) =>
          let t1 := skipSpace r1 in
          if headIs (ch ":") t1 then
            match parseValue fuel (tl t1) with
            | None => None
            | Some (v, r3) =>
                let t3 := skipSpace r3 in
                if headIs (ch ",") t3 then
                  match parseMembers fuel (tl t3) with
                  | Some (ms, r5) => Some ((key, v) :: ms, r5)
                  | None => None
                  end
                else if headIs (ch "}") t3 then Some ([(key, v)], tl t3)
                else None
            end
          else None
      end
    else None.
Proof. reflexivity. Qed.

Lemma parseValue_string (fuel : nat) (s rest : jsstring) :
  parseValue (S fuel) (quoteJSONString s ++ rest) = Some (JStr s, rest).
Proof.
  rewrite quoteJSONString_app, parseValue_step.
  rewrite (skipSpace_plain dquote) by reflexivity.
  cbv zeta. change (headIs dquote (dquote :: ?x)) with true.
  cbn [tl]. rewrite parse_quoteChars. reflexivity.
Qed.

Lemma digitsOf_uint_chars (d : Decimal.uint) : digitsOf (uint_chars d) = d.
Proof. induction d; simpl; rewrite ?IHd; reflexivity. Qed.

Lemma takeDigits_uint_chars (d : Decimal.uint) (rest : jsstring) :
  startsWith isDigit rest = false ->
  takeDigits (uint_chars d ++ rest) = (uint_chars d, rest).
Proof.
  intros Hr. induction d; simpl; rewrite ?IHd; try reflexivity.
  destruct rest as [|c r]; [reflexivity|].
  simpl in Hr. simpl. rewrite Hr. reflexivity.
Qed.

Lemma nzhead_head (d : Decimal.uint) :
  match Decimal.nzhead d with
  | Decimal.D0 _ => False
  | _ => True
  end.
Proof. induction d; simpl; auto. Qed.

(** The numeral of a number has no leading zero. *)
Lemma to_uint_head (n : N) :
  match N.to_uint n with
  | Decimal.Nil => False
  | Decimal.D0 d => d = Decimal.Nil
  | _ => True
  end.
Proof.
  assert (E : N.to_uint n = Decimal.unorm (N.to_uint n)).
  { rewrite <- DecimalN.Unsigned.to_of, DecimalN.Unsigned.of_to.
    reflexivity. }
  rewrite E. unfold Decimal.unorm.
  pose proof (nzhead_head (N.to_uint n)) as H.
  destruct (Decimal.nzhead (N.to_uint n)); auto. contradiction.
Qed.

Lemma uint_chars_digit (d : Decimal.uint) :
  match uint_chars d with
  | [] => d = Decimal.Nil
  | c :: _ => isDigit c = true
  end.
Proof. destruct d; reflexivity. Qed.

Lemma stripPrefix_mismatch (x c : N) (w r : jsstring) :
  x <> c -> stripPrefix (x :: w) (c :: r) = None.
Proof.
  intros H. cbn [stripPrefix]. apply N.eqb_neq in H. rewrite H.
  reflexivity.
Qed.

(** A value that starts with a digit or a minus sign is read as a
    number. *)
Lemma parseValue_dispatch_number (fuel : nat) (c : N) (r : jsstring) :
  isDigit c = true \/ c = 45 ->
  parseValue (S fuel) (c :: r) = parseNumber (c :: r).
Proof.
  intros Hc.
  assert (H : isJSONSpace c = false /\ (dquote =? c) = false
              /\ (ch "[" =? c) = false /\ (ch "{" =? c) = false
              /\ 116 <> c /\ 102 <> c /\ 110 <> c).
  { destruct Hc as [Hd| ->];
      [|repeat split; (reflexivity || discriminate)].
    unfold isDigit in Hd. apply andb_true_iff in Hd.
    rewrite !N.leb_le in Hd. unfold isJSONSpace, dquote.
    rewrite !orb_false_iff, !N.eqb_neq.
    change (ch "[") with 91. change (ch "{") with 123. lia. }
  destruct H as [H1 [H2 [H3 [H4 [H5 [H6 H7]]]]]].
  rewrite parseValue_step, (skipSpace_plain c r H1). cbv zeta.
  unfold headIs. cbn [startsWith]. rewrite H2, H3, H4.
  unfold parseLiteral.
  change (lit "true") with (116 :: lit "rue").
  change (lit "false") with (102 :: lit "alse").
  change (lit "null") with (110 :: lit "ull").
  rewrite !stripPrefix_mismatch by assumption. reflexivity.
Qed.

Lemma digit_chars_not_minus (d : Decimal.uint) (rest : jsstring) :
  startsWith (N.eqb 45) (uint_chars d ++ ch "," :: rest) = false.
Proof.
  pose proof (uint_chars_digit d) as Hc.
  destruct (uint_chars d) as [|c r]; [reflexivity|].
  cbn [app startsWith]. unfold isDigit in Hc. apply andb_true_iff in Hc.
  rewrite !N.leb_le in Hc. apply N.eqb_neq. lia.
Qed.

Lemma parseUnsigned_natToString (neg : bool) (n : N) (rest : jsstring) :
  parseUnsigned neg (natToString n ++ ch "," :: rest)
  = Some (JNum (if neg then (- Z.of_N n)%Z else Z.of_N n), ch "," :: rest).
Proof.
  unfold parseUnsigned, natToString.
  pose proof (to_uint_head n) as Hh.
  pose proof (uint_chars_digit (N.to_uint n)) as Hc.
  rewrite takeDigits_uint_chars by reflexivity.
  destruct (uint_chars (N.to_uint n)) as [|c r] eqn:E.
  - rewrite Hc in Hh. contradiction.
  - assert (Hz : (c =? 48) && negb (isEmpty r) = false).
    { destruct (N.to_uint n) as [|d|d|d|d|d|d|d|d|d|d]; simpl in E;
        inversion E; subst; reflexivity. }
    rewrite Hz. simpl.
    unfold digitsValue. rewrite <- E, digitsOf_uint_chars.
    rewrite DecimalN.Unsigned.of_to. reflexivity.
Qed.

Lemma parseNumber_numberToString (z : Z) (rest : jsstring) :
  parseNumber (numberToString z ++ ch "," :: rest)
  = Some (JNum z, ch "," :: rest).
Proof.
  unfold numberToString, parseNumber.
  destruct (Z.ltb_spec z 0) as [Hz|Hz].
  - cbn [app startsWith tl]. change (45 =? 45) with true. cbv iota.
    rewrite parseUnsigned_natToString.
    replace (- Z.of_N (Z.to_N (- z)))%Z with z by lia. reflexivity.
  - unfold natToString at 1. rewrite digit_chars_not_minus.
    rewrite parseUnsigned_natToString.
    replace (Z.of_N (Z.to_N z)) with z by lia. reflexivity.
Qed.

Lemma numberToString_head (z : Z) :
  exists c r, numberToString z = c :: r /\ (isDigit c = true \/ c = 45).
Proof.
  unfold numberToString. destruct (z <? 0)%Z.
  - exists 45, (natToString (Z.to_N (- z))). auto.
  - unfold natToString.
    pose proof (to_uint_head (Z.to_N z)) as Hh.
    pose proof (uint_chars_digit (N.to_uint (Z.to_N z))) as Hc.
    destruct (uint_chars (N.to_uint (Z.to_N z))) as [|c r].
    + rewrite Hc in Hh. contradiction.
    + exists c, r. auto.
Qed.

Lemma parseValue_number (fuel : nat) (z : Z) (rest : jsstring) :
  parseValue (S fuel) (numberToString z ++ ch "," :: rest)
  = Some (JNum z, ch "," :: rest).
Proof.
  destruct (numberToString_head z) as [c [r [E Hc]]].
  rewrite <- parseNumber_numberToString. rewrite E.
  apply (parseValue_dispatch_number fuel c (r ++ ch "," :: rest) Hc).
Qed.

Lemma member_app (key : string) (value rest : jsstring) :
  member key value ++ rest
  = dquote :: quoteChars (lit key) ++ dquote :: ch ":" :: value ++ rest.
Proof.
  unfold member. rewrite <- List.app_assoc, quoteJSONString_app.
  reflexivity.
Qed.

(** The member [key:value] at the head of the text, once the parser has
    read the key, the colon and the value. *)
Lemma parseMembers_member (fuel : nat) (key : string)
    (value tail : jsstring) (v : json) :
  parseValue fuel (value ++ tail) = Some (v, tail) ->
  parseMembers (S fuel) (member key value ++ tail)
  = let t3 := skipSpace tail in
    if headIs (ch ",") t3 then
      match parseMembers fuel (tl t3) with
      | Some (ms, r5) => Some ((lit key, v) :: ms, r5)
      | None => None
      end
    else if headIs (ch "}") t3 then Some ([(lit key, v)], tl t3)
    else None.
Proof.
  intros Hv. rewrite member_app, parseMembers_step.
  rewrite (skipSpace_plain dquote) by reflexivity. cbv zeta.
  change (headIs dquote (dquote :: ?x)) with true. cbn [tl].
  rewrite parse_quoteChars.
  rewrite (skipSpace_plain (ch ":")) by reflexivity.
  change (headIs (ch ":") (ch ":" :: ?x)) with true. cbn [tl].
  rewrite Hv. reflexivity.
Qed.

Lemma parseMembers_more (fuel : nat) (key : string)
    (value more : jsstring) (v : json) (ms : list (jsstring * json))
    (rest : jsstring) :
  parseValue fuel (value ++ ch "," :: more) = Some (v, ch "," :: more) ->
  parseMembers fuel more = Some (ms, rest) ->
  parseMembers (S fuel) (member key value ++ ch "," :: more)
  = Some ((lit key, v) :: ms, rest).
Proof.
  intros Hv Hm. rewrite (parseMembers_member fuel key value _ v Hv).
  rewrite (skipSpace_plain (ch ",")) by reflexivity. cbv zeta.
  change (headIs (ch ",") (ch "," :: ?x)) with true. cbn [tl].
  rewrite Hm. reflexivity.
Qed.

Lemma parseMembers_last (fuel : nat) (key : string)
    (value rest : jsstring) (v : json) :
  parseValue fuel (value ++ ch "}" :: rest) = Some (v, ch "}" :: rest) ->
  parseMembers (S fuel) (member key value ++ ch "}" :: rest)
  = Some ([(lit key, v)], rest).
Proof.
  intros Hv. rewrite (parseMembers_member fuel key value _ v Hv).
  rewrite (skipSpace_plain (ch "}")) by reflexivity. cbv zeta.
  change (headIs (ch ",") (ch "}" :: ?x)) with false.
  change (headIs (ch "}") (ch "}" :: ?x)) with true. reflexivity.
Qed.

(** An object whose first member is at hand. *)
Lemma parseValue_object (fuel : nat) (key : string)
    (value tail : jsstring) (ms : list (jsstring * json)) (rest : jsstring) :
  parseMembers fuel (member key value ++ tail) = Some (ms, rest) ->
  parseValue (S fuel) (ch "{" :: member key value ++ tail)
  = Some (JObj ms, rest).
Proof.
  intros Hm. rewrite parseValue_step.
  rewrite (skipSpace_plain (ch "{")) by reflexivity. cbv zeta.
  change (headIs dquote (ch "{" :: ?x)) with false.
  change (headIs (ch "[") (ch "{" :: ?x)) with false.
  change (headIs (ch "{") (ch "{" :: ?x)) with true. cbn [tl].
  rewrite Hm. rewrite member_app.
  rewrite (skipSpace_plain dquote) by reflexivity.
  change (headIs (ch "}") (dquote :: ?x)) with false. reflexivity.
Qed.

Lemma stringifyData_app (d : AttendanceData) (rest : jsstring) :
  stringifyData d ++ rest
  = ch "{"
    :: member "studentId" (quoteJSONString (studentId d)) ++ ch ","
    :: member "status" (quoteJSONString (status d)) ++ ch ","
    :: member "date" (quoteJSONString (date d)) ++ ch "}" :: rest.
Proof.
  unfold stringifyData, serializeObject. cbn [joinComma].
  rewrite <- List.app_comm_cons. f_equal.
  repeat (rewrite <- List.app_assoc; cbn [app]). reflexivity.
Qed.

Lemma parseValue_data (fuel : nat) (d : AttendanceData) (rest : jsstring) :
  parseValue (5 + fuel) (stringifyData d ++ rest) = Some (dataJSON d, rest).
Proof.
  rewrite stringifyData_app.
  apply (parseValue_object (4 + fuel)).
  apply (parseMembers_more (3 + fuel)); [apply parseValue_string|].
  apply (parseMembers_more (2 + fuel)); [apply parseValue_string|].
  apply (parseMembers_last (1 + fuel)). apply parseValue_string.
Qed.

Lemma stringifyBlock_app (b : Block) (rest : jsstring) :
  stringifyBlock b ++ rest
  = ch "{"
    :: member "index" (numberToString (index b)) ++ ch ","
    :: member "timestamp" (numberToString (timestamp b)) ++ ch ","
    :: member "data" (stringifyData (data b)) ++ ch ","
    :: member "previousHash" (quoteJSONString (previousHash b)) ++ ch ","
    :: member "hash" (quoteJSONString (hash b)) ++ ch "}" :: rest.
Proof.
  unfold stringifyBlock, serializeObject. cbn [joinComma].
  rewrite <- List.app_comm_cons. f_equal.
  repeat (rewrite <- List.app_assoc; cbn [app]). reflexivity.
Qed.

Lemma parseValue_block (fuel : nat) (b : Block) (rest : jsstring) :
  parseValue (9 + fuel) (stringifyBlock b ++ rest) = Some (blockJSON b, rest).
Proof.
  rewrite stringifyBlock_app.
  apply (parseValue_object (8 + fuel)).
  apply (parseMembers_more (7 + fuel)); [apply parseValue_number|].
  apply (parseMembers_more (6 + fuel)); [apply parseValue_number|].
  apply (parseMembers_more (5 + fuel)); [apply parseValue_data|].
  apply (parseMembers_more (4 + fuel)); [apply parseValue_string|].
  apply (parseMembers_last (3 + fuel)). apply parseValue_string.
Qed.

Lemma parseElements_chain (c : list Block) :
  forall (b : Block) (fuel : nat) (rest : jsstring),
    parseElements (List.length (b :: c) + 9 + fuel)
      (joinComma (map stringifyBlock (b :: c)) ++ ch "]" :: rest)
    = Some (map blockJSON (b :: c), rest).
Proof.
  induction c as [|b' c IH]; intros b fuel rest.
  - change (List.length [b] + 9 + fuel)%nat with (S (9 + fuel)).
    change (joinComma (map stringifyBlock [b])) with (stringifyBlock b).
    rewrite parseElements_step, (parseValue_block fuel b).
    rewrite (skipSpace_plain (ch "]")) by reflexivity. cbv zeta.
    change (headIs (ch ",") (ch "]" :: ?x)) with false.
    change (headIs (ch "]") (ch "]" :: ?x)) with true. reflexivity.
  - change (joinComma (map stringifyBlock (b :: b' :: c)))
      with (stringifyBlock b ++ ch ","
            :: joinComma (map stringifyBlock (b' :: c))).
    rewrite <- List.app_assoc, <- List.app_comm_cons.
    change (List.length (b :: b' :: c) + 9 + fuel)%nat
      with (S (List.length (b' :: c) + 9 + fuel)).
    rewrite parseElements_step.
    replace (List.length (b' :: c) + 9 + fuel)%nat
      with (9 + (List.length (b' :: c) + fuel))%nat at 1 by lia.
    rewrite (parseValue_block _ b).
    rewrite (skipSpace_plain (ch ",")) by reflexivity. cbv zeta.
    change (headIs (ch ",") (ch "," :: ?x)) with true. cbn [tl].
    rewrite (IH b' fuel rest). reflexivity.
Qed.

Lemma parseValue_chain (b : Block) (c : list Block) (fuel : nat)
    (rest : jsstring) :
  parseValue (S (List.length (b :: c) + 9 + fuel))
    (stringifyChain (b :: c) ++ rest)
  = Some (JArr (map blockJSON (b :: c)), rest).
Proof.
  unfold stringifyChain, serializeArray.
  rewrite <- List.app_comm_cons, <- List.app_assoc.
  change ([ch "]"] ++ rest) with (ch "]" :: rest).
  pose proof (parseElements_chain c b fuel rest) as H.
  assert (E : exists t,
             joinComma (map stringifyBlock (b :: c)) ++ ch "]" :: rest
             = ch "{" :: t).
  { destruct c as [|b' c].
    - cbn [map joinComma]. rewrite stringifyBlock_app. eexists. reflexivity.
    - change (joinComma (map stringifyBlock (b :: b' :: c)))
        with (stringifyBlock b ++ ch ","
              :: joinComma (map stringifyBlock (b' :: c))).
      rewrite <- List.app_assoc, stringifyBlock_app.
      eexists. reflexivity. }
  destruct E as [t E].
  rewrite parseValue_step.
  rewrite (skipSpace_plain (ch "[")) by reflexivity. cbv zeta.
  change (headIs dquote (ch "[" :: ?x)) with false.
  change (headIs (ch "[") (ch "[" :: ?x)) with true. cbn [tl].
  rewrite H. rewrite E.
  rewrite (skipSpace_plain (ch "{")) by reflexivity.
  change (headIs (ch "]") (ch "{" :: ?x)) with false. reflexivity.
Qed.

Lemma joinComma_length (k : nat) (l : list jsstring) :
  Forall (fun x => (k <= List.length x)%nat) l ->
  (k * List.length l <= List.length (joinComma l))%nat.
Proof.
  induction 1 as [|x l Hx Hl IH]; [simpl; lia|].
  destruct l as [|y l].
  - simpl. lia.
  - change (joinComma (x :: y :: l)) with (x ++ ch "," :: joinComma (y :: l)).
    rewrite length_app. simpl List.length in *. lia.
Qed.

Lemma stringifyBlock_length (b : Block) :
  (3 <= List.length (stringifyBlock b))%nat.
Proof.
  rewrite <- (List.app_nil_r (stringifyBlock b)), stringifyBlock_app.
  rewrite member_app. simpl. lia.
Qed.

(** [JSON.parse(JSON.stringify(chain))] is the array of the blocks'
    trees. *)
Lemma JSON_parse_stringifyChain (c : list Block) :
  JSON_parse (stringifyChain c) = Some (JArr (map blockJSON c)).
Proof.
  destruct c as [|b c]; [reflexivity|].
  unfold JSON_parse.
  assert (L : (3 * List.length (b :: c)
               <= List.length (joinComma (map stringifyBlock (b :: c))))%nat).
  { rewrite <- (length_map stringifyBlock).
    apply joinComma_length. apply Forall_map.
    apply Forall_forall. intros x _. apply stringifyBlock_length. }
  assert (L' : List.length (stringifyChain (b :: c))
               = (2 + List.length (joinComma (map stringifyBlock (b :: c))))%nat).
  { unfold stringifyChain, serializeArray. simpl List.length.
    rewrite length_app. simpl. lia. }
  replace (2 * List.length (stringifyChain (b :: c)) + 2)%nat
    with (S (List.length (b :: c) + 9
             + (2 * List.length (stringifyChain (b :: c)) + 2
                - S (List.length (b :: c) + 9))))%nat
    by (simpl List.length in *; lia).
  rewrite <- (List.app_nil_r (stringifyChain (b :: c))) at 2.
  rewrite parseValue_chain. reflexivity.
Qed.

(** ** Loading what was saved *)

Lemma dataOfJSON_dataJSON (d : AttendanceData) :
  dataOfJSON (dataJSON d) = Some d.
Proof. destruct d. reflexivity. Qed.

Lemma rebuildBlock_blockJSON (b : Block) :
  (exists h, calculateHash b = Ok h) ->
  rebuildBlock (blockJSON b) = Ok b.
Proof.
  intros [h Hh]. unfold rebuildBlock, blockJSON.
  change (getProp (lit "index") _) with (Some (JNum (index b))).
  change (getProp (lit "timestamp") _) with (Some (JNum (timestamp b))).
  change (getProp (lit "data") _) with (Some (dataJSON (data b))).
  change (previousHashOf _) with (Some (previousHash b)).
  change (getProp (lit "hash") _) with (Some (JStr (hash b))).
  cbv iota. rewrite dataOfJSON_dataJSON.
  unfold newBlock. unfold calculateHash in Hh. rewrite Hh.
  destruct b. reflexivity.
Qed.

Lemma omap_rebuildBlock (c : list Block) :
  Forall (fun b => exists h, calculateHash b = Ok h) c ->
  omap rebuildBlock (map blockJSON c) = Ok c.
Proof.
  induction 1 as [|b c Hb _ IH]; [reflexivity|].
  cbn [map omap]. rewrite (rebuildBlock_blockJSON b Hb).
  cbn [obind]. rewrite IH. reflexivity.
Qed.

Lemma stringifyChain_not_empty (c : list Block) :
  isEmpty (stringifyChain c) = false.
Proof. reflexivity. Qed.

(** [loadChain] gives back the chain that [saveChain] wrote, every field
    of every block as it was and the hashes as stored, whenever the hash
    of each block can be computed. *)
Lemma loadChain_stringifyChain (c : list Block) :
  Forall (fun b => exists h, calculateHash b = Ok h) c ->
  loadChain (Some (stringifyChain c)) = Ok (Some c).
Proof.
  intros H. unfold loadChain.
  rewrite stringifyChain_not_empty, JSON_parse_stringifyChain.
  rewrite (omap_rebuildBlock c H). reflexivity.
Qed.

Lemma sealed_hashable (c : list Block) :
  Forall sealed c -> Forall (fun b => exists h, calculateHash b = Ok h) c.
Proof.
  apply Forall_impl. intros b Hb. exists (hash b). exact Hb.
Qed.

Lemma produced_sealed (w : World) : produced w -> Forall sealed (chain w).
Proof.
  induction 1 as [now w Hb|w now d _ IH|w now _ IH].
  - destruct (boot_fresh now w Hb) as [g [Hg ->]].
    destruct (createGenesisBlock_fields now g Hg) as [_ [_ [_ [_ Hs]]]].
    repeat constructor. exact Hs.
  - destruct (addBlock_chain now d w) as [->|[b [_ [Hs ->]]]]; [exact IH|].
    apply Forall_app. split; [exact IH|]. repeat constructor. exact Hs.
  - destruct (clearChain_run now w) as [g [Hg ->]].
    destruct (createGenesisBlock_fields now g Hg) as [_ [_ [_ [_ Hs]]]].
    repeat constructor. exact Hs.
Qed.

(** Once anything was appended or reset the store holds the ledger. *)
Lemma produced_stored (w : World) :
  produced w ->
  (localStorage w = None /\ exists g, chain w = [g])
  \/ localStorage w = Some (stringifyChain (chain w)).
Proof.
  induction 1 as [now w Hb|w now d _ IH|w now _ IH].
  - destruct (boot_fresh now w Hb) as [g [_ ->]]. left. simpl. eauto.
  - destruct (addBlock_outcome now d w) as [[_ E]|[l [b [_ [_ [_ E]]]]]].
    + rewrite E. exact IH.
    + rewrite E. right. reflexivity.
  - destruct (clearChain_run now w) as [g [_ ->]]. right. reflexivity.
Qed.

Lemma tamper_Forall (P : Block -> Prop) (f : Block -> Block)
    (c : list Block) :
  (forall x, P x -> P (f x)) -> Forall P c ->
  forall k, Forall P (tamper k f c).
Proof.
  intros Hf. induction 1 as [|b r Hb Hr IH]; intros k;
    [destruct k; constructor|].
  destruct k as [|k]; simpl; constructor; auto.
Qed.

Lemma tamper_at (f : Block -> Block) (c : list Block) :
  forall k x, nth_error (tamper k f c) k = Some x ->
              exists y, nth_error c k = Some y /\ x = f y.
Proof.
  induction c as [|b r IH]; intros k x H.
  - destruct k; discriminate.
  - destruct k as [|k]; simpl in *.
    + inversion H. exists b. auto.
    + apply (IH k x H).
Qed.

(** C8. For a ledger made by appends and resets alone, loading what
    [saveChain] stores gives the ledger back: the same blocks in the same
    order, each with its index, timestamp, payload, previous hash and
    hash.  A ledger built on what was loaded is that ledger, and what the
    store holds after an append or a reset loads back as the ledger as
    well.  The hash of a loaded block is the stored one and not one
    computed at load time: when the stored text carries another string as
    the hash of a block, the block is loaded with that string as its
    hash. *)
Theorem load_save_roundtrip (w : World) :
  produced w ->
  fst (saveChain w) = Ok tt
  /\ localStorage (snd (saveChain w)) = Some (stringifyChain (chain w))
  /\ loadChain (localStorage (snd (saveChain w))) = Ok (Some (chain w))
  /\ (forall now,
        newBlockchain now (localStorage (snd (saveChain w))) = Ok (chain w))
  /\ (localStorage w = None
      \/ loadChain (localStorage w) = Ok (Some (chain w)))
  /\ (forall k h',
         codeUnits h' = true ->
         exists loaded,
           loadChain
             (Some (stringifyChain
                      (tamper k
                         (fun b => {| index := index b;
                                      timestamp := timestamp b;
                                      data := data b;
                                      previousHash := previousHash b;
                                      hash := h' |})
                         (chain w))))
           = Ok (Some loaded)
           /\ List.length loaded = List.length (chain w)
           /\ (forall b, nth_error loaded k = Some b ->
                         hash b = h'
                         /\ exists b0,
                              nth_error (chain w) k = Some b0
                              /\ calculateHash b = Ok (hash b0)
                              /\ index b = index b0
                              /\ timestamp b = timestamp b0
                              /\ data b = data b0
                              /\ previousHash b = previousHash b0)).
Proof.
  intros Hp.
  assert (L : loadChain (Some (stringifyChain (chain w)))
              = Ok (Some (chain w))).
  { apply loadChain_stringifyChain, sealed_hashable, produced_sealed, Hp. }
  split; [reflexivity|]. split; [reflexivity|]. split; [exact L|].
  split.
  { intros now. unfold newBlockchain. simpl localStorage.
    rewrite L. reflexivity. }
  split.
  { destruct (produced_stored w Hp) as [[Hn _]|Hs]; [left; exact Hn|].
    right. rewrite Hs. exact L. }
  intros k h' _.
  set (f := fun b => {| index := index b; timestamp := timestamp b;
                        data := data b; previousHash := previousHash b;
                        hash := h' |}).
  exists (tamper k f (chain w)). split.
  - apply loadChain_stringifyChain.
    apply tamper_Forall;
      [|apply sealed_hashable, produced_sealed, Hp].
    intros x Hx. exact Hx.
  - split.
    + clear. generalize (chain w) as c. revert k.
      induction k as [|k IH]; intros [|b r]; simpl; auto.
    + intros b Hb. destruct (tamper_at f (chain w) k b Hb) as [b0 [H0 ->]].
      split; [reflexivity|]. exists b0. split; [exact H0|].
      pose proof (produced_sealed w Hp) as Hse.
      rewrite Forall_forall in Hse.
      split; [exact (Hse b0 (nth_error_In _ _ H0))|].
      repeat split.
Qed.

Lemma load_save_roundtrip_witness :
  produced samplePage
  /\ loadChain (localStorage (snd (saveChain samplePage)))
     = Ok (Some [sampleGenesis; sampleFirst; sampleSecond])
  /\ codeUnits (lit "0") = true
  /\ exists loaded,
       loadChain
         (Some (stringifyChain
                  [sampleGenesis;
                   {| index := 1; timestamp := 1700000000001;
                      data := samplePresent;
                      previousHash := hash sampleGenesis;
                      hash := lit "0" |};
                   sampleSecond]))
       = Ok (Some loaded)
       /\ forall b, nth_error loaded 1 = Some b ->
                    hash b = lit "0"
                    /\ calculateHash b = Ok (hash sampleFirst).
Proof.
  split; [exact produced_samplePage|].
  split; [exact (proj1 (proj2 (proj2
                   (load_save_roundtrip samplePage produced_samplePage))))|].
  split; [reflexivity|].
  destruct (proj2 (proj2 (proj2 (proj2 (proj2
              (load_save_roundtrip samplePage produced_samplePage)))))
              1%nat (lit "0") eq_refl) as [loaded [Hl [_ Hk]]].
  exists loaded. split; [exact Hl|].
  intros b Hb. destruct (Hk b Hb) as [Hh [b0 [H0 [Hc _]]]].
  split; [exact Hh|].
  assert (E : b0 = sampleFirst) by (inversion H0; reflexivity).
  rewrite Hc, E. reflexivity.
Defined.

(** ** Reset *)

(** C9. After [clearChain()] the ledger is one freshly built genesis
    block (index 0, previous hash [0], the sentinel payload), the store
    holds that one-block chain and nothing of what was there before, and
    an append goes as it does on a ledger that was just initialized from
    an empty store. *)
Theorem clearChain_fresh (w : World) (now : Z) :
  exists g,
    createGenesisBlock now = Ok g
    /\ index g = 0%Z /\ previousHash g = lit "0" /\ data g = genesisData
    /\ timestamp g = now
    /\ fst (clearChain now w) = Ok tt
    /\ chain (snd (clearChain now w)) = [g]
    /\ localStorage (snd (clearChain now w)) = Some (stringifyChain [g])
    /\ loadChain (localStorage (snd (clearChain now w))) = Ok (Some [g])
    /\ boot now None = Ok (blankPage [g] None)
    /\ forall now' d,
         codeUnitsData d = true ->
         exists b,
           fst (addBlock now' d (snd (clearChain now w))) = Ok tt
           /\ fst (addBlock now' d (blankPage [g] None)) = Ok tt
           /\ chain (snd (addBlock now' d (snd (clearChain now w)))) = [g; b]
           /\ chain (snd (addBlock now' d (blankPage [g] None))) = [g; b]
           /\ localStorage (snd (addBlock now' d (snd (clearChain now w))))
              = Some (stringifyChain [g; b])
           /\ localStorage (snd (addBlock now' d (blankPage [g] None)))
              = Some (stringifyChain [g; b]).
Proof.
  destruct (clearChain_run now w) as [g [Hg Hrun]].
  destruct (createGenesisBlock_fields now g Hg) as [Hi [Ht [Hd [Hp Hs]]]].
  exists g. rewrite Hrun. simpl fst. simpl snd.
  repeat (split; [solve [auto]|]).
  split.
  { simpl localStorage. apply loadChain_stringifyChain.
    repeat constructor. exists (hash g). exact Hs. }
  split.
  { unfold boot, newBlockchain. simpl. rewrite Hg. reflexivity. }
  intros now' d Hcu.
  destruct (addBlock_after_genesis g
              (setLocalStorage (Some (stringifyChain [g]))
                 (setChain [g] (setLocalStorage None w)))
              now' d Hs eq_refl Hcu) as [b [Hb [H1 [H2 H3]]]].
  destruct (addBlock_after_genesis g (blankPage [g] None) now' d Hs eq_refl
              Hcu) as [b' [Hb' [H1' [H2' H3']]]].
  assert (b' = b) by congruence. subst b'.
  exists b. auto 10.
Qed.

Lemma clearChain_fresh_witness :
  codeUnitsData samplePresent = true
  /\ chain (snd (clearChain 1700000000000 samplePage)) = [sampleGenesis]
  /\ localStorage (snd (clearChain 1700000000000 samplePage))
     = Some (stringifyChain [sampleGenesis])
  /\ chain (snd (addBlock 1700000000001 samplePresent
                   (snd (clearChain 1700000000000 samplePage))))
     = [sampleGenesis; sampleFirst]
  /\ chain (snd (addBlock 1700000000001 samplePresent
                   (blankPage [sampleGenesis] None)))
     = [sampleGenesis; sampleFirst].
Proof.
  assert (Hcu : codeUnitsData samplePresent = true) by reflexivity.
  destruct (clearChain_fresh samplePage 1700000000000)
    as [g [Hg [_ [_ [_ [_ [_ [Hc [Hl [_ [_ Happ]]]]]]]]]]].
  assert (Eg : g = sampleGenesis).
  { assert (E : createGenesisBlock 1700000000000 = Ok sampleGenesis)
      by (vm_compute; reflexivity).
    congruence. }
  subst g.
  destruct (Happ 1700000000001%Z samplePresent Hcu)
    as [b [_ [_ [H1 [H2 _]]]]].
  assert (Eb : b = sampleFirst).
  { assert (E : chain (snd (addBlock 1700000000001 samplePresent
                              (blankPage [sampleGenesis] None)))
                = [sampleGenesis; sampleFirst]) by (vm_compute; reflexivity).
    congruence. }
  subst b. auto.
Defined.

(** ** Every ledger the script builds is blind to its payloads *)

Lemma firstn_base64_prefix (x y : list N) :
  List.length x = 48%nat ->
  firstn 64 (base64 (x ++ y)) = base64 x
  /\ List.length (base64 x) = 64%nat.
Proof.
  intros L. destruct (base64_groups 16 x y L) as [E B].
  split; [|exact B].
  rewrite E, firstn_app.
  replace (64 - List.length (base64 x))%nat with 0%nat
    by (rewrite B; reflexivity).
  rewrite firstn_all2 by (rewrite B; simpl; lia).
  simpl. apply List.app_nil_r.
Qed.

Lemma calculateHashOf_full (i : Z) (prev : jsstring) (ts : Z)
    (d : AttendanceData) (h : jsstring) :
  isAscii prev = true ->
  (48 <= List.length (numberToString i ++ prev))%nat ->
  codeUnitsData d = true ->
  calculateHashOf i prev ts d = Ok h -> fullHash h.
Proof.
  intros Hp Hl Hd Hc.
  rewrite (calculateHashOf_prefix i prev ts d Hp Hl Hd) in Hc.
  inversion Hc as [Hh]. split.
  - apply base64_ascii.
  - assert (L : List.length (firstn 48 (numberToString i ++ prev))
                = 48%nat) by (rewrite firstn_length_le by exact Hl; reflexivity).
    exact (proj2 (firstn_base64_prefix _ [] L)).
Qed.

(** The genesis block is the one block whose hash reaches its content:
    the timestamp and the first 33 characters of the payload. *)
Lemma createGenesisBlock_full (now : Z) (g : Block) :
  createGenesisBlock now = Ok g -> fullHash (hash g).
Proof.
  intros Hg.
  destruct (createGenesisBlock_fields now g Hg) as [Hi [Ht [Hd [Hp Hs]]]].
  split; [apply sealed_ascii, Hs|].
  unfold sealed, calculateHash in Hs. rewrite Hi, Ht, Hd, Hp in Hs.
  set (content := numberToString 0 ++ lit "0" ++ numberToString now
                  ++ stringifyData genesisData) in *.
  assert (Ha : isAscii content = true).
  { unfold content. rewrite !isAscii_app, !numberToString_ascii.
    reflexivity. }
  assert (Hl : (48 <= List.length content)%nat).
  { unfold content. rewrite !length_app.
    change (List.length (stringifyData genesisData)) with 57%nat. lia. }
  assert (Hh : hash g = firstn 64 (base64 (utf8String content))).
  { pose proof (calculateHashOf_wellFormed 0 (lit "0") now genesisData
                  (isAscii_wellFormed _ Ha)) as E.
    fold content in E. congruence. }
  rewrite Hh.
  rewrite <- (List.app_nil_r content).
  rewrite utf8String_ascii_app by exact Ha.
  change (utf8String []) with (@nil N). rewrite List.app_nil_r.
  rewrite <- (firstn_skipn 48 content).
  destruct (firstn_base64_prefix (firstn 48 content) (skipn 48 content))
    as [E B]; [rewrite firstn_length_le by exact Hl; reflexivity|].
  rewrite E. exact B.
Qed.

Lemma last_cons {A} (l : list A) :
  forall x d, last (x :: l) d = last l x.
Proof.
  induction l as [|y l IH]; intros x d; [reflexivity|].
  change (last (x :: y :: l) d) with (last (y :: l) d).
  rewrite (IH y d), (IH y x). reflexivity.
Qed.

Lemma linkedFrom_snoc (rest : list Block) :
  forall p b,
    linkedFrom p rest ->
    previousHash b = hash (last rest p) -> sealed b ->
    linkedFrom p (rest ++ [b]).
Proof.
  induction rest as [|c r IH]; intros p b Hl Hp Hs.
  - simpl. auto.
  - destruct Hl as [H1 [H2 H3]].
    change (linkedFrom p (c :: (r ++ [b]))).
    simpl. repeat split; auto.
    apply IH; auto. rewrite <- (last_cons r c p). exact Hp.
Qed.

Lemma getLatestBlock_last (g : Block) (rest : list Block) :
  getLatestBlock (g :: rest) = Some (last rest g).
Proof.
  unfold getLatestBlock. simpl List.length.
  replace (S (List.length rest) - 1)%nat with (List.length rest) by lia.
  revert g. induction rest as [|c r IH]; intros g; [reflexivity|].
  simpl nth_error. rewrite IH, last_cons. reflexivity.
Qed.

(** A ledger made by appends and resets is a genesis block of the script
    followed by sealed blocks, each pointing to the one before. *)
Lemma produced_linked (w : World) :
  produced w ->
  exists now g rest,
    chain w = g :: rest /\ createGenesisBlock now = Ok g
    /\ linkedFrom g rest.
Proof.
  induction 1 as [now w Hb|w now d _ IH|w now _ IH].
  - destruct (boot_fresh now w Hb) as [g [Hg ->]].
    exists now, g, []. simpl. auto.
  - destruct IH as [now0 [g [rest [Hc [Hg Hl]]]]].
    destruct (addBlock_outcome now d w) as [[_ E]|[l [b [El [Hb [_ E]]]]]].
    + rewrite E. eauto 6.
    + rewrite E. simpl. rewrite Hc.
      exists now0, g, (rest ++ [b]). repeat split; auto.
      destruct (newBlock_fields _ _ _ _ _ Hb) as [_ [_ [_ [Hp Hs]]]].
      apply linkedFrom_snoc; auto.
      rewrite Hc, getLatestBlock_last in El. inversion El as [El'].
      rewrite El'. exact Hp.
  - destruct (clearChain_run now w) as [g [Hg ->]].
    exists now, g, []. simpl. auto.
Qed.

Lemma linkedFrom_valid (rest : list Block) :
  forall i p w, linkedFrom p rest ->
                isChainValidFrom i p rest w = (Ok true, w).
Proof.
  induction rest as [|b r IH]; intros i p w Hl; [reflexivity|].
  destruct Hl as [Hp [Hs Hr]].
  simpl. unfold bind, lift. unfold sealed in Hs.
  rewrite Hs, Hp, !streq_refl. simpl. apply IH, Hr.
Qed.

(** Such a ledger is valid, and checking it logs nothing. *)
Lemma produced_valid (w : World) :
  produced w -> isChainValid w = (Ok true, w).
Proof.
  intros Hp. destruct (produced_linked w Hp) as [now [g [rest [Hc [_ Hl]]]]].
  unfold isChainValid. rewrite Hc. apply linkedFrom_valid, Hl.
Qed.

Lemma sameSeal_refl (b : Block) : sameSeal b b.
Proof. repeat split. Qed.

Lemma isChainValidFrom_sameSeal (rest rest' : list Block) :
  Forall2 sameSeal rest rest' ->
  forall i p p' w w',
    hash p = hash p' ->
    fst (isChainValidFrom i p rest w) = fst (isChainValidFrom i p' rest' w').
Proof.
  induction 1 as [|b b' r r' [Hh [Hp Hc]] _ IH]; intros i p p' w w' Hpp;
    [reflexivity|].
  simpl. unfold bind, lift, modify, ret. rewrite <- Hc, <- Hh, <- Hp, <- Hpp.
  destruct (calculateHash b) as [h|e|]; try reflexivity.
  destruct (negb (streq (hash b) h)); [reflexivity|].
  destruct (negb (streq (previousHash b) (hash p))); [reflexivity|].
  apply IH, Hh.
Qed.

Lemma tamper_sameSeal (f : Block -> Block) (c : list Block) :
  forall k,
    (forall b, nth_error c k = Some b -> sameSeal b (f b)) ->
    Forall2 sameSeal c (tamper k f c).
Proof.
  induction c as [|b c IH]; intros k H; [destruct k; constructor|].
  destruct k as [|k]; simpl.
  - constructor; [apply H; reflexivity|].
    clear. induction c; constructor; auto using sameSeal_refl.
  - constructor; [apply sameSeal_refl|]. apply IH. intros x Hx.
    apply H. exact Hx.
Qed.

(** After the genesis block every block follows a hash of full length,
    as long as the payloads are made of code units. *)
Lemma linkedFrom_covered (rest : list Block) :
  forall p,
    fullHash (hash p) -> linkedFrom p rest ->
    Forall (fun b => codeUnitsData (data b) = true) rest ->
    Forall (fun b => fullHash (previousHash b)) rest.
Proof.
  induction rest as [|b r IH]; intros p Hf Hl Hcu; [constructor|].
  destruct Hl as [Hp [Hs Hr]]. inversion Hcu as [|? ? Hb Hcr]; subst.
  assert (Hfb : fullHash (previousHash b)) by (rewrite Hp; exact Hf).
  constructor; [exact Hfb|].
  apply (IH b); auto.
  destruct Hfb as [Ha Hlen].
  apply (calculateHashOf_full (index b) (previousHash b) (timestamp b)
           (data b)); auto.
  rewrite length_app, Hlen. lia.
Qed.

(** X1. The defect behind C1 and C2, in general: on a ledger made by appends
    and resets from payloads of code units, [isChainValid] returns true,
    and it still returns true, logging nothing, after the payload and the
    timestamp of any one block are replaced by others. *)
Theorem produced_ledger_blind (w : World) (k : nat) (d' : AttendanceData)
    (ts' : Z) :
  produced w ->
  Forall (fun b => codeUnitsData (data b) = true) (chain w) ->
  codeUnitsData d' = true ->
  let w' := setChain
              (tamper k (fun b => setTimestamp (setData b d') ts') (chain w))
              w in
  isChainValid w = (Ok true, w) /\ fst (isChainValid w') = Ok true.
Proof.
  intros Hp Hcu Hd' w'.
  pose proof (produced_valid w Hp) as Hv. split; [exact Hv|].
  subst w'. destruct k as [|k].
  { rewrite isChainValid_genesis_blind by reflexivity. rewrite Hv.
    reflexivity. }
  destruct (produced_linked w Hp) as [now [g [rest [Hc [Hg Hl]]]]].
  rewrite Hc in Hcu. inversion Hcu as [|? ? _ Hcr]; subst.
  pose proof (linkedFrom_covered rest g (createGenesisBlock_full now g Hg)
                Hl Hcr) as Hcov.
  replace (Ok true) with (fst (isChainValid w)) by (rewrite Hv; reflexivity).
  unfold isChainValid. simpl chain. rewrite Hc. simpl tamper. cbv iota.
  symmetry. apply isChainValidFrom_sameSeal; [|reflexivity].
  apply tamper_sameSeal. intros b Hb.
  apply nth_error_In in Hb.
  rewrite Forall_forall in Hcov, Hcr.
  destruct (Hcov b Hb) as [Ha Hlen].
  repeat split. unfold calculateHash. simpl.
  apply calculateHashOf_blind; auto.
  rewrite length_app, Hlen. lia.
Qed.

Lemma produced_ledger_blind_witness :
  produced samplePage
  /\ Forall (fun b => codeUnitsData (data b) = true) (chain samplePage)
  /\ codeUnitsData sampleAbsent = true
  /\ isChainValid samplePage = (Ok true, samplePage)
  /\ fst (isChainValid
            (setChain
               (tamper 1 (fun b => setTimestamp (setData b sampleAbsent) 7)
                  (chain samplePage))
               samplePage)) = Ok true.
Proof.
  assert (H2 : Forall (fun b => codeUnitsData (data b) = true)
                 (chain samplePage)) by (repeat constructor).
  split; [exact produced_samplePage|]. split; [exact H2|].
  split; [reflexivity|].
  exact (produced_ledger_blind samplePage 1 sampleAbsent 7
           produced_samplePage H2 eq_refl).
Defined.

(** ** The fuel of JSON.parse is enough *)

Lemma skipSpace_length (s : jsstring) :
  (List.length (skipSpace s) <= List.length s)%nat.
Proof.
  induction s as [|c r IH]; simpl; [lia|].
  destruct (isJSONSpace c); simpl; lia.
Qed.

Lemma startsWith_tl (p : N -> bool) (s : jsstring) :
  startsWith p s = true -> List.length s = S (List.length (tl s)).
Proof. destruct s; [discriminate|reflexivity]. Qed.

Lemma headIs_tl (c : N) (s : jsstring) :
  headIs c s = true -> List.length s = S (List.length (tl s)).
Proof. apply startsWith_tl. Qed.

Lemma tl_length (s : jsstring) : (List.length (tl s) <= List.length s)%nat.
Proof. destruct s; simpl; lia. Qed.

Lemma consFst_length (c : N) (o : option (jsstring * jsstring))
    (str r : jsstring) (n : nat) :
  consFst c o = Some (str, r) ->
  (forall str' r', o = Some (str', r') -> (List.length r' < n)%nat) ->
  (List.length r < n)%nat.
Proof.
  destruct o as [[str' r']|]; simpl; [|discriminate].
  intros H Hn. inversion H; subst. apply (Hn str' r). reflexivity.
Qed.

Lemma parseStringBody_length (n : nat) :
  forall s str r,
    (List.length s <= n)%nat ->
    parseStringBody s = Some (str, r) ->
    (List.length r < List.length s)%nat.
Proof.
  induction n as [|n IH]; intros s str r Hn H.
  - destruct s; [discriminate|simpl in Hn; lia].
  - destruct s as [|c s]; [discriminate|].
    cbn [parseStringBody] in H.
    destruct (c =? dquote).
    { inversion H; subst. simpl. lia. }
    destruct (c =? backslash).
    + destruct s as [|e s1]; [discriminate|].
      destruct (e =? ch "u").
      * destruct s1 as [|a [|b [|c' [|d s2]]]]; try discriminate.
        destruct (hexNumber 0 [a; b; c'; d]); [|discriminate].
        assert (G : (List.length r < List.length s2)%nat).
        { apply (consFst_length _ _ _ _ _ H). intros str' r' E.
          apply (IH s2 str' r'); [simpl in Hn; lia|exact E]. }
        simpl. lia.
      * destruct (simpleEscape e); [|discriminate].
        assert (G : (List.length r < List.length s1)%nat).
        { apply (consFst_length _ _ _ _ _ H). intros str' r' E.
          apply (IH s1 str' r'); [simpl in Hn; lia|exact E]. }
        simpl. lia.
    + destruct (c <? 32); [discriminate|].
      assert (G : (List.length r < List.length s)%nat).
      { apply (consFst_length _ _ _ _ _ H). intros str' r' E.
        apply (IH s str' r'); [simpl in Hn; lia|exact E]. }
      simpl. lia.
Qed.

Lemma takeDigits_length (s : jsstring) :
  List.length s
  = (List.length (fst (takeDigits s)) + List.length (snd (takeDigits s)))%nat.
Proof.
  induction s as [|c r IH]; [reflexivity|]. simpl.
  destruct (isDigit c); [|reflexivity].
  destruct (takeDigits r) as [ds rest]. simpl in *. lia.
Qed.

Lemma parseFraction_length (s frac r : jsstring) :
  parseFraction s = Some (frac, r) -> (List.length r <= List.length s)%nat.
Proof.
  unfold parseFraction. destruct (startsWith (N.eqb 46) s).
  - pose proof (takeDigits_length (tl s)) as L.
    pose proof (tl_length s) as T.
    destruct (takeDigits (tl s)) as [[|d ds] rest]; [discriminate|].
    intros H. inversion H; subst. simpl in L. lia.
  - intros H. inversion H; subst. lia.
Qed.

Lemma parseExponent_length (s expo r : jsstring) :
  parseExponent s = Some (expo, r) -> (List.length r <= List.length s)%nat.
Proof.
  unfold parseExponent.
  match goal with
  | |- context [if startsWith ?p s then _ else _] =>
      destruct (startsWith p s)
  end.
  - cbv zeta.
    match goal with
    | |- context [takeDigits ?x] => set (u := x)
    end.
    assert (Hu : (List.length u <= List.length s)%nat).
    { unfold u. pose proof (tl_length s) as T1.
      pose proof (tl_length (tl s)) as T2.
      match goal with
      | |- context [if ?b then _ else _] => destruct b
      end; lia. }
    pose proof (takeDigits_length u) as L.
    destruct (takeDigits u) as [[|d ds] rest]; [discriminate|].
    intros H. inversion H; subst. simpl in L. lia.
  - intros H. inversion H; subst. lia.
Qed.

Lemma parseUnsigned_length (neg : bool) (s : jsstring) (v : json)
    (r : jsstring) :
  parseUnsigned neg s = Some (v, r) -> (List.length r < List.length s)%nat.
Proof.
  unfold parseUnsigned. pose proof (takeDigits_length s) as L.
  destruct (takeDigits s) as [[|d ds] s2]; [discriminate|].
  destruct ((d =? 48) && negb (isEmpty ds)); [discriminate|].
  destruct (parseFraction s2) as [[frac s3]|] eqn:Ef; [|discriminate].
  destruct (parseExponent s3) as [[expo s4]|] eqn:Ee; [|discriminate].
  apply parseFraction_length in Ef. apply parseExponent_length in Ee.
  simpl in L.
  destruct (isEmpty frac && isEmpty expo); intros H; inversion H; subst; lia.
Qed.

Lemma parseNumber_length (s : jsstring) (v : json) (r : jsstring) :
  parseNumber s = Some (v, r) -> (List.length r < List.length s)%nat.
Proof.
  unfold parseNumber. pose proof (tl_length s) as T.
  destruct (startsWith (N.eqb 45) s); intros E;
    apply parseUnsigned_length in E; lia.
Qed.

Lemma stripPrefix_length (w : jsstring) :
  forall s r, stripPrefix w s = Some r ->
              List.length s = (List.length w + List.length r)%nat.
Proof.
  induction w as [|x w IH]; intros s r H.
  - inversion H. reflexivity.
  - destruct s as [|y s]; [discriminate|]. cbn [stripPrefix] in H.
    destruct (x =? y); [|discriminate].
    apply IH in H. simpl. lia.
Qed.

Lemma parseLiteral_length (s : jsstring) (v : json) (r : jsstring) :
  parseLiteral s = Some (v, r) -> (List.length r < List.length s)%nat.
Proof.
  unfold parseLiteral.
  destruct (stripPrefix (lit "true") s) as [r1|] eqn:E1.
  { intros H. inversion H; subst. apply stripPrefix_length in E1.
    simpl in E1. lia. }
  destruct (stripPrefix (lit "false") s) as [r2|] eqn:E2.
  { intros H. inversion H; subst. apply stripPrefix_length in E2.
    simpl in E2. lia. }
  destruct (stripPrefix (lit "null") s) as [r3|] eqn:E3.
  { intros H. inversion H; subst. apply stripPrefix_length in E3.
    simpl in E3. lia. }
  apply parseNumber_length.
Qed.

(** Every parse takes at least one unit of the text. *)
Lemma parse_consumes (fuel : nat) :
  (forall s v r, parseValue fuel s = Some (v, r) ->
                 (List.length r < List.length s)%nat)
  /\ (forall s vs r, parseElements fuel s = Some (vs, r) ->
                     (List.length r < List.length s)%nat)
  /\ (forall s ms r, parseMembers fuel s = Some (ms, r) ->
                     (List.length r < List.length s)%nat).
Proof.
  induction fuel as [|f [IHv [IHe IHm]]];
    [repeat split; intros; discriminate|].
  repeat split.
  - intros s v r H. rewrite parseValue_step in H. cbv zeta in H.
    pose proof (skipSpace_length s) as Ls.
    pose proof (tl_length (skipSpace s)) as Lt.
    pose proof (skipSpace_length (tl (skipSpace s))) as Lst.
    pose proof (tl_length (skipSpace (tl (skipSpace s)))) as Ltt.
    destruct (headIs dquote (skipSpace s)) eqn:Hq.
    { destruct (parseStringBody (tl (skipSpace s))) as [[str r']|] eqn:E;
        [|discriminate].
      inversion H; subst.
      apply (parseStringBody_length _ _ _ _ (le_n _)) in E. lia. }
    destruct (headIs (ch "[") (skipSpace s)) eqn:Ha.
    { apply headIs_tl in Ha.
      destruct (headIs (ch "]") (skipSpace (tl (skipSpace s)))).
      - inversion H; subst. lia.
      - destruct (parseElements f (tl (skipSpace s))) as [[vs r']|] eqn:E;
          [|discriminate].
        inversion H; subst. apply IHe in E. lia. }
    destruct (headIs (ch "{") (skipSpace s)) eqn:Ho.
    { apply headIs_tl in Ho.
      destruct (headIs (ch "}") (skipSpace (tl (skipSpace s)))).
      - inversion H; subst. lia.
      - destruct (parseMembers f (tl (skipSpace s))) as [[ms r']|] eqn:E;
          [|discriminate].
        inversion H; subst. apply IHm in E. lia. }
    apply parseLiteral_length in H. lia.
  - intros s vs r H. rewrite parseElements_step in H.
    destruct (parseValue f s) as [[v r0]|] eqn:Ev; [|discriminate].
    apply IHv in Ev. cbv zeta in H.
    pose proof (skipSpace_length r0) as Ls.
    pose proof (tl_length (skipSpace r0)) as Lt.
    destruct (headIs (ch ",") (skipSpace r0)).
    { destruct (parseElements f (tl (skipSpace r0))) as [[vs' r']|] eqn:E;
        [|discriminate].
      inversion H; subst. apply IHe in E. lia. }
    destruct (headIs (ch "]") (skipSpace r0)); [|discriminate].
    inversion H; subst. lia.
  - intros s ms r H. rewrite parseMembers_step in H. cbv zeta in H.
    pose proof (skipSpace_length s) as Ls.
    pose proof (tl_length (skipSpace s)) as Lt.
    destruct (headIs dquote (skipSpace s)); [|discriminate].
    destruct (parseStringBody (tl (skipSpace s))) as [[key r1]|] eqn:Ek;
      [|discriminate].
    apply (parseStringBody_length _ _ _ _ (le_n _)) in Ek.
    pose proof (skipSpace_length r1) as Ls1.
    pose proof (tl_length (skipSpace r1)) as Lt1.
    destruct (headIs (ch ":") (skipSpace r1)); [|discriminate].
    destruct (parseValue f (tl (skipSpace r1))) as [[v r3]|] eqn:Ev;
      [|discriminate].
    apply IHv in Ev.
    pose proof (skipSpace_length r3) as Ls3.
    pose proof (tl_length (skipSpace r3)) as Lt3.
    destruct (headIs (ch ",") (skipSpace r3)).
    { destruct (parseMembers f (tl (skipSpace r3))) as [[ms' r5]|] eqn:E;
        [|discriminate].
      inversion H; subst. apply IHm in E. lia. }
    destruct (headIs (ch "}") (skipSpace r3)); [|discriminate].
    inversion H; subst. lia.
Qed.

(** If any fuel lets a parse succeed, so does every fuel from twice the
    length of the text on (plus one for a value, two for elements or
    members). *)
Lemma parse_fuel (fuel : nat) :
  (forall s res, parseValue fuel s = Some res ->
     forall fuel', (2 * List.length s + 1 <= fuel')%nat ->
                   parseValue fuel' s = Some res)
  /\ (forall s res, parseElements fuel s = Some res ->
        forall fuel', (2 * List.length s + 2 <= fuel')%nat ->
                      parseElements fuel' s = Some res)
  /\ (forall s res, parseMembers fuel s = Some res ->
        forall fuel', (2 * List.length s + 2 <= fuel')%nat ->
                      parseMembers fuel' s = Some res).
Proof.
  induction fuel as [|f [IHv [IHe IHm]]];
    [repeat split; intros; discriminate|].
  destruct (parse_consumes f) as [Cv [Ce Cm]].
  repeat split.
  - intros s res H fuel' Hf.
    destruct fuel' as [|f']; [lia|].
    rewrite parseValue_step in *. cbv zeta in *.
    pose proof (skipSpace_length s) as Ls.
    pose proof (tl_length (skipSpace s)) as Lt.
    destruct (headIs dquote (skipSpace s)); [exact H|].
    destruct (headIs (ch "[") (skipSpace s)) eqn:Ha.
    { apply headIs_tl in Ha.
      destruct (headIs (ch "]") (skipSpace (tl (skipSpace s))));
        [exact H|].
      destruct (parseElements f (tl (skipSpace s))) as [[vs r']|] eqn:E;
        [|discriminate].
      rewrite (IHe _ _ E f') by lia. exact H. }
    destruct (headIs (ch "{") (skipSpace s)) eqn:Ho; [|exact H].
    apply headIs_tl in Ho.
    destruct (headIs (ch "}") (skipSpace (tl (skipSpace s))));
      [exact H|].
    destruct (parseMembers f (tl (skipSpace s))) as [[ms r']|] eqn:E;
      [|discriminate].
    rewrite (IHm _ _ E f') by lia. exact H.
  - intros s res H fuel' Hf.
    destruct fuel' as [|f']; [lia|].
    rewrite parseElements_step in *.
    destruct (parseValue f s) as [[v r0]|] eqn:Ev; [|discriminate].
    rewrite (IHv _ _ Ev f') by lia.
    apply Cv in Ev. cbv zeta in *.
    pose proof (skipSpace_length r0) as Ls.
    destruct (headIs (ch ",") (skipSpace r0)) eqn:Hc; [|exact H].
    apply headIs_tl in Hc.
    destruct (parseElements f (tl (skipSpace r0))) as [[vs' r']|] eqn:E;
      [|discriminate].
    rewrite (IHe _ _ E f') by lia. exact H.
  - intros s res H fuel' Hf.
    destruct fuel' as [|f']; [lia|].
    rewrite parseMembers_step in *. cbv zeta in *.
    pose proof (skipSpace_length s) as Ls.
    pose proof (tl_length (skipSpace s)) as Lt.
    destruct (headIs dquote (skipSpace s)); [|exact H].
    destruct (parseStringBody (tl (skipSpace s))) as [[key r1]|] eqn:Ek;
      [|exact H].
    apply (parseStringBody_length _ _ _ _ (le_n _)) in Ek.
    pose proof (skipSpace_length r1) as Ls1.
    pose proof (tl_length (skipSpace r1)) as Lt1.
    destruct (headIs (ch ":") (skipSpace r1)); [|exact H].
    destruct (parseValue f (tl (skipSpace r1))) as [[v r3]|] eqn:Ev;
      [|discriminate].
    rewrite (IHv _ _ Ev f') by lia.
    apply Cv in Ev.
    pose proof (skipSpace_length r3) as Ls3.
    pose proof (tl_length (skipSpace r3)) as Lt3.
    destruct (headIs (ch ",") (skipSpace r3)); [|exact H].
    destruct (parseMembers f (tl (skipSpace r3))) as [[ms' r5]|] eqn:E;
      [|discriminate].
    rewrite (IHm _ _ E f') by lia. exact H.
Qed.

(** The fuel [JSON_parse] gives its parser is as good as any: a text it
    rejects is rejected whatever the fuel. *)
Lemma parseValue_adequate (fuel : nat) (text : jsstring) (v : json)
    (rest : jsstring) :
  parseValue fuel text = Some (v, rest) ->
  parseValue (2 * List.length text + 2) text = Some (v, rest).
Proof.
  intros H. apply (proj1 (parse_fuel fuel) text (v, rest) H). lia.
Qed.

Lemma JSON_parse_rejects (text : jsstring) :
  JSON_parse text = None ->
  forall fuel v rest,
    parseValue fuel text = Some (v, rest) -> skipSpace rest <> [].
Proof.
  unfold JSON_parse. intros H fuel v rest Hp.
  rewrite (parseValue_adequate fuel text v rest Hp) in H.
  destruct (skipSpace rest); discriminate.
Qed.

(** ** What a session keeps of the ledger *)

Lemma bind_localStorage {A B} (c : M A) (k : A -> M B) (w : World) :
  (forall a, readOnly (k a)) ->
  localStorage (snd (bind c k w)) = localStorage (snd (c w)).
Proof.
  intros Hk. unfold bind.
  destruct (c w) as [[a|e|] w']; simpl; auto. apply Hk.
Qed.

(** What [addBlock] leaves in the ledger and in the store depends on the
    ledger alone. *)
Lemma addBlock_ledger (now : Z) (d : AttendanceData) (w w0 : World) :
  chain w = chain w0 -> localStorage w = localStorage w0 ->
  chain (snd (addBlock now d w)) = chain (snd (addBlock now d w0))
  /\ localStorage (snd (addBlock now d w))
     = localStorage (snd (addBlock now d w0)).
Proof.
  intros Hc Hs. unfold addBlock, bind, gets, lift, push, saveChain.
  rewrite Hc.
  destruct (getLatestBlock (chain w0)) as [l|]; simpl; [|auto].
  destruct (newBlock _ _ _ _) as [b|e|]; simpl; rewrite ?Hc; auto.
  destruct (arrayMaxLength <=? Z.of_nat (List.length (chain w0)))%Z;
    simpl; rewrite ?Hc; auto.
Qed.

(** The handler of a mark button when the guard finds no record. *)
Lemma recordAttendance_new (statusValue label : string)
    (sid today : jsstring) (now : Z) (w : World) :
  find (fun block =>
          streq (date (data block)) today
          && streq (studentId (data block)) sid) (chain w) = None ->
  recordAttendance statusValue label sid today now w
  = (addBlock now {| studentId := sid; status := lit statusValue;
                     date := today |} ;;
     updateAttendanceSummary ;;
     renderBlockchain ;;
     showMessage
       (lit "Attendance marked as " ++ lit label ++ lit " for Student ID: "
        ++ sid ++ lit "!")
       (lit "success")) w.
Proof.
  intros Hf. unfold recordAttendance. unfold bind at 1. unfold gets at 1.
  rewrite Hf. reflexivity.
Qed.

Lemma recordAttendance_ledger (statusValue label : string)
    (sid today : jsstring) (now : Z) (w : World) :
  (chain (snd (recordAttendance statusValue label sid today now w))
   = chain w
   /\ localStorage (snd (recordAttendance statusValue label sid today now w))
      = localStorage w)
  \/ exists d,
       chain (snd (recordAttendance statusValue label sid today now w))
       = chain (snd (addBlock now d w))
       /\ localStorage
            (snd (recordAttendance statusValue label sid today now w))
          = localStorage (snd (addBlock now d w)).
Proof.
  destruct (find (fun block =>
                    streq (date (data block)) today
                    && streq (studentId (data block)) sid) (chain w))
    as [existing|] eqn:Hf.
  - left. rewrite (recordAttendance_found _ _ _ _ _ _ existing Hf).
    split; reflexivity.
  - right. eexists. rewrite (recordAttendance_new _ _ _ _ _ _ Hf).
    rewrite bind_chain, bind_localStorage by auto 10 with page.
    split; reflexivity.
Qed.

(** A click leaves the ledger and the store as they were, or as an append
    or a reset leaves them. *)
Lemma handle_ledger (e : Event) (w : World) :
  (chain (snd (handle e w)) = chain w
   /\ localStorage (snd (handle e w)) = localStorage w)
  \/ (exists now d,
         chain (snd (handle e w)) = chain (snd (addBlock now d w))
         /\ localStorage (snd (handle e w))
            = localStorage (snd (addBlock now d w)))
  \/ (exists now,
         chain (snd (handle e w)) = chain (snd (clearChain now w))
         /\ localStorage (snd (handle e w))
            = localStorage (snd (clearChain now w))).
Proof.
  destruct e as [input today now|input today now|now]; simpl.
  - unfold markPresentBtnClick, markButtonClick.
    destruct (isEmpty (trim input)); [left; split; reflexivity|].
    destruct (recordAttendance_ledger "present" "Present" (trim input)
                today now w) as [H|[d H]]; [left; exact H|].
    right. left. exists now, d. exact H.
  - unfold markAbsentBtnClick, markButtonClick.
    destruct (isEmpty (trim input)); [left; split; reflexivity|].
    destruct (recordAttendance_ledger "absent" "Absent" (trim input)
                today now w) as [H|[d H]]; [left; exact H|].
    right. left. exists now, d. exact H.
  - right. right. exists now. unfold clearDataBtnClick.
    rewrite bind_chain, bind_localStorage by auto 10 with page.
    split; reflexivity.
Qed.

Lemma clearChain_ledger (now : Z) (w w0 : World) :
  chain (snd (clearChain now w)) = chain (snd (clearChain now w0))
  /\ localStorage (snd (clearChain now w))
     = localStorage (snd (clearChain now w0)).
Proof.
  destruct (clearChain_run now w) as [g [Hg ->]].
  destruct (clearChain_run now w0) as [g0 [Hg0 ->]].
  assert (g0 = g) by congruence. subst g0. split; reflexivity.
Qed.

(** What the constructor builds on the store a ledger made by appends and
    resets has left. *)
Lemma boot_again (w w0 w' : World) (now : Z) :
  produced w0 -> chain w = chain w0 -> localStorage w = localStorage w0 ->
  boot now (localStorage w) = Ok w' ->
  (localStorage w = None /\ boot now None = Ok w')
  \/ (chain w' = chain w /\ localStorage w' = localStorage w).
Proof.
  intros Hp Hc Hs Hb.
  destruct (produced_stored w0 Hp) as [[Hn _]|Hst].
  - left. rewrite Hs, Hn in *. auto.
  - right. rewrite Hs, Hst in Hb.
    assert (L : loadChain (Some (stringifyChain (chain w0)))
                = Ok (Some (chain w0)))
      by (apply loadChain_stringifyChain, sealed_hashable,
            produced_sealed, Hp).
    unfold boot, newBlockchain in Hb. rewrite L in Hb. simpl in Hb.
    injection Hb as <-. simpl. rewrite Hc, Hs, Hst. auto.
Qed.

Lemma visited_produced (w : World) :
  visited w ->
  exists w0, produced w0 /\ chain w = chain w0
             /\ localStorage w = localStorage w0.
Proof.
  induction 1 as [now w Hb|w _ IH|w e _ IH|w now w' _ IH Hb].
  - exists w. split; [apply (produced_fresh now), Hb|]. split; reflexivity.
  - destruct IH as [w0 [Hp [Hc Hs]]]. exists w0.
    destruct (readOnly_windowOnload w) as [-> ->]. auto.
  - destruct IH as [w0 [Hp [Hc Hs]]].
    destruct (handle_ledger e w) as [[-> ->]|[[now [d [-> ->]]]|[now [-> ->]]]].
    + exists w0. auto.
    + exists (snd (addBlock now d w0)).
      split; [apply produced_append, Hp|].
      apply addBlock_ledger; assumption.
    + exists (snd (clearChain now w0)).
      split; [apply produced_reset, Hp|].
      apply clearChain_ledger.
  - destruct IH as [w0 [Hp [Hc Hs]]].
    destruct (boot_again w w0 w' now Hp Hc Hs Hb) as [[_ Hf]|[Hc' Hs']].
    + exists w'. split; [apply (produced_fresh now), Hf|].
      split; reflexivity.
    + exists w0. split; [exact Hp|]. split; congruence.
Qed.

Lemma visited_linked (w : World) :
  visited w ->
  exists now g rest,
    chain w = g :: rest /\ createGenesisBlock now = Ok g
    /\ linkedFrom g rest.
Proof.
  intros H. destruct (visited_produced w H) as [w0 [Hp [Hc _]]].
  rewrite Hc. apply produced_linked, Hp.
Qed.

Lemma visited_sampleReached : visited sampleReached.
Proof.
  cbv [sampleReached sampleSession fold_left].
  do 3 apply visited_event.
  apply (visited_first 1700000000000). reflexivity.
Qed.

(** X2. On every page reached over any number of visits, from a first
    visit on an empty store by [window.onload], clicks and reloads,
    [isChainValid] returns true and logs nothing. *)
Theorem visited_valid (w : World) :
  visited w -> isChainValid w = (Ok true, w).
Proof.
  intros H. destruct (visited_linked w H) as [now [g [rest [Hc [_ Hl]]]]].
  unfold isChainValid. rewrite Hc. apply linkedFrom_valid, Hl.
Qed.

Lemma visited_valid_witness :
  visited sampleReached
  /\ isChainValid sampleReached = (Ok true, sampleReached).
Proof.
  split; [exact visited_sampleReached|].
  exact (visited_valid sampleReached visited_sampleReached).
Defined.

(** [addBlock] appends one block built on the latest one and stores the
    ledger, or it does not complete and leaves the page as it was. *)
Lemma addBlock_cases (now : Z) (d : AttendanceData) (w : World) :
  (fst (addBlock now d w) <> Ok tt /\ snd (addBlock now d w) = w)
  \/ exists l b,
       getLatestBlock (chain w) = Some l
       /\ newBlock (numberAdd (index l) 1) now d (hash l) = Ok b
       /\ addBlock now d w
          = (Ok tt,
             setLocalStorage (Some (stringifyChain (chain w ++ [b])))
               (setChain (chain w ++ [b]) w)).
Proof.
  destruct (addBlock_outcome now d w) as [H|[l [b [El [Hb [_ E]]]]]];
    [left; exact H|].
  right. exists l, b. auto.
Qed.

Lemma getLatestBlock_length (c : list Block) (l : Block) :
  getLatestBlock c = Some l ->
  (1 <= List.length c)%nat /\ nth_error c (List.length c - 1) = Some l.
Proof.
  unfold getLatestBlock. intros H. split; [|exact H].
  destruct c; [discriminate|]. simpl. lia.
Qed.

(** The index of a block is its position. *)
Lemma produced_indexed (w : World) :
  produced w ->
  forall i b, nth_error (chain w) i = Some b -> index b = Z.of_nat i.
Proof.
  induction 1 as [now w Hb|w now d _ IH|w now _ IH]; intros i b Hn.
  - destruct (boot_fresh now w Hb) as [g [Hg ->]].
    destruct i as [|i]; [|destruct i; discriminate].
    inversion Hn; subst b. apply (createGenesisBlock_fields now g Hg).
  - destruct (addBlock_outcome now d w)
      as [[_ E]|[l [nb [El [Hb [Hmax E]]]]]].
    + rewrite E in Hn. apply IH, Hn.
    + rewrite E in Hn. simpl in Hn.
      destruct (getLatestBlock_length _ _ El) as [Hlen Hl].
      destruct (Nat.lt_ge_cases i (List.length (chain w))) as [Hi|Hi].
      * rewrite nth_error_app1 in Hn by exact Hi. apply IH, Hn.
      * rewrite nth_error_app2 in Hn by exact Hi.
        destruct (i - List.length (chain w))%nat as [|n] eqn:En;
          [|destruct n; discriminate].
        inversion Hn; subst b.
        destruct (newBlock_fields _ _ _ _ _ Hb) as [-> _].
        rewrite (IH _ _ Hl), numberAdd_position by lia. lia.
  - destruct (clearChain_run now w) as [g [Hg E]]. rewrite E in Hn.
    destruct i as [|i]; [|destruct i; discriminate].
    inversion Hn; subst b. apply (createGenesisBlock_fields now g Hg).
Qed.

Lemma linkedFrom_nth (rest : list Block) :
  forall p i a b,
    linkedFrom p rest ->
    nth_error (p :: rest) i = Some a ->
    nth_error (p :: rest) (S i) = Some b ->
    previousHash b = hash a /\ sealed b.
Proof.
  induction rest as [|c r IH]; intros p i a b Hl Ha Hb.
  - destruct i; discriminate.
  - destruct Hl as [Hp [Hs Hr]]. destruct i as [|i].
    + inversion Ha; inversion Hb; subst. auto.
    + apply (IH c i a b Hr); assumption.
Qed.

(** X3. On every page reached over any number of visits, from a first
    visit on an empty store, the ledger is not empty; its first block has
    index 0, previous hash [0] and the genesis payload; the index of every
    block is its position and its hash is the one [calculateHash] gives;
    and every block after the first has the hash of the block before it as
    its previous hash, and that block's index plus one as its index. *)
Theorem visited_structure (w : World) :
  visited w ->
  exists g rest,
    chain w = g :: rest
    /\ index g = 0%Z /\ previousHash g = lit "0" /\ data g = genesisData
    /\ (forall i b,
          nth_error (chain w) i = Some b ->
          index b = Z.of_nat i /\ calculateHash b = Ok (hash b))
    /\ (forall i p b,
          nth_error (chain w) i = Some p ->
          nth_error (chain w) (S i) = Some b ->
          previousHash b = hash p /\ index b = (index p + 1)%Z).
Proof.
  intros H.
  destruct (visited_produced w H) as [w0 [Hp [Hc _]]].
  destruct (produced_linked w0 Hp) as [now [g [rest [Hc0 [Hg Hl]]]]].
  pose proof (produced_indexed w0 Hp) as Hi.
  pose proof (produced_sealed w0 Hp) as Hs.
  rewrite <- Hc in Hi, Hs, Hc0.
  destruct (createGenesisBlock_fields now g Hg) as [Hg0 [_ [Hgd [Hgp _]]]].
  exists g, rest. repeat (split; [assumption|]). split.
  - intros i b Hn. split; [apply Hi, Hn|].
    rewrite Forall_forall in Hs. apply Hs. apply nth_error_In in Hn.
    exact Hn.
  - intros i p b Ha Hb. rewrite Hc0 in Ha, Hb.
    split; [apply (linkedFrom_nth rest g i p b Hl Ha Hb)|].
    rewrite <- Hc0 in Ha, Hb.
    rewrite (Hi _ _ Ha), (Hi _ _ Hb). lia.
Qed.

Lemma visited_structure_witness :
  visited sampleReached
  /\ exists g rest,
       chain sampleReached = g :: rest
       /\ index g = 0%Z /\ previousHash g = lit "0" /\ data g = genesisData
       /\ (forall i b,
             nth_error (chain sampleReached) i = Some b ->
             index b = Z.of_nat i /\ calculateHash b = Ok (hash b))
       /\ (forall i p b,
             nth_error (chain sampleReached) i = Some p ->
             nth_error (chain sampleReached) (S i) = Some b ->
             previousHash b = hash p /\ index b = (index p + 1)%Z).
Proof.
  split; [exact visited_sampleReached|].
  exact (visited_structure sampleReached visited_sampleReached).
Defined.


Lemma sampleReached_stored :
  localStorage sampleReached = Some (stringifyChain sampleChain).
Proof. vm_compute. reflexivity. Qed.


(** ** The chain display *)

Lemma preserves_ret (P : World -> Prop) {A} (a : A) : preserves P (ret a).
Proof. intros w H. exact H. Qed.

Lemma preserves_lift (P : World -> Prop) {A} (o : outcome A) :
  preserves P (lift o).
Proof. intros w H. exact H. Qed.

Lemma preserves_gets (P : World -> Prop) {A} (f : World -> A) :
  preserves P (gets f).
Proof. intros w H. exact H. Qed.

Lemma preserves_modify (P : World -> Prop) (f : World -> World) :
  (forall w, P w -> P (f w)) -> preserves P (modify f).
Proof. intros H w Hw. apply H, Hw. Qed.

Lemma preserves_bind (P : World -> Prop) {A B} (c : M A) (k : A -> M B) :
  preserves P c -> (forall a, preserves P (k a)) -> preserves P (bind c k).
Proof.
  intros Hc Hk w Hw. unfold bind. specialize (Hc w Hw).
  destruct (c w) as [[a|e|] w']; simpl in *; auto. apply Hk, Hc.
Qed.

Lemma preserves_if (P : World -> Prop) {A} (b : bool) (c1 c2 : M A) :
  preserves P c1 -> preserves P c2 -> preserves P (if b then c1 else c2).
Proof. destruct b; auto. Qed.

#[local] Hint Resolve preserves_ret preserves_lift preserves_gets
  preserves_bind preserves_if : page.

Lemma frozenAt_showMessage (cards : list Card) (m t : jsstring) :
  preserves (frozenAt cards) (showMessage m t).
Proof. apply preserves_modify. intros w H. exact H. Qed.

Lemma frozenAt_logError (cards : list Card) (line : jsstring) :
  preserves (frozenAt cards) (modify (logError line)).
Proof. apply preserves_modify. intros w H. exact H. Qed.

Lemma frozenAt_updateAttendanceSummary (cards : list Card) :
  preserves (frozenAt cards) updateAttendanceSummary.
Proof.
  intros w H. unfold updateAttendanceSummary.
  destruct (toFixed 2 _); exact H.
Qed.

Lemma frozenAt_saveChain (cards : list Card) :
  preserves (frozenAt cards) saveChain.
Proof. intros w H. exact H. Qed.

Lemma frozenAt_addBlock (cards : list Card) (now : Z) (d : AttendanceData) :
  preserves (frozenAt cards) (addBlock now d).
Proof.
  intros w H.
  destruct (addBlock_cases now d w) as [[_ ->]|[l [b [_ [_ ->]]]]]; exact H.
Qed.

Lemma frozenAt_clearChain (cards : list Card) (now : Z) :
  preserves (frozenAt cards) (clearChain now).
Proof.
  intros w H. destruct (clearChain_run now w) as [g [_ ->]]. exact H.
Qed.

(** Once 'noBlocksMessage' has left the document, [renderBlockchain] logs
    one line and returns. *)
Lemma renderBlockchain_skips (w : World) :
  noBlocksMessageAttached w = false ->
  renderBlockchain w = (Ok tt, logError skippingRenderLine w).
Proof.
  intros H. unfold renderBlockchain, bind, gets. rewrite H. reflexivity.
Qed.

Lemma frozenAt_renderBlockchain (cards : list Card) :
  preserves (frozenAt cards) renderBlockchain.
Proof.
  intros w H. rewrite (renderBlockchain_skips w (proj1 H)). exact H.
Qed.

#[local] Hint Resolve frozenAt_showMessage frozenAt_logError
  frozenAt_updateAttendanceSummary frozenAt_saveChain frozenAt_addBlock
  frozenAt_clearChain frozenAt_renderBlockchain : page.

Lemma frozenAt_recordAttendance (cards : list Card)
    (statusValue label : string) (sid today : jsstring) (now : Z) :
  preserves (frozenAt cards)
    (recordAttendance statusValue label sid today now).
Proof.
  unfold recordAttendance. apply preserves_bind; auto with page.
  intros [existing|]; auto 10 with page.
Qed.

Lemma frozenAt_handle (cards : list Card) (e : Event) :
  preserves (frozenAt cards) (handle e).
Proof.
  destruct e as [input today now|input today now|now]; simpl.
  - unfold markPresentBtnClick, markButtonClick.
    apply preserves_if; auto using frozenAt_recordAttendance with page.
  - unfold markAbsentBtnClick, markButtonClick.
    apply preserves_if; auto using frozenAt_recordAttendance with page.
  - unfold clearDataBtnClick. auto 10 with page.
Qed.

Lemma frozenAt_session (cards : list Card) (es : list Event) :
  forall w, frozenAt cards w -> frozenAt cards (session es w).
Proof.
  induction es as [|e es IH]; intros w H; [exact H|].
  apply IH, frozenAt_handle, H.
Qed.

Lemma detached_renderCards (blocks : list Block) :
  preserves (fun w => noBlocksMessageAttached w = false)
    (renderCards blocks).
Proof.
  induction blocks as [|b rest IH]; simpl; auto with page.
  apply preserves_bind; auto with page. intros h.
  apply preserves_bind; [|intros _; exact IH].
  apply preserves_modify. intros w H. exact H.
Qed.

Lemma detached_isChainValid :
  preserves (fun w => noBlocksMessageAttached w = false) isChainValid.
Proof.
  intros w H. destruct (readOnly_isChainValid w) as [_ _].
  unfold isChainValid. destruct (chain w) as [|g rest]; [exact H|].
  revert w H. generalize 1%nat. revert g.
  induction rest as [|b rest IH]; intros g i w H; [exact H|].
  simpl. unfold bind, lift, modify, ret.
  destruct (calculateHash b) as [h|e|]; try exact H.
  destruct (negb (streq (hash b) h)); [exact H|].
  destruct (negb (streq (previousHash b) (hash g))); [exact H|].
  apply IH, H.
Qed.

(** Whatever happens in it, a call of [renderBlockchain] leaves
    'noBlocksMessage' out of the document. *)
Lemma renderBlockchain_detaches (w : World) :
  noBlocksMessageAttached (snd (renderBlockchain w)) = false.
Proof.
  destruct (noBlocksMessageAttached w) eqn:Ha.
  - unfold renderBlockchain. unfold bind at 1. unfold gets at 1.
    rewrite Ha. cbv [negb].
    assert (P : preserves (fun w => noBlocksMessageAttached w = false)
                  (blocks <- gets (fun w => skipn 1 (chain w)) ;;
                   renderCards blocks ;;
                   valid <- isChainValid ;;
                   if negb valid then
                     showMessage
                       (lit "Warning: The blockchain has been tampered with! Data integrity compromised.")
                       (lit "error")
                   else ret tt)).
    { apply preserves_bind; auto with page. intros blocks.
      apply preserves_bind; [apply detached_renderCards|]. intros _.
      apply preserves_bind; [apply detached_isChainValid|]. intros valid.
      apply preserves_if; auto with page.
      apply preserves_modify. intros w' H. exact H. }
    unfold bind at 1. unfold modify at 1. apply P. reflexivity.
  - rewrite (renderBlockchain_skips w Ha). exact Ha.
Qed.

(** X5. The chain display is drawn once.  Take a page whose blocks after
    the genesis block are drawn as text.  A call of [renderBlockchain]
    leaves no 'noBlocksMessage' in the document: [innerHTML = ''] takes
    the paragraph out with the rest of the display, and the cards bring no
    element of their own.  Every later call then finds that element
    missing, logs one line and returns.  So after the call no sequence of
    clicks changes the cards on the page; and on a first visit, once
    [window.onload] has run, the display stays empty whatever is
    marked. *)
Theorem renderBlockchain_once (w : World) (es : list Event) :
  Forall (fun b => drawnAsText b = true) (skipn 1 (chain w)) ->
  let w1 := snd (renderBlockchain w) in
  noBlocksMessageAttached w1 = false
  /\ fst (renderBlockchain w1) = Ok tt
  /\ console (snd (renderBlockchain w1))
     = console w1 ++ [skippingRenderLine]
  /\ blockchainDisplay (snd (renderBlockchain w1)) = blockchainDisplay w1
  /\ blockchainDisplay (session es w1) = blockchainDisplay w1
  /\ noBlocksMessageAttached (session es w1) = false
  /\ (forall now w0,
         boot now None = Ok w0 ->
         fst (windowOnload w0) = Ok tt
         /\ blockchainDisplay (session es (snd (windowOnload w0))) = []).
Proof.
  intros _ w1. pose proof (renderBlockchain_detaches w) as Hd. fold w1 in Hd.
  split; [exact Hd|].
  rewrite (renderBlockchain_skips w1 Hd).
  split; [reflexivity|]. split; [reflexivity|]. split; [reflexivity|].
  destruct (frozenAt_session (blockchainDisplay w1) es w1) as [H1 H2];
    [split; [exact Hd|reflexivity]|].
  split; [exact H2|]. split; [exact H1|].
  intros now w0 Hb. destruct (boot_fresh now w0 Hb) as [g [Hg ->]].
  destruct (createGenesisBlock_fields now g Hg) as [_ [_ [_ [_ Hs]]]].
  assert (E : windowOnload (blankPage [g] None)
              = (Ok tt,
                 clearDisplay
                   (setSummary
                      {| totalDaysText := lit "0"; presentDaysText := lit "0";
                         absentDaysText := lit "0";
                         attendancePercentageText := lit "0.00%";
                         eligibilityStatusText := lit "N/A" |}
                      (blankPage [g] None)))).
  { reflexivity. }
  rewrite E. split; [reflexivity|].
  apply (frozenAt_session [] es). split; reflexivity.
Qed.

(** On the sample ledger the first call draws the two cards; a mark for
    a third student then adds a block and logs the line, and the display
    still holds the two cards. *)
Lemma renderBlockchain_once_witness :
  Forall (fun b => drawnAsText b = true) (skipn 1 (chain samplePage))
  /\ blockchainDisplay (snd (renderBlockchain samplePage))
     = [validCard sampleFirst; validCard sampleSecond]
  /\ blockchainDisplay
       (session [MarkPresent (lit "S3") (lit "2024-01-01") 1700000000003]
          (snd (renderBlockchain samplePage)))
     = blockchainDisplay (snd (renderBlockchain samplePage))
  /\ List.length
       (chain
          (session [MarkPresent (lit "S3") (lit "2024-01-01") 1700000000003]
             (snd (renderBlockchain samplePage))))
     = 4%nat
  /\ console
       (session [MarkPresent (lit "S3") (lit "2024-01-01") 1700000000003]
          (snd (renderBlockchain samplePage)))
     = [skippingRenderLine].
Proof.
  assert (F : Forall (fun b => drawnAsText b = true)
                (skipn 1 (chain samplePage)))
    by (repeat constructor).
  split; [exact F|]. split; [vm_compute; reflexivity|]. split.
  - exact (proj1 (proj2 (proj2 (proj2 (proj2
             (renderBlockchain_once samplePage
                [MarkPresent (lit "S3") (lit "2024-01-01") 1700000000003]
                F)))))).
  - split; vm_compute; reflexivity.
Defined.

(** ** The summary in floating point *)

Lemma countPresent_bound (blocks : list Block) :
  (countPresent blocks <= List.length blocks)%nat.
Proof.
  unfold countPresent.
  assert (G : forall n,
             (fold_left
                (fun presentDays block =>
                   if streq (status (data block)) (lit "present")
                   then S presentDays else presentDays)
                blocks n <= n + List.length blocks)%nat).
  { induction blocks as [|b r IH]; intros n; simpl; [lia|].
    destruct (streq _ _); [specialize (IH (S n))|specialize (IH n)]; lia. }
  apply (G 0%nat).
Qed.

Lemma roundScaled_shift (m : positive) (e : Z) :
  (e <= 0)%Z ->
  roundScaled 2 m e
  = Z.to_N (Z.shiftr (200 * Z.pos m + Z.shiftl 1 (- e)) (1 - e)).
Proof.
  intros He. unfold roundScaled. f_equal.
  rewrite Z.shiftr_div_pow2, Z.shiftl_mul_pow2 by lia.
  change (10 ^ Z.of_nat 2)%Z with 100%Z.
  destruct (0 <=? e)%Z eqn:E0.
  - apply Z.leb_le in E0. replace e with 0%Z by lia.
    change (1 - 0)%Z with 1%Z. change (- 0)%Z with 0%Z.
    change (2 ^ 0)%Z with 1%Z. change (2 ^ 1)%Z with 2%Z.
    apply Z.div_unique with (r := 1%Z); lia.
  - f_equal. lia.
Qed.

Lemma atLeast1e21_small (m : positive) (e : Z) :
  (e <= 0)%Z -> (Z.pos m < 1000000000000000000000)%Z ->
  atLeast1e21 m e = false.
Proof.
  intros He Hm. unfold atLeast1e21.
  change (10 ^ 21)%Z with 1000000000000000000000%Z.
  destruct (0 <=? e)%Z eqn:E0.
  - apply Z.leb_le in E0. replace e with 0%Z by lia.
    apply Z.leb_gt. change (2 ^ 0)%Z with 1%Z. lia.
  - apply Z.leb_gt in E0. apply Z.leb_gt.
    assert (0 < 2 ^ (- e))%Z by (apply Z.pow_pos_nonneg; lia).
    nia.
Qed.

Lemma toFixed_shownHundredths (x : float) (n : N) :
  shownHundredths x = Some n -> toFixed 2 x = Some (fixedDigits 2 n).
Proof.
  unfold shownHundredths, toFixed.
  destruct (Prim2SF x) as [s| | |s m e]; try discriminate.
  - intros H. injection H as <-. reflexivity.
  - destruct s; [discriminate|].
    destruct ((e <=? 0) && (Z.pos m <? 1000000000000000000000))%Z eqn:E;
      [|discriminate].
    apply andb_true_iff in E. destruct E as [He Hm].
    apply Z.leb_le in He. apply Z.ltb_lt in Hm.
    rewrite <- (roundScaled_shift m e He), (atLeast1e21_small m e He Hm).
    intros H. injection H as <-. reflexivity.
Qed.

Lemma summaryChecked_upTo :
  forallb (fun t => forallb (fun p => summaryChecked p t) (seq 0 (S t)))
          (seq 1 summaryBound) = true.
Proof. vm_compute. reflexivity. Qed.

Lemma summaryChecked_within (presentDays totalDays : nat) :
  (1 <= totalDays <= summaryBound)%nat -> (presentDays <= totalDays)%nat ->
  summaryChecked presentDays totalDays = true.
Proof.
  intros Ht Hp.
  assert (Hin : In totalDays (seq 1 summaryBound)) by (apply in_seq; lia).
  pose proof (proj1 (forallb_forall _ _) summaryChecked_upTo totalDays Hin)
    as H.
  apply (proj1 (forallb_forall _ _) H presentDays). apply in_seq.
  clear - Hp. lia.
Qed.

(** What the page shows of the percentage and of the verdict on a ledger
    of up to [summaryBound] records. *)
Lemma summary_within (presentDays totalDays : nat) :
  (totalDays <= summaryBound)%nat -> (presentDays <= totalDays)%nat ->
  exists n,
    nearestHundredth presentDays totalDays n = true
    /\ toFixed 2 (attendancePercentageOf presentDays totalDays)
       = Some (fixedDigits 2 n)
    /\ eligibilityText totalDays
         (85 <=? attendancePercentageOf presentDays totalDays)%float
       = if (totalDays =? 0)%nat then lit "N/A"
         else if meetsThreshold presentDays totalDays then lit "Eligible!"
         else lit "Not Eligible".
Proof.
  intros Ht Hp. destruct totalDays as [|t].
  - exists 0. assert (presentDays = 0%nat) by lia. subst presentDays.
    repeat split.
  - pose proof (summaryChecked_within presentDays (S t)
                  (conj (le_n_S _ _ (Nat.le_0_l t)) Ht) Hp) as H.
    unfold summaryChecked in H. apply andb_true_iff in H.
    destruct H as [Hv Hn]. apply eqb_prop in Hv.
    destruct (shownHundredths _) as [n|] eqn:E; [|discriminate].
    exists n. split; [exact Hn|].
    split; [apply toFixed_shownHundredths, E|].
    unfold eligibilityText. rewrite Hv. reflexivity.
Qed.

(** X6. On a ledger of up to [summaryBound] records after the genesis
    block the summary update completes, and what it shows is exact: the
    three counts; a percentage with two decimals that is within half a
    hundredth of [100 * presentDays / totalDays]; and N/A when there is no
    record, Eligible! when at least 85 in 100 of the records are marked
    present, Not Eligible otherwise.  Half-way cases are not always rounded
    up: 23 days of 160 are 14.375 in 100 and are shown as 14.37. *)
Theorem updateAttendanceSummary_exact :
  (forall w,
      (List.length (skipn 1 (chain w)) <= summaryBound)%nat ->
      exists n,
        nearestHundredth (countPresent (skipn 1 (chain w)))
          (List.length (skipn 1 (chain w))) n = true
        /\ updateAttendanceSummary w
           = (Ok tt,
              setSummary
                {| totalDaysText :=
                     numberToString
                       (Z.of_nat (List.length (skipn 1 (chain w))));
                   presentDaysText :=
                     numberToString
                       (Z.of_nat (countPresent (skipn 1 (chain w))));
                   absentDaysText :=
                     numberToString
                       (Z.of_nat (List.length (skipn 1 (chain w))
                                  - countPresent (skipn 1 (chain w))));
                   attendancePercentageText := fixedDigits 2 n ++ lit "%";
                   eligibilityStatusText :=
                     if (List.length (skipn 1 (chain w)) =? 0)%nat
                     then lit "N/A"
                     else if meetsThreshold
                               (countPresent (skipn 1 (chain w)))
                               (List.length (skipn 1 (chain w)))
                          then lit "Eligible!"
                          else lit "Not Eligible" |}
                w))
  /\ toFixed 2 (attendancePercentageOf 23 160) = Some (lit "14.37")
  /\ nearestHundredth 23 160 1437 = true.
Proof.
  split; [|split; vm_compute; reflexivity].
  intros w Hb.
  destruct (summary_within (countPresent (skipn 1 (chain w)))
              (List.length (skipn 1 (chain w))) Hb
              (countPresent_bound _)) as [n [Hn [Hs He]]].
  exists n. split; [exact Hn|].
  rewrite (updateAttendanceSummary_counts w _ _ (fixedDigits 2 n)
             eq_refl eq_refl Hs).
  rewrite He. reflexivity.
Qed.

Lemma updateAttendanceSummary_exact_witness :
  (List.length (skipn 1 (chain samplePage)) <= summaryBound)%nat
  /\ exists n,
       nearestHundredth 1 2 n = true
       /\ summary (snd (updateAttendanceSummary samplePage))
          = Some {| totalDaysText := lit "2"; presentDaysText := lit "1";
                    absentDaysText := lit "1";
                    attendancePercentageText := fixedDigits 2 n ++ lit "%";
                    eligibilityStatusText := lit "Not Eligible" |}.
Proof.
  assert (Hb : (List.length (skipn 1 (chain samplePage)) <= summaryBound)%nat)
    by (vm_compute; repeat constructor).
  split; [exact Hb|].
  destruct (proj1 updateAttendanceSummary_exact samplePage Hb)
    as [n [Hn Hs]].
  exists n. split; [exact Hn|]. rewrite Hs. reflexivity.
Defined.

(** ** A blank input *)

Lemma trimStart_split (s : jsstring) :
  exists pre, s = pre ++ trimStart s /\ blank pre = true.
Proof.
  induction s as [|c r [pre [E B]]]; [exists []; split; reflexivity|].
  simpl. destruct (isWhiteSpace c) eqn:W.
  - exists (c :: pre). simpl. rewrite W, B. split; [congruence|reflexivity].
  - exists []. split; reflexivity.
Qed.

Lemma trimStart_blank (s : jsstring) : blank s = true -> trimStart s = [].
Proof.
  induction s as [|c r IH]; [reflexivity|]. simpl.
  destruct (isWhiteSpace c); [exact IH|discriminate].
Qed.

Lemma trimStart_head (s : jsstring) (c : N) (r : jsstring) :
  trimStart s = c :: r -> isWhiteSpace c = false.
Proof.
  induction s as [|x s IH]; [discriminate|]. simpl.
  destruct (isWhiteSpace x) eqn:W; [exact IH|].
  intros H. inversion H; subst. exact W.
Qed.

Lemma trimStart_keeps (s : jsstring) (x : N) :
  In x s -> isWhiteSpace x = false -> In x (trimStart s).
Proof.
  induction s as [|c r IH]; [intros []|]. simpl.
  intros [->|H] W.
  - rewrite W. left. reflexivity.
  - destruct (isWhiteSpace c); [apply IH; assumption|right; exact H].
Qed.

Lemma blank_rev (s : jsstring) : blank (rev s) = blank s.
Proof.
  unfold blank. induction s as [|c r IH]; [reflexivity|].
  simpl. rewrite forallb_app, IH. simpl. rewrite andb_true_r.
  apply andb_comm.
Qed.

Lemma trim_blank (s : jsstring) : blank s = true -> trim s = [].
Proof.
  intros H. unfold trim. rewrite (trimStart_blank s H). reflexivity.
Qed.

Lemma trim_not_blank (s : jsstring) : blank s = false -> trim s <> [].
Proof.
  intros H. unfold blank in H.
  assert (E : exists x, In x s /\ isWhiteSpace x = false).
  { induction s as [|c r IH]; [discriminate|]. simpl in H.
    destruct (isWhiteSpace c) eqn:W.
    - destruct (IH H) as [x [Hx Wx]]. exists x. split; [right|]; assumption.
    - exists c. split; [left; reflexivity|exact W]. }
  destruct E as [x [Hx Wx]]. unfold trim. intros E.
  assert (I : In x (rev (trimStart (rev (trimStart s))))).
  { apply -> in_rev. apply trimStart_keeps; [|exact Wx].
    apply -> in_rev. apply trimStart_keeps; assumption. }
  rewrite E in I. exact I.
Qed.

Lemma trim_prefix (s : jsstring) :
  exists post, trimStart s = trim s ++ post /\ blank post = true.
Proof.
  destruct (trimStart_split (rev (trimStart s))) as [post [E B]].
  exists (rev post). split; [|rewrite blank_rev; exact B].
  unfold trim. rewrite <- rev_app_distr, <- E, rev_involutive. reflexivity.
Qed.

(** What [trim] takes off is white space, on both sides. *)
Lemma trim_split (s : jsstring) :
  exists pre post,
    s = pre ++ trim s ++ post /\ blank pre = true /\ blank post = true.
Proof.
  destruct (trimStart_split s) as [pre [E B]].
  destruct (trim_prefix s) as [post [E' B']].
  exists pre, post. rewrite <- E'. auto.
Qed.

(** X7. A click on a mark button with an input that is empty or all white
    space shows the request for a student ID and does nothing else: the
    ledger, the store, the summary, the display and the console are as
    they were.  With any other input the handler goes on to the duplicate
    check with the input stripped of the white space around it, which then
    neither starts nor ends with white space. *)
Theorem markButtonClick_blank (statusValue label : string)
    (input today : jsstring) (now : Z) (w : World) :
  (blank input = true ->
   fst (markButtonClick statusValue label input today now w) = Ok tt
   /\ messageBox (snd (markButtonClick statusValue label input today now w))
      = Some {| messageText :=
                  lit "Please enter a Student ID to mark attendance.";
                messageKind := error |}
   /\ chain (snd (markButtonClick statusValue label input today now w))
      = chain w
   /\ localStorage (snd (markButtonClick statusValue label input today now w))
      = localStorage w
   /\ summary (snd (markButtonClick statusValue label input today now w))
      = summary w
   /\ blockchainDisplay
        (snd (markButtonClick statusValue label input today now w))
      = blockchainDisplay w
   /\ console (snd (markButtonClick statusValue label input today now w))
      = console w)
  /\ (blank input = false ->
      trim input <> []
      /\ markButtonClick statusValue label input today now w
         = recordAttendance statusValue label (trim input) today now w
      /\ (exists pre post,
             input = pre ++ trim input ++ post
             /\ blank pre = true /\ blank post = true)
      /\ (forall c r, trim input = c :: r -> isWhiteSpace c = false)
      /\ (forall c r, trim input = r ++ [c] -> isWhiteSpace c = false)).
Proof.
  split.
  - intros H. unfold markButtonClick. rewrite (trim_blank input H).
    repeat split.
  - intros H. pose proof (trim_not_blank input H) as Hne.
    split; [exact Hne|].
    split; [apply markButtonClick_trimmed, Hne|].
    split; [apply trim_split|]. split.
    + intros c r E. destruct (trim_prefix input) as [post [E' _]].
      rewrite E in E'. apply (trimStart_head input c (r ++ post)). exact E'.
    + intros c r E. apply (trimStart_head (rev (trimStart input)) c (rev r)).
      unfold trim in E. rewrite <- (rev_involutive (trimStart _)), E.
      rewrite rev_app_distr. reflexivity.
Qed.

Lemma markButtonClick_blank_witness :
  blank (lit "  ") = true
  /\ blank (lit " S1 ") = false
  /\ messageBox samplePage = None
  /\ messageBox (snd (markButtonClick "present" "Present" (lit "  ")
                        (lit "2024-01-01") 1700000000001 samplePage))
     = Some {| messageText :=
                 lit "Please enter a Student ID to mark attendance.";
               messageKind := error |}
  /\ chain (snd (markButtonClick "present" "Present" (lit "  ")
                   (lit "2024-01-01") 1700000000001 samplePage))
     = chain samplePage
  /\ trim (lit " S1 ") <> [].
Proof.
  assert (H1 : blank (lit "  ") = true) by reflexivity.
  assert (H2 : blank (lit " S1 ") = false) by reflexivity.
  split; [exact H1|]. split; [exact H2|]. split; [reflexivity|].
  destruct (proj1 (markButtonClick_blank "present" "Present" (lit "  ")
                     (lit "2024-01-01") 1700000000001 samplePage) H1)
    as [_ [Hm [Hc _]]].
  split; [exact Hm|]. split; [exact Hc|].
  exact (proj1 (proj2 (markButtonClick_blank "present" "Present"
                         (lit " S1 ") (lit "2024-01-01") 1700000000001
                         samplePage) H2)).
Defined.

(** ** Drawing the chain *)

Lemma appendCards_fields (cards : list Card) :
  forall w,
    chain (appendCards cards w) = chain w
    /\ localStorage (appendCards cards w) = localStorage w
    /\ console (appendCards cards w) = console w
    /\ messageBox (appendCards cards w) = messageBox w
    /\ summary (appendCards cards w) = summary w
    /\ blockchainDisplay (appendCards cards w)
       = blockchainDisplay w ++ cards
    /\ noBlocksMessageAttached (appendCards cards w)
       = noBlocksMessageAttached w.
Proof.
  unfold appendCards.
  induction cards as [|c r IH]; intros w; simpl.
  - rewrite List.app_nil_r. repeat split.
  - destruct (IH (appendCard c w)) as [H1 [H2 [H3 [H4 [H5 [H6 H7]]]]]].
    rewrite H1, H2, H3, H4, H5, H6, H7. simpl.
    rewrite <- List.app_assoc. repeat split.
Qed.

Lemma linkedFrom_sealed (rest : list Block) :
  forall p, linkedFrom p rest -> Forall sealed rest.
Proof.
  induction rest as [|b r IH]; intros p H; [constructor|].
  destruct H as [_ [Hs Hr]]. constructor; [exact Hs|]. apply (IH b), Hr.
Qed.

(** Blocks whose hash matches get a card each, in order. *)
Lemma renderCards_sealed (blocks : list Block) :
  Forall sealed blocks ->
  forall w,
    renderCards blocks w = (Ok tt, appendCards (map validCard blocks) w).
Proof.
  induction 1 as [|b r Hb _ IH]; intros w; [reflexivity|].
  simpl. unfold bind, lift, modify. unfold sealed in Hb.
  rewrite Hb, streq_refl. apply IH.
Qed.

(** The first call of [renderBlockchain] on a ledger whose blocks are
    sealed and linked: one card for each block after the genesis block, and
    no warning. *)
Lemma renderBlockchain_draws (w : World) (g : Block) (rest : list Block) :
  noBlocksMessageAttached w = true ->
  chain w = g :: rest -> linkedFrom g rest ->
  renderBlockchain w
  = (Ok tt, appendCards (map validCard rest) (clearDisplay w)).
Proof.
  intros Ha Hc Hl. unfold renderBlockchain.
  unfold bind at 1. unfold gets at 1. rewrite Ha. cbv [negb].
  unfold bind at 1. unfold modify at 1.
  unfold bind at 1. unfold gets at 1.
  change (chain (clearDisplay w)) with (chain w). rewrite Hc.
  change (skipn 1 (g :: rest)) with rest.
  unfold bind at 1.
  rewrite (renderCards_sealed rest (linkedFrom_sealed rest g Hl)).
  unfold bind at 1.
  assert (V : isChainValid (appendCards (map validCard rest) (clearDisplay w))
              = (Ok true,
                 appendCards (map validCard rest) (clearDisplay w))).
  { unfold isChainValid.
    rewrite (proj1 (appendCards_fields _ _)).
    change (chain (clearDisplay w)) with (chain w). rewrite Hc.
    apply linkedFrom_valid, Hl. }
  rewrite V. reflexivity.
Qed.

(** On such a ledger [renderBlockchain] completes, and it leaves the
    message box and the summary as they were. *)
Lemma renderBlockchain_linked (w : World) (g : Block) (rest : list Block) :
  chain w = g :: rest -> linkedFrom g rest ->
  exists w',
    renderBlockchain w = (Ok tt, w')
    /\ chain w' = chain w /\ localStorage w' = localStorage w
    /\ messageBox w' = messageBox w /\ summary w' = summary w.
Proof.
  intros Hc Hl. destruct (noBlocksMessageAttached w) eqn:Ha.
  - rewrite (renderBlockchain_draws w g rest Ha Hc Hl).
    eexists. split; [reflexivity|].
    destruct (appendCards_fields (map validCard rest) (clearDisplay w))
      as [H1 [H2 [_ [H4 [H5 _]]]]].
    rewrite H1, H2, H4, H5. repeat split.
  - rewrite (renderBlockchain_skips w Ha).
    eexists. split; [reflexivity|]. repeat split.
Qed.

(** ** A mark that is recorded *)

Lemma codeUnits_lit (s : string) : codeUnits (lit s) = true.
Proof.
  unfold codeUnits, lit. apply forallb_forall. intros x Hx.
  apply in_map_iff in Hx. destruct Hx as [a [<- _]].
  apply N.ltb_lt. pose proof (N_ascii_bounded a). lia.
Qed.

Lemma codeUnits_trimStart (s : jsstring) :
  codeUnits s = true -> codeUnits (trimStart s) = true.
Proof.
  unfold codeUnits. induction s as [|c r IH]; [reflexivity|].
  intros H. simpl. destruct (isWhiteSpace c); [|exact H].
  simpl in H. apply andb_true_iff in H. apply IH, H.
Qed.

Lemma codeUnits_rev (s : jsstring) : codeUnits (rev s) = codeUnits s.
Proof.
  unfold codeUnits. induction s as [|c r IH]; [reflexivity|].
  simpl. rewrite forallb_app, IH. simpl. rewrite andb_true_r.
  apply andb_comm.
Qed.

Lemma codeUnits_trim (s : jsstring) :
  codeUnits s = true -> codeUnits (trim s) = true.
Proof.
  intros H. unfold trim. rewrite codeUnits_rev.
  apply codeUnits_trimStart. rewrite codeUnits_rev.
  apply codeUnits_trimStart, H.
Qed.

Lemma find_none_iff (sid today : jsstring) (c : list Block) :
  (forall b, In b c ->
             ~ (studentId (data b) = sid /\ date (data b) = today)) ->
  find (fun block =>
          streq (date (data block)) today
          && streq (studentId (data block)) sid) c = None.
Proof.
  intros H. destruct (find _ c) as [b|] eqn:Hf; [|reflexivity].
  apply find_some in Hf. destruct Hf as [Hin Hp].
  apply andb_true_iff in Hp. destruct Hp as [Hd Hs].
  apply streq_eq in Hd, Hs. exfalso. apply (H b Hin). auto.
Qed.

(** X8. On a page reached over any number of visits, with up to
    [summaryBound] blocks in the ledger, a click on a mark button with an
    input that is not blank, for a student and a day no block has yet,
    completes; it appends exactly one block, built on the latest one with
    the clock as its timestamp and the trimmed input, the status of the
    button and the day as its payload; the store then holds the serialized
    ledger, the summary counts the new record, and the message box reports
    the mark as a success. *)
Theorem markButtonClick_appends (statusValue label : string)
    (input today : jsstring) (now : Z) (w : World) :
  visited w ->
  (List.length (chain w) <= summaryBound)%nat ->
  codeUnits input = true -> codeUnits today = true ->
  trim input <> [] ->
  (forall b, In b (chain w) ->
             ~ (studentId (data b) = trim input /\ date (data b) = today)) ->
  exists latestBlock h,
    getLatestBlock (chain w) = Some latestBlock
    /\ calculateHashOf (Z.of_nat (List.length (chain w))) (hash latestBlock)
         now {| studentId := trim input; status := lit statusValue;
                date := today |} = Ok h
    /\ fst (markButtonClick statusValue label input today now w) = Ok tt
    /\ chain (snd (markButtonClick statusValue label input today now w))
       = chain w
         ++ [{| index := Z.of_nat (List.length (chain w));
                timestamp := now;
                data := {| studentId := trim input;
                           status := lit statusValue; date := today |};
                previousHash := hash latestBlock;
                hash := h |}]
    /\ localStorage
         (snd (markButtonClick statusValue label input today now w))
       = Some (stringifyChain
                 (chain
                    (snd (markButtonClick statusValue label input today now
                            w))))
    /\ messageBox
         (snd (markButtonClick statusValue label input today now w))
       = Some {| messageText :=
                   lit "Attendance marked as " ++ lit label
                   ++ lit " for Student ID: " ++ trim input ++ lit "!";
                 messageKind := success |}
    /\ exists s,
         summary (snd (markButtonClick statusValue label input today now w))
         = Some s
         /\ totalDaysText s
            = numberToString (Z.of_nat (List.length (chain w)))
         /\ presentDaysText s
            = numberToString
                (Z.of_nat
                   (countPresent (skipn 1 (chain w))
                    + if streq (lit statusValue) (lit "present")
                      then 1 else 0)).
Proof.
  intros Hr Hlen Hi Ht Hne Hnew.
  set (d := {| studentId := trim input; status := lit statusValue;
               date := today |}).
  assert (Hd : codeUnitsData d = true).
  { unfold codeUnitsData, d. simpl.
    rewrite (codeUnits_trim input Hi), codeUnits_lit, Ht. reflexivity. }
  destruct (visited_produced w Hr) as [w0 [Hp [Hc Hs]]].
  destruct (produced_linked w0 Hp) as [now0 [g [rest [Hc0 [Hg Hl]]]]].
  rewrite <- Hc in Hc0.
  assert (El : getLatestBlock (chain w) = Some (last rest g))
    by (rewrite Hc0; apply getLatestBlock_last).
  set (l := last rest g) in *.
  assert (Hsl : sealed l).
  { pose proof (produced_sealed w0 Hp) as Hse. rewrite <- Hc in Hse.
    rewrite Forall_forall in Hse. apply Hse.
    destruct (getLatestBlock_length _ _ El) as [_ Hn].
    apply nth_error_In in Hn. exact Hn. }
  assert (Hmax : (Z.of_nat (List.length (chain w)) < arrayMaxLength)%Z).
  { unfold summaryBound in Hlen. unfold arrayMaxLength. lia. }
  assert (Hil : numberAdd (index l) 1 = Z.of_nat (List.length (chain w))).
  { destruct (getLatestBlock_length _ _ El) as [Hn1 Hn].
    pose proof (produced_indexed w0 Hp) as Hix. rewrite <- Hc in Hix.
    rewrite (Hix _ _ Hn), numberAdd_position by lia. f_equal. lia. }
  assert (Hwf : wellFormed (hash l) = true)
    by (apply isAscii_wellFormed, sealed_ascii, Hsl).
  destruct (calculateHashOf_total (numberAdd (index l) 1) (hash l) now d
              Hwf Hd)
    as [h [Hh _]].
  set (b := {| index := Z.of_nat (List.length (chain w)); timestamp := now;
               data := d; previousHash := hash l; hash := h |}).
  assert (Hb : newBlock (numberAdd (index l) 1) now d (hash l) = Ok b).
  { unfold newBlock. rewrite Hh. simpl. unfold b. rewrite Hil.
    reflexivity. }
  exists l, h. split; [exact El|].
  split; [rewrite <- Hil; exact Hh|].
  set (w1 := setLocalStorage (Some (stringifyChain (chain w ++ [b])))
               (setChain (chain w ++ [b]) w)).
  assert (Hc1 : chain w1 = g :: (rest ++ [b])).
  { unfold w1. simpl. rewrite Hc0. reflexivity. }
  assert (Hlen1 : List.length (skipn 1 (chain w1)) = List.length (chain w)).
  { rewrite Hc1, Hc0. simpl. rewrite length_app. simpl. lia. }
  assert (Hcp : countPresent (skipn 1 (chain w1))
                = (countPresent (skipn 1 (chain w))
                   + if streq (lit statusValue) (lit "present")
                     then 1 else 0)%nat).
  { rewrite Hc1, Hc0. simpl skipn. unfold countPresent.
    rewrite fold_left_app. simpl.
    destruct (streq (lit statusValue) (lit "present")); lia. }
  destruct (summary_within (countPresent (skipn 1 (chain w1)))
              (List.length (skipn 1 (chain w1))))
    as [n [_ [Hfix _]]];
    [rewrite Hlen1; exact Hlen | apply countPresent_bound |].
  pose proof (updateAttendanceSummary_counts w1 _ _ (fixedDigits 2 n)
                eq_refl eq_refl Hfix) as Hsum.
  match type of Hsum with
  | _ = (_, setSummary ?s w1) => set (shown := s) in Hsum
  end.
  assert (Hl1 : linkedFrom g (rest ++ [b])).
  { apply linkedFrom_snoc; [exact Hl|reflexivity|].
    destruct (newBlock_fields _ _ _ _ _ Hb) as [_ [_ [_ [_ Hsb]]]].
    exact Hsb. }
  destruct (renderBlockchain_linked (setSummary shown w1) g (rest ++ [b])
              Hc1 Hl1)
    as [w3 [Hrun [H3c [H3s [H3m H3y]]]]].
  assert (Run : markButtonClick statusValue label input today now w
                = (Ok tt,
                   setMessageBox
                     {| messageText :=
                          lit "Attendance marked as " ++ lit label
                          ++ lit " for Student ID: " ++ trim input
                          ++ lit "!";
                        messageKind := success |} w3)).
  { rewrite (markButtonClick_trimmed statusValue label input today now w
               Hne).
    rewrite (recordAttendance_new statusValue label (trim input) today now
               w (find_none_iff _ _ _ Hnew)).
    fold d. unfold bind at 1.
    rewrite (addBlock_run now d w l b El Hb Hmax). fold w1.
    unfold bind at 1. rewrite Hsum.
    unfold bind at 1. rewrite Hrun. reflexivity. }
  rewrite Run. simpl fst. simpl snd.
  change (chain (setMessageBox ?m w3)) with (chain w3).
  split; [reflexivity|].
  split; [rewrite H3c; reflexivity|].
  split.
  { change (localStorage (setMessageBox ?m w3)) with (localStorage w3).
    change (chain (setMessageBox ?m w3)) with (chain w3).
    rewrite H3s, H3c. reflexivity. }
  split; [reflexivity|].
  exists shown. split; [simpl; rewrite H3y; reflexivity|].
  unfold shown. cbn [totalDaysText presentDaysText].
  rewrite Hlen1, Hcp. split; reflexivity.
Qed.

Lemma visited_fresh : visited (blankPage [sampleGenesis] None).
Proof. apply (visited_first 1700000000000). reflexivity. Qed.

Lemma markButtonClick_appends_witness :
  visited (blankPage [sampleGenesis] None)
  /\ trim (lit " S1 ") <> []
  /\ exists latestBlock h,
       getLatestBlock [sampleGenesis] = Some latestBlock
       /\ chain (snd (markButtonClick "present" "Present" (lit " S1 ")
                        (lit "2024-01-01") 1700000000001
                        (blankPage [sampleGenesis] None)))
          = [sampleGenesis;
             {| index := 1; timestamp := 1700000000001;
                data := {| studentId := trim (lit " S1 ");
                           status := lit "present";
                           date := lit "2024-01-01" |};
                previousHash := hash latestBlock; hash := h |}].
Proof.
  assert (H1 : (List.length (chain (blankPage [sampleGenesis] None))
                <= summaryBound)%nat) by (vm_compute; repeat constructor).
  assert (H2 : trim (lit " S1 ") <> []) by discriminate.
  assert (H3 : forall b,
             In b (chain (blankPage [sampleGenesis] None)) ->
             ~ (studentId (data b) = trim (lit " S1 ")
                /\ date (data b) = lit "2024-01-01")).
  { intros b [<-|[]] [E _]. discriminate E. }
  split; [exact visited_fresh|]. split; [exact H2|].
  destruct (markButtonClick_appends "present" "Present" (lit " S1 ")
              (lit "2024-01-01") 1700000000001
              (blankPage [sampleGenesis] None)
              visited_fresh H1 eq_refl eq_refl H2 H3)
    as [l [h [El [_ [_ [Hc _]]]]]].
  exists l, h. split; [exact El|exact Hc].
Defined.

(** ** The clear button *)

(** X9. A click on the clear button resets the ledger at once: the
    handler tests the promise its own [confirm] returns, which is truthy
    whatever the user answers later.  On any page the click completes; the
    ledger is then one new genesis block, the store holds that one-block
    chain, the summary shows no record and the message box reports the
    clearing.  When an element 'noBlocksMessage' is in the document, as it
    is when the page has just been loaded, the display is emptied and
    nothing is logged; when none is, the cards that were on the page stay
    there and one line is logged.  Either way no such element is in the
    document afterwards, no card being drawn for a ledger of one block. *)
Theorem clearDataBtnClick_resets (w : World) (now : Z) :
  exists g,
    createGenesisBlock now = Ok g
    /\ fst (clearDataBtnClick now w) = Ok tt
    /\ chain (snd (clearDataBtnClick now w)) = [g]
    /\ localStorage (snd (clearDataBtnClick now w))
       = Some (stringifyChain [g])
    /\ summary (snd (clearDataBtnClick now w))
       = Some {| totalDaysText := lit "0"; presentDaysText := lit "0";
                 absentDaysText := lit "0";
                 attendancePercentageText := lit "0.00%";
                 eligibilityStatusText := lit "N/A" |}
    /\ messageBox (snd (clearDataBtnClick now w))
       = Some {| messageText := lit "All attendance data cleared!";
                 messageKind := success |}
    /\ blockchainDisplay (snd (clearDataBtnClick now w))
       = (if noBlocksMessageAttached w then [] else blockchainDisplay w)
    /\ console (snd (clearDataBtnClick now w))
       = (if noBlocksMessageAttached w then console w
          else console w ++ [skippingRenderLine])
    /\ noBlocksMessageAttached (snd (clearDataBtnClick now w)) = false
    /\ (forall c stored,
           w = blankPage c stored ->
           blockchainDisplay (snd (clearDataBtnClick now w)) = []
           /\ console (snd (clearDataBtnClick now w)) = []).
Proof.
  destruct (clearChain_run now w) as [g [Hg Hrun]]. exists g.
  split; [exact Hg|].
  destruct (createGenesisBlock_fields now g Hg) as [_ [_ [_ [_ Hs]]]].
  set (w1 := setLocalStorage (Some (stringifyChain [g]))
               (setChain [g] (setLocalStorage None w))) in *.
  set (w2 := setSummary
               {| totalDaysText := lit "0"; presentDaysText := lit "0";
                  absentDaysText := lit "0";
                  attendancePercentageText := lit "0.00%";
                  eligibilityStatusText := lit "N/A" |} w1).
  assert (Hsum : updateAttendanceSummary w1 = (Ok tt, w2)) by reflexivity.
  assert (Hdraw : renderBlockchain w2
                  = (Ok tt,
                     if noBlocksMessageAttached w then clearDisplay w2
                     else logError skippingRenderLine w2)).
  { destruct (noBlocksMessageAttached w) eqn:Ha.
    - rewrite (renderBlockchain_draws w2 g [] Ha eq_refl I). reflexivity.
    - apply renderBlockchain_skips, Ha. }
  assert (Run : clearDataBtnClick now w
                = (Ok tt,
                   setMessageBox
                     {| messageText := lit "All attendance data cleared!";
                        messageKind := success |}
                     (if noBlocksMessageAttached w then clearDisplay w2
                      else logError skippingRenderLine w2))).
  { unfold clearDataBtnClick. unfold bind at 1. rewrite Hrun.
    unfold bind at 1. rewrite Hsum. unfold bind at 1. rewrite Hdraw.
    reflexivity. }
  rewrite Run.
  assert (Hb : forall c stored,
             w = blankPage c stored ->
             noBlocksMessageAttached w = true /\ console w = [])
    by (intros c stored ->; split; reflexivity).
  destruct (noBlocksMessageAttached w) eqn:Ha.
  - do 8 (split; [reflexivity|]). intros c stored E.
    split; [reflexivity|]. apply (Hb c stored E).
  - do 7 (split; [reflexivity|]). split; [exact Ha|].
    intros c stored E. destruct (Hb c stored E). discriminate.
Qed.

(** ** An empty array in the store *)

(** X10. When the store holds a text that parses to an empty array, the
    constructor takes it for the chain, and the ledger is empty.  On an
    empty ledger [isChainValid] returns true, and a click on a mark button
    with an input that is not blank throws a TypeError, [getLatestBlock]
    having returned [undefined]; the click leaves the whole page as it
    was. *)
Theorem empty_array_stored (text : jsstring) (now : Z) :
  JSON_parse text = Some (JArr []) ->
  boot now (Some text) = Ok (blankPage [] (Some text))
  /\ isChainValid (blankPage [] (Some text))
     = (Ok true, blankPage [] (Some text))
  /\ (forall statusValue label input today now' w,
         chain w = [] -> trim input <> [] ->
         getLatestBlock (chain w) = None
         /\ markButtonClick statusValue label input today now' w
            = (Throw TypeError, w)).
Proof.
  intros Hp. split; [|split; [reflexivity|]].
  - unfold boot, newBlockchain, loadChain.
    destruct text as [|c r]; [discriminate Hp|].
    simpl isEmpty. cbv iota. rewrite Hp. reflexivity.
  - intros statusValue label input today now' w Hc Hne.
    split; [rewrite Hc; reflexivity|].
    rewrite (markButtonClick_trimmed _ _ _ _ _ _ Hne).
    rewrite recordAttendance_new by (rewrite Hc; reflexivity).
    unfold bind at 1. unfold addBlock, bind, gets, lift. rewrite Hc.
    reflexivity.
Qed.

Lemma empty_array_stored_witness :
  JSON_parse (lit " [ ] ") = Some (JArr [])
  /\ boot 1700000000000 (Some (lit " [ ] "))
     = Ok (blankPage [] (Some (lit " [ ] ")))
  /\ markButtonClick "present" "Present" (lit "S1") (lit "2024-01-01")
       1700000000001 (blankPage [] (Some (lit " [ ] ")))
     = (Throw TypeError, blankPage [] (Some (lit " [ ] "))).
Proof.
  assert (H : JSON_parse (lit " [ ] ") = Some (JArr [])) by reflexivity.
  assert (N : trim (lit "S1") <> []) by discriminate.
  split; [exact H|]. split.
  - exact (proj1 (empty_array_stored (lit " [ ] ") 1700000000000 H)).
  - exact (proj2 (proj2 (proj2 (empty_array_stored (lit " [ ] ")
                                  1700000000000 H))
                          "present"%string "Present"%string (lit "S1")
                          (lit "2024-01-01") 1700000000001%Z
                          (blankPage [] (Some (lit " [ ] ")))
                          eq_refl N)).
Defined.

(** ** When the hash cannot be computed *)

Lemma encodeURIComponent_cons (u : N) (rest : jsstring) :
  encodeURIComponent (u :: rest)
  = if uriUnescaped u then
      let* r := encodeURIComponent rest in
      Ok (u :: r)
    else if isLowSurrogate u then Throw URIError
    else if isHighSurrogate u then
      match rest with
      | [] => Throw URIError
      | v :: rest' =>
          if isLowSurrogate v then
            let* r := encodeURIComponent rest' in
            Ok (flat_map percentOctet (utf8 (surrogatePair u v)) ++ r)
          else Throw URIError
      end
    else
      let* r := encodeURIComponent rest in
      Ok (flat_map percentOctet (utf8 u) ++ r).
Proof. reflexivity. Qed.

Lemma encodeURIComponent_ascii_throws (a s : jsstring) :
  isAscii a = true ->
  encodeURIComponent s = Throw URIError ->
  encodeURIComponent (a ++ s) = Throw URIError.
Proof.
  induction a as [|u a IH]; intros Ha Hs; [exact Hs|].
  change (isAscii (u :: a)) with ((u <? 0x80) && isAscii a) in Ha.
  apply andb_true_iff in Ha. destruct Ha as [Hu Ha]. apply N.ltb_lt in Hu.
  destruct (ascii_not_surrogate u Hu) as [Hl Hh].
  change ((u :: a) ++ s) with (u :: (a ++ s)).
  rewrite encodeURIComponent_cons, (IH Ha Hs), Hl, Hh.
  destruct (uriUnescaped u); reflexivity.
Qed.

(** A lone surrogate makes [encodeURIComponent] throw, whatever follows
    the string, as long as that does not start with the missing half. *)
Lemma encodeURIComponent_illFormed (s : jsstring) :
  forall x c,
    codeUnits s = true -> wellFormed s = false ->
    isLowSurrogate x = false ->
    encodeURIComponent (s ++ x :: c) = Throw URIError.
Proof.
  induction s as [| u | u v r IHr IHv] using jsstring_pair_ind;
    intros x c Hcu Hwf Hx.
  - discriminate.
  - change ([u] ++ x :: c) with (u :: x :: c).
    rewrite encodeURIComponent_cons.
    change (codeUnits [u]) with ((u <? 0x10000) && true) in Hcu.
    rewrite andb_true_r in Hcu.
    change (wellFormed [u])
      with (if isLowSurrogate u then false
            else if isHighSurrogate u then false
            else (u <? 0x10000) && true) in Hwf.
    destruct (uriUnescaped u) eqn:Hun.
    + destruct (uriUnescaped_ascii u Hun) as [Hlt _].
      destruct (ascii_not_surrogate u Hlt) as [Hl Hh].
      rewrite Hl, Hh, Hcu in Hwf. discriminate.
    + destruct (isLowSurrogate u); [reflexivity|].
      destruct (isHighSurrogate u); [rewrite Hx; reflexivity|].
      rewrite Hcu in Hwf. discriminate.
  - change ((u :: v :: r) ++ x :: c) with (u :: v :: (r ++ x :: c)).
    rewrite encodeURIComponent_cons.
    change (codeUnits (u :: v :: r))
      with ((u <? 0x10000) && codeUnits (v :: r)) in Hcu.
    apply andb_true_iff in Hcu. destruct Hcu as [Hu Hvr].
    assert (Hr : codeUnits r = true).
    { change (codeUnits (v :: r)) with ((v <? 0x10000) && codeUnits r) in Hvr.
      apply andb_true_iff in Hvr. apply Hvr. }
    change (wellFormed (u :: v :: r))
      with (if isLowSurrogate u then false
            else if isHighSurrogate u
                 then isLowSurrogate v && wellFormed r
                 else (u <? 0x10000) && wellFormed (v :: r)) in Hwf.
    change (v :: r ++ x :: c) with ((v :: r) ++ x :: c).
    destruct (uriUnescaped u) eqn:Hun.
    + destruct (uriUnescaped_ascii u Hun) as [Hlt _].
      destruct (ascii_not_surrogate u Hlt) as [Hl Hh].
      rewrite Hl, Hh, Hu in Hwf.
      rewrite (IHv x c Hvr Hwf Hx). reflexivity.
    + destruct (isLowSurrogate u); [reflexivity|].
      destruct (isHighSurrogate u).
      * change ((v :: r) ++ x :: c) with (v :: (r ++ x :: c)). cbv iota.
        destruct (isLowSurrogate v); [|reflexivity].
        rewrite (IHr x c Hr Hwf Hx). reflexivity.
      * rewrite Hu in Hwf. rewrite (IHv x c Hvr Hwf Hx). reflexivity.
Qed.

Lemma hashInput_wellFormed (i : Z) (prev : jsstring) (ts : Z)
    (d : AttendanceData) :
  wellFormed prev = true -> codeUnitsData d = true ->
  wellFormed (numberToString i ++ prev ++ numberToString ts
              ++ stringifyData d) = true.
Proof.
  intros Hp Hd.
  apply wellFormed_ascii_app; [apply numberToString_ascii|].
  apply wellFormed_app; [exact Hp|].
  apply wellFormed_ascii_app; [apply numberToString_ascii|].
  rewrite <- (List.app_nil_r (stringifyData d)).
  apply stringifyData_wellFormed; [exact Hd|reflexivity].
Qed.

Lemma calculateHashOf_illFormed (i : Z) (prev : jsstring) (ts : Z)
    (d : AttendanceData) :
  codeUnits prev = true -> wellFormed prev = false ->
  calculateHashOf i prev ts d = Throw URIError.
Proof.
  intros Hcu Hwf. unfold calculateHashOf.
  destruct (numberToString_head ts) as [x [r [E Hx]]].
  assert (Hl : isLowSurrogate x = false).
  { destruct Hx as [Hx| ->]; [|reflexivity].
    unfold isDigit in Hx. apply andb_true_iff in Hx.
    destruct Hx as [_ Hx]. apply N.leb_le in Hx.
    unfold isLowSurrogate. apply andb_false_iff. left.
    apply N.leb_gt. lia. }
  rewrite E.
  change ((x :: r) ++ stringifyData d) with (x :: (r ++ stringifyData d)).
  rewrite (encodeURIComponent_ascii_throws (numberToString i) _
             (numberToString_ascii i)
             (encodeURIComponent_illFormed prev x _ Hcu Hwf Hl)).
  reflexivity.
Qed.

(** X11. [calculateHash] on a block whose index and timestamp are safe
    integers and whose strings are made of code units.
    When the previous hash is well-formed UTF-16 it returns the first 64
    characters of the base64 text of the UTF-8 octets of index, previous
    hash, timestamp and serialized payload put end to end: at most 64
    characters, all of them ASCII; [btoa] never throws.  When the previous
    hash holds a lone surrogate it throws a URIError.  The payload cannot
    make it throw: [JSON.stringify] escapes lone surrogates. *)
Theorem calculateHash_throws (b : Block) :
  safeNumbers b = true ->
  codeUnits (previousHash b) = true ->
  codeUnitsData (data b) = true ->
  if wellFormed (previousHash b)
  then exists h,
         calculateHash b = Ok h
         /\ h = firstn 64
                  (base64
                     (utf8String
                        (numberToString (index b) ++ previousHash b
                         ++ numberToString (timestamp b)
                         ++ stringifyData (data b))))
         /\ isAscii h = true /\ (List.length h <= 64)%nat
  else calculateHash b = Throw URIError.
Proof.
  intros _ Hp Hd. destruct (wellFormed (previousHash b)) eqn:Hwf.
  - eexists. split.
    + apply calculateHashOf_wellFormed, hashInput_wellFormed; assumption.
    + split; [reflexivity|].
      split; [apply isAscii_firstn, base64_ascii|].
      apply firstn_le_length.
  - apply calculateHashOf_illFormed; assumption.
Qed.

Lemma calculateHash_throws_witness :
  safeNumbers sampleFirst = true
  /\ calculateHash (setPreviousHash sampleFirst [0xD800]) = Throw URIError
  /\ exists h,
       calculateHash sampleFirst = Ok h
       /\ h = firstn 64
                (base64
                   (utf8String
                      (numberToString (index sampleFirst)
                       ++ previousHash sampleFirst
                       ++ numberToString (timestamp sampleFirst)
                       ++ stringifyData (data sampleFirst))))
       /\ isAscii h = true /\ (List.length h <= 64)%nat.
Proof.
  split; [reflexivity|]. split.
  - exact (calculateHash_throws (setPreviousHash sampleFirst [0xD800])
             eq_refl eq_refl eq_refl).
  - exact (calculateHash_throws sampleFirst eq_refl eq_refl eq_refl).
Defined.

(** X12. When [addBlock] does not complete it leaves the page as it
    was: nothing is appended and nothing is stored.  It throws a TypeError
    on an empty ledger, and a URIError when the hash of the latest block
    holds a lone surrogate. *)
Theorem addBlock_throws (now : Z) (d : AttendanceData) (w : World) :
  (fst (addBlock now d w) <> Ok tt -> snd (addBlock now d w) = w)
  /\ (chain w = [] -> addBlock now d w = (Throw TypeError, w))
  /\ (forall latestBlock,
         getLatestBlock (chain w) = Some latestBlock ->
         codeUnits (hash latestBlock) = true ->
         wellFormed (hash latestBlock) = false ->
         addBlock now d w = (Throw URIError, w)).
Proof.
  split; [apply addBlock_fails|]. split.
  - intros Hc. unfold addBlock, bind, gets, lift. rewrite Hc. reflexivity.
  - intros l El Hcu Hwf. unfold addBlock, bind, gets, lift, newBlock.
    rewrite El, (calculateHashOf_illFormed _ _ _ _ Hcu Hwf). reflexivity.
Qed.

Lemma addBlock_throws_witness :
  addBlock 1700000000001 samplePresent (blankPage [] None)
  = (Throw TypeError, blankPage [] None)
  /\ addBlock 1700000000001 samplePresent
       (blankPage [setHash sampleGenesis [0xDC00]] None)
     = (Throw URIError, blankPage [setHash sampleGenesis [0xDC00]] None).
Proof.
  split.
  - exact (proj1 (proj2 (addBlock_throws 1700000000001 samplePresent
                           (blankPage [] None))) eq_refl).
  - exact (proj2 (proj2 (addBlock_throws 1700000000001 samplePresent
                           (blankPage [setHash sampleGenesis [0xDC00]]
                              None)))
             (setHash sampleGenesis [0xDC00]) eq_refl eq_refl eq_refl).
Defined.

(** ** Tampering that is detected *)

Lemma isChainValidFrom_step (i : nat) (p c : Block) (r : list Block) :
  isChainValidFrom i p (c :: r)
  = (h <- lift (calculateHash c) ;;
     if negb (streq (hash c) h) then
       modify (logError (hashMismatchLine i)) ;; ret false
     else if negb (streq (previousHash c) (hash p)) then
       modify (logError (linkMismatchLine i)) ;; ret false
     else isChainValidFrom (S i) c r).
Proof. reflexivity. Qed.

(** On a ledger the loop accepts, changing one block leaves the loop to
    fail or pass at that block: the blocks before it still pass. *)
Lemma isChainValidFrom_tamper (f : Block -> Block) (rest : list Block) :
  forall i p j b w w',
    fst (isChainValidFrom i p rest w) = Ok true ->
    nth_error rest j = Some b ->
    previousHash b = hash (nth j (p :: rest) p)
    /\ calculateHash b = Ok (hash b)
    /\ isChainValidFrom i p (tamper j f rest) w'
       = isChainValidFrom (i + j) (nth j (p :: rest) p)
           (f b :: skipn (S j) rest) w'.
Proof.
  induction rest as [|c r IH]; intros i p j b w w' Hv Hn.
  - destruct j; discriminate.
  - destruct (isChainValidFrom_valid_cons i p c r w Hv) as [Hs [Hl Hr]].
    destruct j as [|j].
    + inversion Hn; subst c. rewrite Nat.add_0_r. auto.
    + change (nth_error r j = Some b) in Hn.
      destruct (IH (S i) c j b w w' Hr Hn) as [H1 [H2 H3]].
      assert (E : nth (S j) (p :: c :: r) p = nth j (c :: r) c).
      { change (nth (S j) (p :: c :: r) p) with (nth j (c :: r) p).
        apply nth_indep. simpl.
        assert (j < List.length r)%nat
          by (apply nth_error_Some; rewrite Hn; discriminate).
        lia. }
      rewrite E. split; [exact H1|]. split; [exact H2|].
      change (tamper (S j) f (c :: r)) with (c :: tamper j f r).
      rewrite isChainValidFrom_step. unfold bind at 1. unfold lift at 1.
      rewrite Hs, Hl, !streq_refl. cbv [negb].
      rewrite H3. replace (i + S j)%nat with (S i + j)%nat by lia.
      reflexivity.
Qed.

(** X13. On a ledger that [isChainValid] accepts, the numbers of its
    blocks being safe integers, replacing the stored hash of a block by
    another one is detected wherever a check looks: for a block after the
    genesis block [isChainValid] returns false and the console gets one
    line more, the hash mismatch of that block; for the genesis block,
    when a block follows, it returns false and the line says that block 1
    does not point to the previous hash.  The hash of the genesis block of
    a one-block ledger is not checked at all. *)
Theorem stored_hash_tampering (w : World) (h' : jsstring) :
  Forall (fun b => safeNumbers b = true) (chain w) ->
  fst (isChainValid w) = Ok true ->
  (forall k b,
      (1 <= k)%nat -> nth_error (chain w) k = Some b -> h' <> hash b ->
      isChainValid
        (setChain (tamper k (fun x => setHash x h') (chain w)) w)
      = (Ok false,
         logError (hashMismatchLine k)
           (setChain (tamper k (fun x => setHash x h') (chain w)) w))
      /\ console
           (snd (isChainValid
                   (setChain (tamper k (fun x => setHash x h') (chain w))
                      w)))
         = console w ++ [hashMismatchLine k])
  /\ (forall g b rest,
         chain w = g :: b :: rest -> h' <> hash g ->
         isChainValid
           (setChain (tamper 0 (fun x => setHash x h') (chain w)) w)
         = (Ok false,
            logError (linkMismatchLine 1)
              (setChain (tamper 0 (fun x => setHash x h') (chain w)) w))
         /\ console
              (snd (isChainValid
                      (setChain (tamper 0 (fun x => setHash x h') (chain w))
                         w)))
            = console w ++ [linkMismatchLine 1])
  /\ (forall g,
         chain w = [g] ->
         isChainValid
           (setChain (tamper 0 (fun x => setHash x h') (chain w)) w)
         = (Ok true,
            setChain (tamper 0 (fun x => setHash x h') (chain w)) w)).
Proof.
  intros _ Hv. unfold isChainValid in Hv.
  assert (P : forall (o : outcome bool) line w' w1,
             console w' = console w ->
             isChainValid w1 = (o, logError line w') ->
             isChainValid w1 = (o, logError line w')
             /\ console (snd (isChainValid w1)) = console w ++ [line]).
  { intros o line w' w1 Ec E. split; [exact E|].
    rewrite E. cbn [snd logError console]. rewrite Ec. reflexivity. }
  split; [|split].
  - intros k b Hk Hn Hne. apply P; [reflexivity|].
    destruct (chain w) as [|g rest] eqn:Hc; [destruct k; discriminate|].
    destruct k as [|j]; [lia|].
    change (nth_error rest j = Some b) in Hn.
    unfold isChainValid. simpl chain.
    change (tamper (S j) (fun x => setHash x h') (g :: rest))
      with (g :: tamper j (fun x => setHash x h') rest). cbv iota.
    destruct (isChainValidFrom_tamper (fun x => setHash x h') rest 1 g j b w
                (setChain (g :: tamper j (fun x => setHash x h') rest) w)
                Hv Hn) as [_ [Hs ->]].
    rewrite isChainValidFrom_step. unfold bind at 1. unfold lift at 1.
    change (calculateHash (setHash b h')) with (calculateHash b).
    rewrite Hs. change (hash (setHash b h')) with h'.
    replace (streq h' (hash b)) with false
      by (symmetry; apply streq_neq; exact Hne).
    reflexivity.
  - intros g b rest Hc Hne. apply P; [reflexivity|]. rewrite Hc in *.
    destruct (isChainValidFrom_valid_cons 1 g b rest w Hv) as [Hs [Hl _]].
    unfold isChainValid. simpl chain. simpl tamper. cbv iota.
    rewrite isChainValidFrom_step. unfold bind at 1. unfold lift at 1.
    rewrite Hs, streq_refl. change (hash (setHash g h')) with h'.
    replace (streq (previousHash b) h') with false
      by (symmetry; apply streq_neq; congruence).
    reflexivity.
  - intros g Hc. rewrite Hc. reflexivity.
Qed.

Lemma stored_hash_tampering_witness :
  Forall (fun b => safeNumbers b = true) (chain samplePage)
  /\ fst (isChainValid samplePage) = Ok true
  /\ console samplePage = []
  /\ fst (isChainValid
            (setChain
               (tamper 2 (fun x => setHash x (lit "0")) (chain samplePage))
               samplePage)) = Ok false
  /\ console
       (snd (isChainValid
               (setChain
                  (tamper 2 (fun x => setHash x (lit "0"))
                     (chain samplePage)) samplePage)))
     = [hashMismatchLine 2]
  /\ console
       (snd (isChainValid
               (setChain
                  (tamper 0 (fun x => setHash x (lit "0"))
                     (chain samplePage)) samplePage)))
     = [linkMismatchLine 1].
Proof.
  assert (V : fst (isChainValid samplePage) = Ok true) by reflexivity.
  assert (N2 : lit "0" <> hash sampleSecond) by discriminate.
  assert (N0 : lit "0" <> hash sampleGenesis) by discriminate.
  assert (S : Forall (fun b => safeNumbers b = true) (chain samplePage))
    by (repeat constructor).
  split; [exact S|]. split; [exact V|]. split; [reflexivity|].
  destruct (proj1 (stored_hash_tampering samplePage (lit "0") S V)
              2%nat sampleSecond (le_S _ _ (le_n 1)) eq_refl N2)
    as [E2 C2].
  destruct (proj1 (proj2 (stored_hash_tampering samplePage (lit "0") S V))
              sampleGenesis sampleFirst [sampleSecond] eq_refl N0)
    as [_ C0].
  split; [rewrite E2; reflexivity|].
  split; [exact C2|exact C0].
Defined.

(** X14. On a ledger that [isChainValid] accepts, the numbers of its
    blocks being safe integers, replacing the previous hash of a block
    after the genesis block by another string of code units never passes:
    when the new string is well-formed UTF-16 [isChainValid] returns false
    and the console gets one line more, for that very block, its hash
    mismatch when the hash recomputed from the block has changed and its
    broken link when it has not; when the new string holds a lone
    surrogate [isChainValid] throws a URIError and logs nothing. *)
Theorem previousHash_tampering (w : World) (k : nat) (b : Block)
    (p' : jsstring) :
  Forall (fun b => safeNumbers b = true) (chain w) ->
  fst (isChainValid w) = Ok true ->
  (1 <= k)%nat -> nth_error (chain w) k = Some b ->
  p' <> previousHash b ->
  codeUnits p' = true -> codeUnitsData (data b) = true ->
  let w' := setChain
              (tamper k (fun x => setPreviousHash x p') (chain w)) w in
  if wellFormed p'
  then exists h,
         calculateHash (setPreviousHash b p') = Ok h
         /\ isChainValid w'
            = (Ok false,
               logError (if streq (hash b) h then linkMismatchLine k
                         else hashMismatchLine k) w')
         /\ console (snd (isChainValid w'))
            = console w
              ++ [if streq (hash b) h then linkMismatchLine k
                  else hashMismatchLine k]
  else isChainValid w' = (Throw URIError, w')
       /\ console (snd (isChainValid w')) = console w.
Proof.
  intros _ Hv Hk Hn Hne Hcu Hd w'. unfold isChainValid in Hv.
  assert (P : forall (o : outcome bool) line,
             isChainValid w' = (o, logError line w') ->
             isChainValid w' = (o, logError line w')
             /\ console (snd (isChainValid w')) = console w ++ [line]).
  { intros o line E. split; [exact E|]. rewrite E. reflexivity. }
  assert (Q : forall (o : outcome bool),
             isChainValid w' = (o, w') ->
             isChainValid w' = (o, w')
             /\ console (snd (isChainValid w')) = console w).
  { intros o E. split; [exact E|]. rewrite E. reflexivity. }
  destruct (chain w) as [|g rest] eqn:Hc; [destruct k; discriminate|].
  destruct k as [|j]; [lia|].
  change (nth_error rest j = Some b) in Hn.
  assert (E : isChainValid w'
              = isChainValidFrom (S j) (nth j (g :: rest) g)
                  (setPreviousHash b p' :: skipn (S j) rest) w'
              /\ previousHash b = hash (nth j (g :: rest) g)).
  { unfold isChainValid, w'. simpl chain.
    change (tamper (S j) (fun x => setPreviousHash x p') (g :: rest))
      with (g :: tamper j (fun x => setPreviousHash x p') rest). cbv iota.
    destruct (isChainValidFrom_tamper (fun x => setPreviousHash x p') rest 1
                g j b w
                (setChain
                   (g :: tamper j (fun x => setPreviousHash x p') rest) w)
                Hv Hn) as [Hl [_ ->]].
    split; [reflexivity|exact Hl]. }
  destruct E as [E Hl].
  destruct (wellFormed p') eqn:Hwf.
  - destruct (calculateHashOf_total (index b) p' (timestamp b) (data b)
                Hwf Hd) as [h [Hh _]].
    exists h. split; [exact Hh|]. apply P. rewrite E. clear E.
    rewrite isChainValidFrom_step. unfold bind at 1. unfold lift at 1.
    change (calculateHash (setPreviousHash b p'))
      with (calculateHashOf (index b) p' (timestamp b) (data b)).
    rewrite Hh. change (hash (setPreviousHash b p')) with (hash b).
    change (previousHash (setPreviousHash b p')) with p'.
    destruct (streq (hash b) h); [|reflexivity]. cbv [negb].
    replace (streq p' (hash (nth j (g :: rest) g))) with false
      by (symmetry; apply streq_neq; congruence).
    reflexivity.
  - apply Q. rewrite E. clear E.
    rewrite isChainValidFrom_step. unfold bind at 1. unfold lift at 1.
    change (calculateHash (setPreviousHash b p'))
      with (calculateHashOf (index b) p' (timestamp b) (data b)).
    rewrite (calculateHashOf_illFormed _ _ _ _ Hcu Hwf). reflexivity.
Qed.

Lemma previousHash_tampering_witness :
  Forall (fun b => safeNumbers b = true) (chain samplePage)
  /\ fst (isChainValid samplePage) = Ok true
  /\ console samplePage = []
  /\ fst (isChainValid
            (setChain
               (tamper 1 (fun x => setPreviousHash x (lit "0"))
                  (chain samplePage)) samplePage))
     = Ok false
  /\ console
       (snd (isChainValid
               (setChain
                  (tamper 1 (fun x => setPreviousHash x (lit "0"))
                     (chain samplePage)) samplePage)))
     = [hashMismatchLine 1]
  /\ fst (isChainValid
            (setChain
               (tamper 1 (fun x => setPreviousHash x [0xD800])
                  (chain samplePage)) samplePage))
     = Throw URIError.
Proof.
  assert (V : fst (isChainValid samplePage) = Ok true) by reflexivity.
  assert (N1 : lit "0" <> previousHash sampleFirst) by discriminate.
  assert (N2 : [0xD800] <> previousHash sampleFirst) by discriminate.
  assert (S : Forall (fun b => safeNumbers b = true) (chain samplePage))
    by (repeat constructor).
  split; [exact S|]. split; [exact V|]. split; [reflexivity|].
  destruct (previousHash_tampering samplePage 1 sampleFirst (lit "0") S V
              (le_n 1) eq_refl N1 eq_refl eq_refl) as [h [Hh [E C]]].
  assert (Eh : h = lit "MTAxNzAwMDAwMDAwMDAxeyJzdHVkZW50SWQiOiJTMSIsInN0YXR1cyI6InByZXNl").
  { assert (K : calculateHash (setPreviousHash sampleFirst (lit "0"))
                = Ok (lit "MTAxNzAwMDAwMDAwMDAxeyJzdHVkZW50SWQiOiJTMSIsInN0YXR1cyI6InByZXNl"))
      by (vm_compute; reflexivity).
    congruence. }
  subst h.
  split; [rewrite E; reflexivity|]. split; [exact C|].
  rewrite (proj1 (previousHash_tampering samplePage 1 sampleFirst [0xD800]
                    S V (le_n 1) eq_refl N2 eq_refl eq_refl)).
  reflexivity.
Defined.

(** ** An edit made in the store *)






(** ** What [isChainValid] does to the page *)

Lemma encodeURIComponent_inModel (s : jsstring) :
  encodeURIComponent s <> OutOfModel.
Proof.
  induction s as [| u | u v r IHr IHv] using jsstring_pair_ind.
  - discriminate.
  - rewrite encodeURIComponent_cons.
    destruct (uriUnescaped u); [discriminate|].
    destruct (isLowSurrogate u); [discriminate|].
    destruct (isHighSurrogate u); discriminate.
  - rewrite encodeURIComponent_cons.
    destruct (uriUnescaped u).
    { destruct (encodeURIComponent (v :: r)); [discriminate|discriminate|].
      contradiction. }
    destruct (isLowSurrogate u); [discriminate|].
    destruct (isHighSurrogate u).
    + destruct (isLowSurrogate v); [|discriminate].
      destruct (encodeURIComponent r); [discriminate|discriminate|].
      contradiction.
    + destruct (encodeURIComponent (v :: r)); [discriminate|discriminate|].
      contradiction.
Qed.

(** [calculateHash] returns or throws. *)
Lemma calculateHash_inModel (b : Block) : calculateHash b <> OutOfModel.
Proof.
  unfold calculateHash, calculateHashOf.
  pose proof (encodeURIComponent_inModel
                (numberToString (index b) ++ previousHash b
                 ++ numberToString (timestamp b) ++ stringifyData (data b)))
    as H.
  destruct (encodeURIComponent _) as [e|x|]; [|discriminate|contradiction].
  simpl. unfold btoa. destruct (forallb _ _); discriminate.
Qed.

Lemma isChainValidFrom_run (i : nat) (p c : Block) (r : list Block)
    (w : World) :
  isChainValidFrom i p (c :: r) w
  = match calculateHash c with
    | Ok h =>
        if negb (streq (hash c) h)
        then (Ok false, logError (hashMismatchLine i) w)
        else if negb (streq (previousHash c) (hash p))
             then (Ok false, logError (linkMismatchLine i) w)
             else isChainValidFrom (S i) c r w
    | Throw e => (Throw e, w)
    | OutOfModel => (OutOfModel, w)
    end.
Proof.
  rewrite isChainValidFrom_step. unfold bind at 1. unfold lift at 1.
  destruct (calculateHash c) as [h|e|]; try reflexivity.
  destruct (negb (streq (hash c) h)); [reflexivity|].
  destruct (negb (streq (previousHash c) (hash p))); reflexivity.
Qed.

Lemma isChainValidFrom_audit (rest : list Block) :
  forall i p w,
    isChainValidFrom i p rest w = (Ok true, w)
    \/ (exists j,
           (i <= j < i + List.length rest)%nat
           /\ (isChainValidFrom i p rest w
               = (Ok false, logError (hashMismatchLine j) w)
               \/ isChainValidFrom i p rest w
                  = (Ok false, logError (linkMismatchLine j) w)))
    \/ (exists e, isChainValidFrom i p rest w = (Throw e, w)).
Proof.
  induction rest as [|c r IH]; intros i p w; [left; reflexivity|].
  rewrite isChainValidFrom_run.
  pose proof (calculateHash_inModel c) as Hm.
  destruct (calculateHash c) as [h|e|]; [|eauto|contradiction].
  destruct (negb (streq (hash c) h)).
  { right. left. exists i. split; [simpl; lia|]. left. reflexivity. }
  destruct (negb (streq (previousHash c) (hash p))).
  { right. left. exists i. split; [simpl; lia|]. right. reflexivity. }
  destruct (IH (S i) c w) as [H|[[j [Hj H]]|H]].
  - left. exact H.
  - right. left. exists j. split; [simpl; lia|exact H].
  - right. right. exact H.
Qed.

Lemma isChainValid_trace (w : World) :
  isChainValid w = (Ok true, w)
  \/ (exists i,
         (1 <= i < List.length (chain w))%nat
         /\ (isChainValid w = (Ok false, logError (hashMismatchLine i) w)
             \/ isChainValid w
                = (Ok false, logError (linkMismatchLine i) w)))
  \/ (exists e, isChainValid w = (Throw e, w)).
Proof.
  unfold isChainValid. destruct (chain w) as [|g rest]; [left; reflexivity|].
  destruct (isChainValidFrom_audit rest 1 g w) as [H|[[j [Hj H]]|H]].
  - left. exact H.
  - right. left. exists j. split; [simpl; lia|exact H].
  - right. right. exact H.
Qed.

(** X16. [isChainValid] is an audit: it never touches the ledger, the
    store or anything shown on the page.  It returns true and logs
    nothing; or it returns false and the console has one line more, the
    hash mismatch or the broken link of one block after the genesis block;
    or it throws, from [calculateHash], and logs nothing. *)
Theorem isChainValid_audit (w : World) :
  chain (snd (isChainValid w)) = chain w
  /\ localStorage (snd (isChainValid w)) = localStorage w
  /\ messageBox (snd (isChainValid w)) = messageBox w
  /\ summary (snd (isChainValid w)) = summary w
  /\ blockchainDisplay (snd (isChainValid w)) = blockchainDisplay w
  /\ ((fst (isChainValid w) = Ok true
       /\ console (snd (isChainValid w)) = console w)
      \/ (exists i,
             (1 <= i < List.length (chain w))%nat
             /\ fst (isChainValid w) = Ok false
             /\ (console (snd (isChainValid w))
                 = console w ++ [hashMismatchLine i]
                 \/ console (snd (isChainValid w))
                    = console w ++ [linkMismatchLine i]))
      \/ (exists e,
             fst (isChainValid w) = Throw e
             /\ console (snd (isChainValid w)) = console w)).
Proof.
  destruct (isChainValid_trace w) as [E|[[i [Hi [E|E]]]|[e E]]]; rewrite E.
  - do 5 (split; [reflexivity|]). left. split; reflexivity.
  - do 5 (split; [reflexivity|]). right. left. exists i.
    split; [exact Hi|]. split; [reflexivity|]. left. reflexivity.
  - do 5 (split; [reflexivity|]). right. left. exists i.
    split; [exact Hi|]. split; [reflexivity|]. right. reflexivity.
  - do 5 (split; [reflexivity|]). right. right. exists e.
    split; reflexivity.
Qed.

(** ** What a click does to the ledger *)

(** X17. The ledger is append-only under the clicks.  On any page a
    click leaves the ledger and the store as they were; or, for a mark
    button, it appends one block whose hash is the one [calculateHash]
    gives and leaves every earlier block as it was; or, for the clear
    button, it replaces the ledger by one new genesis block.  Whenever the
    ledger changes the store then holds its serialization. *)
Theorem handle_append_only (e : Event) (w : World) :
  (chain (snd (handle e w)) = chain w
   /\ localStorage (snd (handle e w)) = localStorage w)
  \/ (exists b,
         sealed b
         /\ (forall now, e <> ClearData now)
         /\ chain (snd (handle e w)) = chain w ++ [b]
         /\ localStorage (snd (handle e w))
            = Some (stringifyChain (chain w ++ [b])))
  \/ (exists now g,
         e = ClearData now
         /\ createGenesisBlock now = Ok g
         /\ chain (snd (handle e w)) = [g]
         /\ localStorage (snd (handle e w)) = Some (stringifyChain [g])).
Proof.
  assert (M : forall statusValue label input today now,
             (chain (snd (markButtonClick statusValue label input today now
                            w)) = chain w
              /\ localStorage
                   (snd (markButtonClick statusValue label input today now w))
                 = localStorage w)
             \/ exists b,
                  sealed b
                  /\ chain (snd (markButtonClick statusValue label input
                                   today now w)) = chain w ++ [b]
                  /\ localStorage
                       (snd (markButtonClick statusValue label input today
                               now w))
                     = Some (stringifyChain (chain w ++ [b]))).
  { intros statusValue label input today now. unfold markButtonClick.
    destruct (isEmpty (trim input)); [left; split; reflexivity|].
    destruct (recordAttendance_ledger statusValue label (trim input) today
                now w) as [H|[d [Hc Hs]]]; [left; exact H|].
    rewrite Hc, Hs.
    destruct (addBlock_cases now d w) as [[_ ->]|[l [b [_ [Hb ->]]]]];
      [left; split; reflexivity|].
    right. exists b.
    destruct (newBlock_fields _ _ _ _ _ Hb) as [_ [_ [_ [_ Hsb]]]].
    repeat split; assumption. }
  destruct e as [input today now|input today now|now].
  - destruct (M "present"%string "Present"%string input today now)
      as [H|[b [Hs [Hc Hl]]]]; [left; exact H|].
    right. left. exists b. repeat split; try assumption. discriminate.
  - destruct (M "absent"%string "Absent"%string input today now)
      as [H|[b [Hs [Hc Hl]]]]; [left; exact H|].
    right. left. exists b. repeat split; try assumption. discriminate.
  - right. right. destruct (clearChain_run now w) as [g [Hg Hrun]].
    exists now, g. split; [reflexivity|]. split; [exact Hg|].
    simpl handle. unfold clearDataBtnClick.
    rewrite bind_chain, bind_localStorage by auto 10 with page.
    rewrite Hrun. split; reflexivity.
Qed.

(** ** An edited hash, on the next visit *)








(** ** Over several visits *)

Lemma visited_keys (w : World) :
  visited w -> NoDup (map keyOf (chain w)).
Proof.
  induction 1 as [now w Hb|w _ IH|w e _ IH|w now w' Hv IH Hb].
  - destruct (boot_fresh now w Hb) as [g [_ ->]]. simpl.
    constructor; [intros []|constructor].
  - destruct (readOnly_windowOnload w) as [-> _]. exact IH.
  - apply handle_keys, IH.
  - destruct (visited_produced w Hv) as [w0 [Hp [Hc Hs]]].
    destruct (boot_again w w0 w' now Hp Hc Hs Hb) as [[_ Hf]|[Hc' _]].
    + destruct (boot_fresh now w' Hf) as [g [_ ->]]. simpl.
      constructor; [intros []|constructor].
    + rewrite Hc'. exact IH.
Qed.

(** X19. One entry per student per day, over any number of visits.  On
    every page reached from a first visit on an empty store by
    [window.onload], clicks and reloads, no two blocks have the same
    student and the same day; so none of the blocks after the genesis
    block do. *)
Theorem visited_uniquePerDay (w : World) :
  visited w ->
  NoDup (map keyOf (chain w)) /\ uniquePerDay (chain w).
Proof.
  intros H. pose proof (visited_keys w H) as K.
  split; [exact K|]. apply distinct_keys_uniquePerDay, K.
Qed.

Lemma visited_uniquePerDay_witness :
  visited
    (blankPage (chain sampleReached) (localStorage sampleReached))
  /\ uniquePerDay (chain sampleReached).
Proof.
  assert (V : visited
                (blankPage (chain sampleReached)
                   (localStorage sampleReached))).
  { apply (visited_again sampleReached 1700000000009);
      [exact visited_sampleReached|].
    rewrite sampleReached_stored, sampleReached_chain. reflexivity. }
  split; [exact V|].
  exact (proj2 (visited_uniquePerDay _ V)).
Defined.

(** ** No click throws *)

Lemma updateAttendanceSummary_completes (w : World) :
  (List.length (chain w) <= S summaryBound)%nat ->
  exists s, updateAttendanceSummary w = (Ok tt, setSummary s w).
Proof.
  intros Hb.
  destruct (summary_within (countPresent (skipn 1 (chain w)))
              (List.length (skipn 1 (chain w))))
    as [n [_ [Hfix _]]];
    [rewrite length_skipn; lia | apply countPresent_bound |].
  eexists.
  apply (updateAttendanceSummary_counts w _ _ (fixedDigits 2 n)
           eq_refl eq_refl Hfix).
Qed.

(** On a ledger of sealed and linked blocks, within the bound, the two
    display functions complete, one after the other. *)
Lemma display_completes (w : World) (g : Block) (rest : list Block) :
  chain w = g :: rest -> linkedFrom g rest ->
  (List.length (chain w) <= S summaryBound)%nat ->
  exists w',
    (updateAttendanceSummary ;; renderBlockchain) w = (Ok tt, w').
Proof.
  intros Hc Hl Hb.
  destruct (updateAttendanceSummary_completes w Hb) as [s Hs].
  destruct (renderBlockchain_linked (setSummary s w) g rest Hc Hl)
    as [w' [Hr _]].
  exists w'. unfold bind at 1. rewrite Hs. exact Hr.
Qed.

Lemma recordAttendance_completes (statusValue label : string)
    (sid today : jsstring) (now : Z) (w : World) :
  visited w ->
  (List.length (chain w) <= summaryBound)%nat ->
  codeUnits sid = true -> codeUnits today = true ->
  fst (recordAttendance statusValue label sid today now w) = Ok tt.
Proof.
  intros Hv Hlen Hi Ht.
  destruct (find (fun block =>
                    streq (date (data block)) today
                    && streq (studentId (data block)) sid) (chain w))
    as [existing|] eqn:Hf.
  { rewrite (recordAttendance_found _ _ _ _ _ _ existing Hf). reflexivity. }
  rewrite (recordAttendance_new _ _ _ _ _ _ Hf).
  set (d := {| studentId := sid; status := lit statusValue;
               date := today |}).
  assert (Hd : codeUnitsData d = true).
  { unfold codeUnitsData, d. simpl. rewrite Hi, codeUnits_lit, Ht.
    reflexivity. }
  destruct (visited_produced w Hv) as [w0 [Hp [Hc Hs]]].
  destruct (produced_linked w0 Hp) as [now0 [g [rest [Hc0 [Hg Hl]]]]].
  rewrite <- Hc in Hc0.
  assert (El : getLatestBlock (chain w) = Some (last rest g))
    by (rewrite Hc0; apply getLatestBlock_last).
  assert (Hsl : sealed (last rest g)).
  { pose proof (produced_sealed w0 Hp) as Hse. rewrite <- Hc in Hse.
    rewrite Forall_forall in Hse. apply Hse.
    destruct (getLatestBlock_length _ _ El) as [_ Hn].
    apply nth_error_In in Hn. exact Hn. }
  destruct (newBlock_total (numberAdd (index (last rest g)) 1) now d
              (hash (last rest g))
              (isAscii_wellFormed _ (sealed_ascii _ Hsl)) Hd) as [b Hb].
  assert (Hmax : (Z.of_nat (List.length (chain w)) < arrayMaxLength)%Z).
  { clear - Hlen. unfold summaryBound in Hlen. unfold arrayMaxLength. lia. }
  unfold bind at 1. rewrite (addBlock_run now d w _ b El Hb Hmax).
  set (w1 := setLocalStorage (Some (stringifyChain (chain w ++ [b])))
               (setChain (chain w ++ [b]) w)).
  assert (Hc1 : chain w1 = g :: (rest ++ [b])).
  { unfold w1. simpl. rewrite Hc0. reflexivity. }
  assert (Hl1 : linkedFrom g (rest ++ [b])).
  { apply linkedFrom_snoc; [exact Hl| |].
    - apply (newBlock_fields _ _ _ _ _ Hb).
    - apply (newBlock_fields _ _ _ _ _ Hb). }
  destruct (updateAttendanceSummary_completes w1) as [s Hsum].
  { rewrite Hc1. rewrite Hc0 in Hlen. simpl in *. rewrite length_app.
    simpl. lia. }
  destruct (renderBlockchain_linked (setSummary s w1) g (rest ++ [b])
              Hc1 Hl1) as [w3 [Hr _]].
  unfold bind at 1. rewrite Hsum. unfold bind at 1. rewrite Hr.
  reflexivity.
Qed.

(** X20. No click throws.  On every page reached over any number of
    visits, with up to [summaryBound] blocks in the ledger, a click on
    any of the three buttons completes, whatever the input (a string of
    code units) and the clock; and so does [window.onload]. *)
Theorem handle_completes (e : Event) (w : World) :
  visited w ->
  (List.length (chain w) <= summaryBound)%nat ->
  codeUnitsEvent e = true ->
  fst (handle e w) = Ok tt /\ fst (windowOnload w) = Ok tt.
Proof.
  intros Hv Hlen He. split.
  - destruct e as [input today now|input today now|now]; simpl in *.
    + apply andb_true_iff in He. destruct He as [Hi Ht].
      unfold markPresentBtnClick, markButtonClick.
      destruct (isEmpty (trim input)); [reflexivity|].
      apply recordAttendance_completes; auto using codeUnits_trim.
    + apply andb_true_iff in He. destruct He as [Hi Ht].
      unfold markAbsentBtnClick, markButtonClick.
      destruct (isEmpty (trim input)); [reflexivity|].
      apply recordAttendance_completes; auto using codeUnits_trim.
    + destruct (clearChain_run now w) as [g [Hg Hrun]].
      unfold clearDataBtnClick. unfold bind at 1. rewrite Hrun.
      match goal with
      | |- context [setLocalStorage ?s (setChain [g] ?w0)] =>
          set (w1 := setLocalStorage s (setChain [g] w0))
      end.
      destruct (display_completes w1 g [] eq_refl I) as [w' Hd].
      { simpl. lia. }
      unfold bind in Hd. unfold bind at 1.
      destruct (updateAttendanceSummary w1) as [[[]|x|] w2];
        try discriminate Hd.
      unfold bind at 1. rewrite Hd. reflexivity.
  - destruct (visited_linked w Hv) as [now0 [g [rest [Hc [_ Hl]]]]].
    destruct (display_completes w g rest Hc Hl) as [w' Hd]; [lia|].
    unfold windowOnload. rewrite Hd. reflexivity.
Qed.

Lemma handle_completes_witness :
  visited sampleReached
  /\ fst (handle (MarkPresent (lit "S3") (lit "2024-01-02") 1700000000004)
            sampleReached) = Ok tt.
Proof.
  assert (B : (List.length (chain sampleReached) <= summaryBound)%nat).
  { rewrite sampleReached_chain. vm_compute. repeat constructor. }
  split; [exact visited_sampleReached|].
  exact (proj1 (handle_completes
                  (MarkPresent (lit "S3") (lit "2024-01-02") 1700000000004)
                  sampleReached visited_sampleReached B eq_refl)).
Defined.

(** ** What a visit shows first *)

Lemma boot_blank (now : Z) (stored : option jsstring) (page : World) :
  boot now stored = Ok page -> page = blankPage (chain page) stored.
Proof.
  unfold boot. destruct (newBlockchain now stored) as [c|e|];
    try discriminate.
  simpl. intros H. injection H as <-. reflexivity.
Qed.

(** X21. What a visit shows first.  On every visit, whatever the earlier
    visits have left in the store, with up to [summaryBound] records in
    the ledger, [window.onload] completes on the page the script has
    built: the summary is shown, the display gets one card for each block
    after the genesis block, in order, each saying that its hash matches,
    nothing is logged and no message is shown.  When the blocks drawn are
    drawn as text, no 'noBlocksMessage' is in the document afterwards. *)
Theorem windowOnload_draws (w : World) (now' : Z) (page : World) :
  visited w ->
  (List.length (chain w) <= S summaryBound)%nat ->
  boot now' (localStorage w) = Ok page ->
  fst (windowOnload page) = Ok tt
  /\ blockchainDisplay (snd (windowOnload page))
     = map validCard (skipn 1 (chain page))
  /\ console (snd (windowOnload page)) = []
  /\ messageBox (snd (windowOnload page)) = None
  /\ (Forall (fun b => drawnAsText b = true) (skipn 1 (chain page)) ->
      noBlocksMessageAttached (snd (windowOnload page)) = false)
  /\ chain (snd (windowOnload page)) = chain page
  /\ exists s,
       summary (snd (windowOnload page)) = Some s
       /\ totalDaysText s
          = numberToString
              (Z.of_nat (List.length (skipn 1 (chain page)))).
Proof.
  intros Hv Hlen Hb.
  pose proof (visited_again w now' page Hv Hb) as Hvp.
  destruct (visited_linked page Hvp) as [now0 [g [rest [Hc [_ Hl]]]]].
  assert (Hlp : (List.length (chain page) <= S summaryBound)%nat).
  { destruct (visited_produced w Hv) as [w0 [Hp [Hc0 Hs0]]].
    destruct (boot_again w w0 page now' Hp Hc0 Hs0 Hb) as [[_ Hf]|[Hc' _]].
    - destruct (boot_fresh now' page Hf) as [g' [_ ->]]. simpl. lia.
    - rewrite Hc'. exact Hlen. }
  pose proof (boot_blank now' (localStorage w) page Hb) as Hshape.
  destruct (summary_within (countPresent (skipn 1 (chain page)))
              (List.length (skipn 1 (chain page))))
    as [n [_ [Hfix _]]];
    [rewrite length_skipn; lia | apply countPresent_bound |].
  pose proof (updateAttendanceSummary_counts page _ _ (fixedDigits 2 n)
                eq_refl eq_refl Hfix) as Hsum.
  match type of Hsum with
  | _ = (_, setSummary ?s page) => set (shown := s) in Hsum
  end.
  assert (Ha : noBlocksMessageAttached (setSummary shown page) = true)
    by (rewrite Hshape; reflexivity).
  pose proof (renderBlockchain_draws (setSummary shown page) g rest Ha Hc Hl)
    as Hdraw.
  assert (Run : windowOnload page
                = (Ok tt,
                   appendCards (map validCard rest)
                     (clearDisplay (setSummary shown page)))).
  { unfold windowOnload. unfold bind at 1. rewrite Hsum. exact Hdraw. }
  rewrite Run. cbn [fst snd].
  destruct (appendCards_fields (map validCard rest)
              (clearDisplay (setSummary shown page)))
    as [H1 [_ [H3 [H4 [H5 [H6 H7]]]]]].
  rewrite H1, H3, H4, H5, H6, H7.
  split; [reflexivity|].
  split; [rewrite Hc; reflexivity|].
  split; [rewrite Hshape; reflexivity|].
  split; [rewrite Hshape; reflexivity|].
  split; [intros _; reflexivity|]. split; [reflexivity|].
  exists shown. split; reflexivity.
Qed.

Lemma windowOnload_draws_witness :
  visited sampleReached
  /\ boot 1700000000009 (localStorage sampleReached)
     = Ok (blankPage sampleChain (Some (stringifyChain sampleChain)))
  /\ blockchainDisplay
       (snd (windowOnload
               (blankPage sampleChain (Some (stringifyChain sampleChain)))))
     = [validCard sampleFirst; validCard sampleSecond]
  /\ Forall (fun b => drawnAsText b = true) (skipn 1 sampleChain)
  /\ noBlocksMessageAttached
       (snd (windowOnload
               (blankPage sampleChain (Some (stringifyChain sampleChain)))))
     = false.
Proof.
  assert (B : boot 1700000000009 (localStorage sampleReached)
              = Ok (blankPage sampleChain
                      (Some (stringifyChain sampleChain)))).
  { rewrite sampleReached_stored. reflexivity. }
  assert (L : (List.length (chain sampleReached) <= S summaryBound)%nat).
  { rewrite sampleReached_chain. vm_compute. repeat constructor. }
  assert (F : Forall (fun b => drawnAsText b = true) (skipn 1 sampleChain))
    by (repeat constructor).
  split; [exact visited_sampleReached|]. split; [exact B|].
  split.
  - exact (proj1 (proj2
             (windowOnload_draws sampleReached 1700000000009 _
                visited_sampleReached L B))).
  - split; [exact F|].
    exact (proj1 (proj2 (proj2 (proj2 (proj2
             (windowOnload_draws sampleReached 1700000000009 _
                visited_sampleReached L B))))) F).
Defined.

(** ** Tampering with an index *)

Lemma base64Value_base64Char (n : N) :
  n < 64 -> base64Value (base64Char n) = n.
Proof.
  intros H.
  pose proof (forall_below 64
                (fun n => base64Value (base64Char n) =? n)) as E.
  apply N.eqb_eq. apply E; [vm_compute; reflexivity|exact H].
Qed.

Lemma sextets_checked (x y : N) :
  x < 128 -> y < 128 -> sextetsChecked x y = true.
Proof.
  intros Hx Hy.
  pose proof (forall_below 128
                (fun x =>
                   forallb (fun y => sextetsChecked x y)
                           (map N.of_nat (seq 0 128)))) as E.
  assert (Ex : forallb (fun y => sextetsChecked x y)
                 (map N.of_nat (seq 0 128)) = true)
    by (apply E; [vm_compute; reflexivity|exact Hx]).
  apply (forall_below 128 (fun y => sextetsChecked x y) Ex y Hy).
Qed.

Lemma base64_first (a b c : N) (rest : list N) :
  base64 (a :: b :: c :: rest)
  = base64Char (N.shiftr a 2) :: base64Char (sextet2 a b)
    :: base64Char (sextet3 b c) :: base64Char (N.land c 63)
    :: base64 rest.
Proof. reflexivity. Qed.

(** Three ASCII octets can be read back from their four base64
    characters. *)
Lemma base64_triple_inj (a b c a' b' c' : N) :
  a < 128 -> b < 128 -> c < 128 -> a' < 128 -> b' < 128 -> c' < 128 ->
  base64Char (N.shiftr a 2) = base64Char (N.shiftr a' 2) ->
  base64Char (sextet2 a b) = base64Char (sextet2 a' b') ->
  base64Char (sextet3 b c) = base64Char (sextet3 b' c') ->
  base64Char (N.land c 63) = base64Char (N.land c' 63) ->
  a = a' /\ b = b' /\ c = c'.
Proof.
  intros Ha Hb Hc Ha' Hb' Hc' E1 E2 E3 E4.
  pose proof (sextets_checked a b Ha Hb) as Pab.
  pose proof (sextets_checked b c Hb Hc) as Pbc.
  pose proof (sextets_checked a' b' Ha' Hb') as Pab'.
  pose proof (sextets_checked b' c' Hb' Hc') as Pbc'.
  unfold sextetsChecked in *.
  repeat rewrite andb_true_iff in *.
  repeat rewrite N.ltb_lt in *. repeat rewrite N.eqb_eq in *.
  destruct Pab as [[[[[[[B1 B2] _] _] A1] A2] _] _].
  destruct Pbc as [[[[[[[_ _] B3] B4] _] _] A3] A4].
  destruct Pab' as [[[[[[[B1' B2'] _] _] A1'] A2'] _] _].
  destruct Pbc' as [[[[[[[_ _] B3'] B4'] _] _] A3'] A4'].
  apply (f_equal base64Value) in E1, E2, E3, E4.
  rewrite !base64Value_base64Char in E1, E2, E3, E4 by assumption.
  assert (Ea : a = a') by (rewrite <- A1, <- A1', E1, E2; reflexivity).
  assert (Ec : c = c') by (rewrite <- A4, <- A4', E3, E4; reflexivity).
  assert (Eb : b = b') by (rewrite <- A3, <- A3', E3; congruence).
  auto.
Qed.

(** Lists of ASCII octets of the same whole number of triples can be read
    back from their base64 text. *)
Lemma base64_inj (k : nat) :
  forall x y,
    List.length x = (3 * k)%nat -> List.length y = (3 * k)%nat ->
    isAscii x = true -> isAscii y = true ->
    base64 x = base64 y -> x = y.
Proof.
  induction k as [|k IH]; intros x y Lx Ly Ax Ay E.
  - destruct x, y; try discriminate. reflexivity.
  - destruct x as [|a [|b [|c x]]]; try (simpl in Lx; lia).
    destruct y as [|a' [|b' [|c' y]]]; try (simpl in Ly; lia).
    rewrite !base64_first in E.
    injection E as E1 E2 E3 E4 E5.
    change (isAscii (a :: b :: c :: x))
      with ((a <? 128) && ((b <? 128) && ((c <? 128) && isAscii x))) in Ax.
    change (isAscii (a' :: b' :: c' :: y))
      with ((a' <? 128) && ((b' <? 128) && ((c' <? 128) && isAscii y)))
      in Ay.
    repeat rewrite andb_true_iff in Ax, Ay.
    repeat rewrite N.ltb_lt in Ax, Ay.
    destruct Ax as [Ha [Hb [Hc Ax]]]. destruct Ay as [Ha' [Hb' [Hc' Ay]]].
    destruct (base64_triple_inj a b c a' b' c' Ha Hb Hc Ha' Hb' Hc'
                E1 E2 E3 E4) as [-> [-> ->]].
    f_equal. f_equal. f_equal.
    apply IH; try assumption; simpl in Lx, Ly; lia.
Qed.

Lemma isNumeric_digit (c : N) : isDigit c = true -> isNumeric c = true.
Proof. intros H. unfold isNumeric. rewrite H. reflexivity. Qed.

Lemma uint_chars_numeric (d : Decimal.uint) :
  forallb isNumeric (uint_chars d) = true.
Proof. induction d; simpl; auto. Qed.

Lemma numberToString_numeric (z : Z) :
  forallb isNumeric (numberToString z) = true.
Proof.
  unfold numberToString, natToString.
  destruct (z <? 0)%Z; simpl; apply uint_chars_numeric.
Qed.

Lemma numberToString_inj (z z' : Z) :
  numberToString z = numberToString z' -> z = z'.
Proof.
  intros E.
  pose proof (parseNumber_numberToString z []) as P.
  pose proof (parseNumber_numberToString z' []) as P'.
  rewrite E in P. congruence.
Qed.

(** Two different numerals in front of the same text, which does not
    start with a numeral character, part within the first [n] characters
    when one of them is shorter than [n]. *)
Lemma numeral_prefix_differs (c : N) (r : jsstring) :
  isNumeric c = false ->
  forall s s' n,
    forallb isNumeric s = true -> forallb isNumeric s' = true ->
    (List.length s < n)%nat ->
    firstn n (s ++ c :: r) = firstn n (s' ++ c :: r) -> s = s'.
Proof.
  intros Hc. induction s as [|x s IH]; intros s' n Hs Hs' Ln E.
  - destruct s' as [|y s']; [reflexivity|].
    destruct n as [|n]; [simpl in Ln; lia|].
    simpl in E. injection E as E _. subst y.
    simpl in Hs'. rewrite Hc in Hs'. discriminate.
  - destruct n as [|n]; [simpl in Ln; lia|].
    destruct s' as [|y s'].
    + simpl in E. injection E as E _. subst x.
      simpl in Hs. rewrite Hc in Hs. discriminate.
    + simpl in E. injection E as E1 E2. subst y.
      simpl in Hs, Hs'. apply andb_true_iff in Hs, Hs'.
      f_equal. apply (IH s' n); try tauto; simpl in Ln; lia.
Qed.

Lemma base64_head (a : N) (rest : list N) :
  exists r, base64 (a :: rest) = base64Char (N.shiftr a 2) :: r.
Proof.
  destruct rest as [|b [|c rest]].
  - eexists. reflexivity.
  - eexists. reflexivity.
  - rewrite base64_first. eexists. reflexivity.
Qed.

(** The hash of a block starts with a character that no numeral has. *)
Lemma calculateHashOf_head (i : Z) (prev : jsstring) (ts : Z)
    (d : AttendanceData) (h : jsstring) :
  wellFormed prev = true -> codeUnitsData d = true ->
  calculateHashOf i prev ts d = Ok h ->
  exists c r, h = c :: r /\ isNumeric c = false.
Proof.
  intros Hp Hd Hh.
  rewrite calculateHashOf_wellFormed in Hh
    by (apply hashInput_wellFormed; assumption).
  injection Hh as <-.
  rewrite (utf8String_ascii_app _ _ (numberToString_ascii i)).
  destruct (numberToString_head i) as [a [s [E Ha]]]. rewrite E.
  assert (H4 : base64Char (N.shiftr a 2) = 76
               \/ base64Char (N.shiftr a 2) = 77
               \/ base64Char (N.shiftr a 2) = 78
               \/ base64Char (N.shiftr a 2) = 79).
  { destruct Ha as [Ha| ->]; [|left; reflexivity].
    unfold isDigit in Ha. apply andb_true_iff in Ha.
    rewrite !N.leb_le in Ha.
    assert (C : a = 48 \/ a = 49 \/ a = 50 \/ a = 51 \/ a = 52 \/ a = 53
                \/ a = 54 \/ a = 55 \/ a = 56 \/ a = 57) by lia.
    repeat (destruct C as [->|C]; [vm_compute; auto|]).
    subst a. vm_compute. auto. }
  change ((a :: s) ++ utf8String (prev ++ numberToString ts
                                    ++ stringifyData d))
    with (a :: (s ++ utf8String (prev ++ numberToString ts
                                   ++ stringifyData d))).
  destruct (base64_head a (s ++ utf8String (prev ++ numberToString ts
                                              ++ stringifyData d)))
    as [r Er].
  rewrite Er.
  exists (base64Char (N.shiftr a 2)), (firstn 63 r).
  split; [reflexivity|].
  destruct H4 as [->|[->|[->| ->]]]; reflexivity.
Qed.

Lemma usize_length (d : Decimal.uint) :
  Stdlib.Numbers.DecimalPos.Unsigned.usize d
  = N.of_nat (List.length (uint_chars d)).
Proof.
  induction d; cbn [Stdlib.Numbers.DecimalPos.Unsigned.usize uint_chars
                    List.length]; rewrite ?IHd; lia.
Qed.

(** A number below [10^k] is printed with at most [k] digits. *)
Lemma natToString_length (n k : N) :
  n < 10 ^ k -> N.of_nat (List.length (natToString n)) <= N.max 1 k.
Proof.
  intros Hn. unfold natToString.
  pose proof (DecimalN.Unsigned.of_to n) as E.
  pose proof (to_uint_head n) as Hh.
  assert (B : forall d acc,
             10 ^ N.of_nat (List.length (uint_chars d))
             <= N.pos (Pos.of_uint_acc d acc)).
  { intros d acc.
    rewrite Stdlib.Numbers.DecimalPos.Unsigned.of_uint_acc_rev.
    rewrite usize_length.
    assert (0 < 10 ^ N.of_nat (List.length (uint_chars d)))
      by (apply N.neq_0_lt_0, N.pow_nonzero; discriminate).
    nia. }
  assert (S : forall d acc,
             N.pos (Pos.of_uint_acc d acc) = n ->
             N.of_nat (List.length (uint_chars d)) < k).
  { intros d acc Ed. pose proof (B d acc) as Bd. rewrite Ed in Bd.
    apply (N.pow_lt_mono_r_iff 10); lia. }
  destruct (N.to_uint n) as [|d|d|d|d|d|d|d|d|d|d];
    [contradiction|subst d; cbn; lia|..];
    cbn [uint_chars List.length]; cbn in E;
    pose proof (S d _ E); lia.
Qed.

(** An integer that a JavaScript number holds exactly is printed with
    fewer than 48 characters. *)
Lemma numberToString_short (z : Z) :
  (Z.abs z <= 9007199254740991)%Z ->
  (List.length (numberToString z) < 48)%nat.
Proof.
  intros Hz. unfold numberToString.
  assert (L : forall n, n < 10 ^ 16 ->
                        (List.length (natToString n) <= 16)%nat).
  { intros n Hn. pose proof (natToString_length n 16 Hn). lia. }
  destruct (z <? 0)%Z.
  - cbn [List.length].
    pose proof (L (Z.to_N (- z))) as H.
    assert (Z.to_N (- z) < 10 ^ 16)
      by (change (10 ^ 16) with 10000000000000000; lia).
    lia.
  - pose proof (L (Z.to_N z)) as H.
    assert (Z.to_N z < 10 ^ 16)
      by (change (10 ^ 16) with 10000000000000000; lia).
    lia.
Qed.

(** In a ledger of the script every hash starts with a character that
    no numeral has. *)
Lemma linked_hash_head (now : Z) (g p : Block) (rest : list Block) :
  createGenesisBlock now = Ok g -> linkedFrom g rest ->
  Forall (fun b => codeUnitsData (data b) = true) (g :: rest) ->
  In p (g :: rest) ->
  exists c r, hash p = c :: r /\ isNumeric c = false.
Proof.
  intros Hg Hl Hcu Hin.
  inversion Hcu as [|? ? Hgd Hcr]; subst.
  assert (Hd : codeUnitsData (data p) = true)
    by (rewrite Forall_forall in Hcu; apply Hcu, Hin).
  destruct (createGenesisBlock_fields now g Hg) as [_ [_ [_ [Hgp Hgs]]]].
  assert (H : sealed p /\ wellFormed (previousHash p) = true).
  { destruct Hin as [<-|Hin].
    - split; [exact Hgs|]. rewrite Hgp. reflexivity.
    - pose proof (linkedFrom_sealed rest g Hl) as Hs.
      pose proof (linkedFrom_covered rest g (createGenesisBlock_full now g Hg)
                    Hl Hcr) as Hcov.
      rewrite Forall_forall in Hs, Hcov. split; [apply Hs, Hin|].
      apply isAscii_wellFormed, (Hcov p Hin). }
  destruct H as [Hs Hw].
  apply (calculateHashOf_head (index p) (previousHash p) (timestamp p)
           (data p) (hash p) Hw Hd Hs).
Qed.

(** X22. On every page reached over any number of visits, with payloads
    of code units, replacing the [index] of a block after the genesis
    block by another integer that a JavaScript number holds exactly is
    always detected: [isChainValid] returns false and the console gets
    one line more, the hash mismatch of that very block.  Replacing the
    [index] of the genesis block is not: [isChainValid] still returns
    true. *)
Theorem index_tampering (w : World) (i' : Z) :
  visited w ->
  Forall (fun b => codeUnitsData (data b) = true) (chain w) ->
  (Z.abs i' <= 9007199254740991)%Z ->
  (forall k b,
      (1 <= k)%nat -> nth_error (chain w) k = Some b -> i' <> index b ->
      isChainValid
        (setChain (tamper k (fun x => setIndex x i') (chain w)) w)
      = (Ok false,
         logError (hashMismatchLine k)
           (setChain (tamper k (fun x => setIndex x i') (chain w)) w))
      /\ console
           (snd (isChainValid
                   (setChain (tamper k (fun x => setIndex x i') (chain w))
                      w)))
         = console w ++ [hashMismatchLine k])
  /\ fst (isChainValid
            (setChain (tamper 0 (fun x => setIndex x i') (chain w)) w))
     = Ok true.
Proof.
  intros Hvis Hcu Hi.
  assert (P : forall (o : outcome bool) line w1,
             isChainValid w1 = (o, logError line w1) ->
             console w1 = console w ->
             isChainValid w1 = (o, logError line w1)
             /\ console (snd (isChainValid w1)) = console w ++ [line]).
  { intros o line w1 E Ec. split; [exact E|].
    rewrite E. cbn [snd logError console]. rewrite Ec. reflexivity. }
  destruct (visited_linked w Hvis) as [now [g [rest [Hc [Hg Hl]]]]].
  assert (Hv : isChainValidFrom 1 g rest w = (Ok true, w))
    by (apply linkedFrom_valid, Hl).
  split.
  - intros k b Hk Hn Hne. apply P; [|reflexivity]. rewrite Hc in *.
    destruct k as [|j]; [lia|].
    change (nth_error rest j = Some b) in Hn.
    unfold isChainValid. simpl chain.
    change (tamper (S j) (fun x => setIndex x i') (g :: rest))
      with (g :: tamper j (fun x => setIndex x i') rest). cbv iota.
    assert (Hv1 : fst (isChainValidFrom 1 g rest w) = Ok true)
      by (rewrite Hv; reflexivity).
    destruct (isChainValidFrom_tamper (fun x => setIndex x i') rest 1 g j b w
                (setChain (g :: tamper j (fun x => setIndex x i') rest) w)
                Hv1 Hn) as [Hp [Hs ->]].
    inversion Hcu as [|? ? Hgd Hcr]; subst.
    assert (Hin : In b rest) by (apply nth_error_In in Hn; exact Hn).
    assert (Hd : codeUnitsData (data b) = true)
      by (rewrite Forall_forall in Hcr; apply Hcr, Hin).
    pose proof (linkedFrom_covered rest g (createGenesisBlock_full now g Hg)
                  Hl Hcr) as Hcov.
    rewrite Forall_forall in Hcov. destruct (Hcov b Hin) as [Ha Hlen].
    assert (Hpin : In (nth j (g :: rest) g) (g :: rest)).
    { destruct (nth_in_or_default j (g :: rest) g) as [H|H]; [exact H|].
      rewrite H. left. reflexivity. }
    destruct (linked_hash_head now g (nth j (g :: rest) g) rest Hg Hl Hcu
                Hpin) as [c [r [Eh Hc']]].
    rewrite <- Hp in Eh.
    assert (L : forall i,
               (48 <= List.length (numberToString i ++ previousHash b))%nat)
      by (intros i; rewrite length_app, Hlen; lia).
    assert (Hh' : calculateHash (setIndex b i')
                  = Ok (base64 (firstn 48 (numberToString i'
                                           ++ previousHash b))))
      by (apply (calculateHashOf_prefix i' (previousHash b) (timestamp b)
                   (data b) Ha (L i') Hd)).
    assert (Hh : hash b
                 = base64 (firstn 48 (numberToString (index b)
                                      ++ previousHash b))).
    { pose proof (calculateHashOf_prefix (index b) (previousHash b)
                    (timestamp b) (data b) Ha (L (index b)) Hd) as E.
      unfold calculateHash in Hs. congruence. }
    rewrite isChainValidFrom_step. unfold bind at 1. unfold lift at 1.
    rewrite Hh'. change (hash (setIndex b i')) with (hash b).
    replace (streq (hash b)
               (base64 (firstn 48 (numberToString i' ++ previousHash b))))
      with false; [reflexivity|].
    symmetry. apply streq_neq. rewrite Hh. intros E.
    apply Hne.
    apply numberToString_inj.
    apply (numeral_prefix_differs c r Hc' (numberToString i')
             (numberToString (index b)) 48
             (numberToString_numeric i')
             (numberToString_numeric (index b))
             (numberToString_short i' Hi)).
    rewrite <- Eh. symmetry.
    apply (base64_inj 16); try assumption.
    + apply firstn_length_le, L.
    + apply firstn_length_le, L.
    + apply isAscii_firstn. rewrite isAscii_app, numberToString_ascii, Ha.
      reflexivity.
    + apply isAscii_firstn. rewrite isAscii_app, numberToString_ascii, Ha.
      reflexivity.
  - rewrite (isChainValid_genesis_blind w (fun x => setIndex x i'))
      by reflexivity.
    unfold isChainValid. rewrite Hc, Hv. reflexivity.
Qed.

Lemma index_tampering_witness :
  visited sampleReached
  /\ Forall (fun b => codeUnitsData (data b) = true) (chain sampleReached)
  /\ fst (isChainValid
            (setChain (tamper 2 (fun x => setIndex x 7) (chain sampleReached))
               sampleReached))
     = Ok false
  /\ console
       (snd (isChainValid
               (setChain
                  (tamper 2 (fun x => setIndex x 7) (chain sampleReached))
                  sampleReached)))
     = console sampleReached ++ [hashMismatchLine 2].
Proof.
  assert (F : Forall (fun b => codeUnitsData (data b) = true)
                (chain sampleReached))
    by (rewrite sampleReached_chain; repeat constructor).
  assert (N : nth_error (chain sampleReached) 2 = Some sampleSecond)
    by (rewrite sampleReached_chain; reflexivity).
  assert (B : (Z.abs 7 <= 9007199254740991)%Z) by (vm_compute; discriminate).
  assert (D : 7%Z <> index sampleSecond) by discriminate.
  split; [exact visited_sampleReached|]. split; [exact F|].
  destruct (proj1 (index_tampering sampleReached 7 visited_sampleReached F B)
              2%nat sampleSecond (le_S _ _ (le_n 1)) N D) as [E C].
  split; [rewrite E; reflexivity|exact C].
Defined.
